(** * Attendance tracker (name_tracker_app.py): model and properties

    A shallow embedding of [src/name_tracker_app.py]: the three pure
    functions ([normalize_name_to_core], [extract_names_from_text],
    [extract_date_from_filename]) and the aggregation / report block of the
    script.  The regular expressions of the source are kept as regular
    expressions and run by a backtracking matcher that follows the
    leftmost, priority-ordered, greedy discipline of Python's [re]. *)

From Stdlib Require Import String Ascii.
From Stdlib Require Import List NArith ZArith Bool Arith Lia.
From Stdlib Require Import Sorting.Sorted Sorting.Permutation.
Import ListNotations.

Set Implicit Arguments.
Local Open Scope N_scope.

(** ** Python strings

    A Python [str] is a sequence of Unicode code points; [len], indexing,
    comparison and [re] all work on code points. *)

Definition str := list N.

Definition in_range (lo hi c : N) : bool := (lo <=? c) && (c <=? hi).

(** [bytes.decode('utf-8')] in strict mode: overlong forms, surrogates and
    values above U+10FFFF raise [UnicodeDecodeError] (here [None]). *)
Definition is_cont (b : N) : bool := in_range 128 191 b.
Definition cont_bits (b : N) : N := b - 128.

Fixpoint utf8_decode (bs : list N) : option str :=
  match bs with
  | [] => Some []
  | b0 :: t0 =>
    if b0 <? 128 then option_map (cons b0) (utf8_decode t0)
    else if in_range 194 223 b0 then
      match t0 with
      | b1 :: t1 =>
        if is_cont b1
        then option_map (cons ((b0 - 192) * 64 + cont_bits b1)) (utf8_decode t1)
        else None
      | _ => None
      end
    else if in_range 224 239 b0 then
      match t0 with
      | b1 :: b2 :: t2 =>
        if is_cont b2 &&
           (if b0 =? 224 then in_range 160 191 b1
            else if b0 =? 237 then in_range 128 159 b1
            else is_cont b1)
        then option_map
               (cons ((b0 - 224) * 4096 + cont_bits b1 * 64 + cont_bits b2))
               (utf8_decode t2)
        else None
      | _ => None
      end
    else if in_range 240 244 b0 then
      match t0 with
      | b1 :: b2 :: b3 :: t3 =>
        if is_cont b2 && is_cont b3 &&
           (if b0 =? 240 then in_range 144 191 b1
            else if b0 =? 244 then in_range 128 143 b1
            else is_cont b1)
        then option_map
               (cons ((b0 - 240) * 262144 + cont_bits b1 * 4096
                      + cont_bits b2 * 64 + cont_bits b3))
               (utf8_decode t3)
        else None
      | _ => None
      end
    else None
  end.

Fixpoint bytes_of_string (s : string) : list N :=
  match s with
  | EmptyString => []
  | String a s' => N_of_ascii a :: bytes_of_string s'
  end.

(** String literals of the source, written as in the source file (which is
    UTF-8 encoded) and read as code points. *)
Definition u (s : string) : str :=
  match utf8_decode (bytes_of_string s) with
  | Some t => t
  | None => []
  end.

Definition str_eqb (a b : str) : bool :=
  if list_eq_dec N.eq_dec a b then true else false.

(** ** Character classes *)

(** [str.isspace] and the [\s] of [re] on [str] patterns: CPython's
    [_PyUnicode_IsWhitespace]. *)
Definition is_space (c : N) : bool :=
  in_range 9 13 c || in_range 28 32 c || (c =? 133) || (c =? 160)
  || (c =? 5760) || in_range 8192 8202 c || (c =? 8232) || (c =? 8233)
  || (c =? 8239) || (c =? 8287) || (c =? 12288).

(** The class [[가-힣]]: U+AC00 .. U+D7A3, the Hangul syllables. *)
Definition is_hangul (c : N) : bool := in_range 44032 55203 c.

Definition is_ascii_digit (c : N) : bool := in_range 48 57 c.
Definition is_ascii_alpha (c : N) : bool := in_range 65 90 c || in_range 97 122 c.

Definition ch_rparen : N := 41.
Definition ch_minus : N := 45.
Definition ch_dot : N := 46.
Definition ch_slash : N := 47.
Definition ch_underscore : N := 95.
Definition ch_space : N := 32.
Definition ch_newline : N := 10.
Definition ch_jo : N := 51312.     (* 조 *)
Definition ch_wol : N := 50900.    (* 월 *)
Definition ch_il : N := 51068.     (* 일 *)

(** Value of a decimal digit. *)
Inductive digit := D0 | D1 | D2 | D3 | D4 | D5 | D6 | D7 | D8 | D9.

Definition digit_to_N (d : digit) : N :=
  match d with
  | D0 => 0 | D1 => 1 | D2 => 2 | D3 => 3 | D4 => 4
  | D5 => 5 | D6 => 6 | D7 => 7 | D8 => 8 | D9 => 9
  end.

Definition digit_of_N (n : N) : digit :=
  match n with
  | 0 => D0 | 1 => D1 | 2 => D2 | 3 => D3 | 4 => D4
  | 5 => D5 | 6 => D6 | 7 => D7 | 8 => D8 | _ => D9
  end.

(** ** Regular expressions: the fragment of [re] the source uses *)

Inductive regex :=
| Chr (p : N -> bool)                        (* one character of a class *)
| Seq (r1 r2 : regex)                        (* r1 r2 *)
| Alt (r1 r2 : regex)                        (* r1|r2, r1 tried first *)
| Rep (lo : nat) (hi : option nat) (r : regex) (* greedy r{lo,hi} *)
| Grp (i : nat) (r : regex).                 (* capturing group number i *)

Definition Lit (c : N) : regex := Chr (N.eqb c).
Definition Star (r : regex) : regex := Rep 0 None r.
Definition Plus (r : regex) : regex := Rep 1 None r.
Definition Opt (r : regex) : regex := Rep 0 (Some 1%nat) r.
Definition Times (n : nat) (r : regex) : regex := Rep n (Some n) r.

Declare Scope regex_scope.
Delimit Scope regex_scope with re.
Bind Scope regex_scope with regex.
Notation "r1 +> r2" := (Seq r1 r2) (at level 61, right associativity) : regex_scope.
Notation "r1 </> r2" := (Alt r1 r2) (at level 62, right associativity) : regex_scope.

(** Captured groups, most recent first. *)
Definition caps := list (nat * str).

Fixpoint group (i : nat) (c : caps) : option str :=
  match c with
  | [] => None
  | (j, s) :: c' => if Nat.eqb i j then Some s else group i c'
  end.

Definition mres : Type := str * caps.   (* text left after the match, groups *)
Definition cont : Type := str -> caps -> option mres.

(** The text consumed between two positions of the same string. *)
Definition consumed (s s' : str) : str :=
  firstn (length s - length s') s.

(** Greedy repetition.  [n] bounds the number of iterations; every
    iteration must consume at least one character (all repeated bodies in
    the source do), so [S (length s)] is never exhausted. *)
Fixpoint rep_loop (body : str -> caps -> cont -> option mres)
         (n : nat) (lo : nat) (hi : option nat)
         (s : str) (c : caps) (k : cont) : option mres :=
  match n with
  | O => None
  | S n' =>
    let stop := match lo with O => k s c | S _ => None end in
    match hi with
    | Some O => stop
    | _ =>
      match body s c (fun s' c' =>
                        if (length s' <? length s)%nat
                        then rep_loop body n' (Nat.pred lo) (option_map Nat.pred hi) s' c' k
                        else None) with
      | Some a => Some a
      | None => stop
      end
    end
  end.

(** Backtracking matcher in continuation-passing style: alternatives are
    tried left to right, repetitions longest first, and the first complete
    success is the result, as in [re]. *)
Fixpoint rmatch (r : regex) : str -> caps -> cont -> option mres :=
  match r with
  | Chr p => fun s c k =>
      match s with
      | x :: s' => if p x then k s' c else None
      | [] => None
      end
  | Seq r1 r2 => fun s c k => rmatch r1 s c (fun s' c' => rmatch r2 s' c' k)
  | Alt r1 r2 => fun s c k =>
      match rmatch r1 s c k with
      | Some a => Some a
      | None => rmatch r2 s c k
      end
  | Rep lo hi r1 => fun s c k => rep_loop (rmatch r1) (S (length s)) lo hi s c k
  | Grp i r1 => fun s c k =>
      rmatch r1 s c (fun s' c' => k s' ((i, consumed s s') :: c'))
  end.

Definition accept_any : cont := fun s c => Some (s, c).
Definition accept_end : cont :=
  fun s c => match s with [] => Some (s, c) | _ => None end.

(** [re.match]: a match anchored at the start. *)
Definition re_match (r : regex) (s : str) : option mres := rmatch r s [] accept_any.

(** [re.fullmatch]. *)
Definition re_fullmatch (r : regex) (s : str) : bool :=
  match rmatch r s [] accept_end with Some _ => true | None => false end.

(** A match object: the text from the start of the match, the text after
    it, and the groups. *)
Record match_obj := MatchObj { m_from : str; m_rest : str; m_caps : caps }.

(** [re.search]: the leftmost position at which a match exists. *)
Fixpoint re_search (r : regex) (s : str) : option match_obj :=
  match re_match r s with
  | Some (rest, c) => Some (MatchObj s rest c)
  | None =>
    match s with
    | [] => None
    | _ :: s' => re_search r s'
    end
  end.

Definition m_group0 (m : match_obj) : str := consumed (m_from m) (m_rest m).
Definition m_group (i : nat) (m : match_obj) : option str := group i (m_caps m).

(** [pattern.split(s)] for a pattern without groups: the pieces between
    successive non-empty matches. *)
Fixpoint re_split_loop (fuel : nat) (r : regex) (s cur : str) : list str :=
  match fuel with
  | O => [rev cur ++ s]
  | S f =>
    match s with
    | [] => [rev cur]
    | x :: s' =>
      match re_match r s with
      | Some (rest, _) =>
        if (length rest <? length s)%nat
        then rev cur :: re_split_loop f r rest []
        else re_split_loop f r s' (x :: cur)
      | None => re_split_loop f r s' (x :: cur)
      end
    end
  end.

Definition re_split (r : regex) (s : str) : list str :=
  re_split_loop (S (length s)) r s [].

(** [re.sub(r, repl, s)] for a pattern that cannot match the empty string
    and a replacement without group references. *)
Fixpoint re_sub_loop (fuel : nat) (r : regex) (repl s : str) : str :=
  match fuel with
  | O => s
  | S f =>
    match s with
    | [] => []
    | x :: s' =>
      match re_match r s with
      | Some (rest, _) =>
        if (length rest <? length s)%nat
        then repl ++ re_sub_loop f r repl rest
        else x :: re_sub_loop f r repl s'
      | None => x :: re_sub_loop f r repl s'
      end
    end
  end.

Definition re_sub (r : regex) (repl s : str) : str :=
  re_sub_loop (S (length s)) r repl s.

(** ** Python built-ins used by the script *)

Fixpoint lstrip (s : str) : str :=
  match s with
  | x :: s' => if is_space x then lstrip s' else s
  | [] => []
  end.

Definition rstrip (s : str) : str := rev (lstrip (rev s)).

(** [s.strip()] *)
Definition strip (s : str) : str := rstrip (lstrip s).

(** [s.split(sep)] for a one-character separator. *)
Fixpoint split_char_loop (sep : N) (s cur : str) : list str :=
  match s with
  | [] => [rev cur]
  | x :: s' =>
    if x =? sep then rev cur :: split_char_loop sep s' []
    else split_char_loop sep s' (x :: cur)
  end.

Definition split_char (sep : N) (s : str) : list str := split_char_loop sep s [].

(** [s.replace(a, b)] for one-character [a] and [b]. *)
Definition replace_char (a b : N) (s : str) : str :=
  map (fun x => if x =? a then b else x) s.

(** [sep.join(l)] *)
Fixpoint join (sep : str) (l : list str) : str :=
  match l with
  | [] => []
  | [x] => x
  | x :: l' => x ++ sep ++ join sep l'
  end.

(** Comparison of [str] values: lexicographic on code points. *)
Fixpoint str_leb (a b : str) : bool :=
  match a, b with
  | [], _ => true
  | _ :: _, [] => false
  | x :: a', y :: b' => if x <? y then true else if y <? x then false else str_leb a' b'
  end.

(** [sorted(l)]: a stable sort (insertion sort; the order of the result
    does not depend on the algorithm). *)
Section Sorted.
Variable A : Type.
Variable leb : A -> A -> bool.

Fixpoint insert_sorted (x : A) (l : list A) : list A :=
  match l with
  | [] => [x]
  | y :: l' => if leb y x then y :: insert_sorted x l' else x :: l
  end.

Definition py_sorted (l : list A) : list A :=
  fold_left (fun acc x => insert_sorted x acc) l [].
End Sorted.

(** [max(x :: xs, key=len)]: the first element of maximal length. *)
Definition max_by_len (x : str) (xs : list str) : str :=
  fold_left (fun best y => if (length best <? length y)%nat then y else best) xs x.

Definition is_empty (s : str) : bool :=
  match s with [] => true | _ => false end.

(** Exceptions: a computation either returns or raises. *)
Inductive exn :=
  ValueError | AttributeError | TypeError | KeyError | UnicodeDecodeError.

Inductive result (A : Type) :=
| Ok (a : A)
| Raise (e : exn).
Arguments Ok {A} a.
Arguments Raise {A} e.

Definition bind {A B} (x : result A) (f : A -> result B) : result B :=
  match x with
  | Ok a => f a
  | Raise e => Raise e
  end.

Notation "x <- e1 ;; e2" := (bind e1 (fun x => e2))
  (at level 100, e1 at next level, right associativity).

(** [x.attr] / [x.group(i)] where [x] may be [None]. *)
Definition not_none {A} (e : exn) (x : option A) : result A :=
  match x with
  | Some a => Ok a
  | None => Raise e
  end.

(** [try: ... except: return None] *)
Definition try_except_none {A} (x : result A) : option A :=
  match x with
  | Ok a => Some a
  | Raise _ => None
  end.

(** ** Dates ([datetime.date]) *)

Record date := Date { year : N; month : N; day : N }.

Definition is_leap (y : N) : bool :=
  (y mod 4 =? 0) && (negb (y mod 100 =? 0) || (y mod 400 =? 0)).

Definition days_in_month (y m : N) : N :=
  match m with
  | 2 => if is_leap y then 29 else 28
  | 4 | 6 | 9 | 11 => 30
  | _ => 31
  end.

(** The range check of the [date] constructor (MINYEAR = 1, MAXYEAR = 9999). *)
Definition valid_date (y m d : N) : bool :=
  in_range 1 9999 y && in_range 1 12 m && in_range 1 (days_in_month y m) d.

Definition make_date (y m d : N) : result date :=
  if valid_date y m d then Ok (Date y m d) else Raise ValueError.

Definition date_eqb (a b : date) : bool :=
  (year a =? year b) && (month a =? month b) && (day a =? day b).

Definition date_leb (a b : date) : bool :=
  if year a <? year b then true else if year b <? year a then false
  else if month a <? month b then true else if month b <? month a then false
  else day a <=? day b.

(** Decimal digits of a number, most significant first. *)
Fixpoint dec_str_loop (fuel : nat) (n : N) (acc : str) : str :=
  match fuel with
  | O => acc
  | S f =>
    let acc' := (48 + n mod 10) :: acc in
    if n <? 10 then acc' else dec_str_loop f (n / 10) acc'
  end.

Definition dec_str (n : N) : str := dec_str_loop (S (N.to_nat (N.log2 n))) n [].

(** Format specification [:0w] for a non-negative integer. *)
Definition zero_pad (w : nat) (n : N) : str :=
  let s := dec_str n in
  repeat 48 (w - length s) ++ s.

(** [str(d)] for a date: ISO format. *)
Definition date_str (d : date) : str :=
  zero_pad 4 (year d) ++ [ch_minus] ++ zero_pad 2 (month d) ++ [ch_minus]
  ++ zero_pad 2 (day d).

(** ** Dictionaries

    A Python [dict] keeps its keys in insertion order; assigning to a key
    that is present replaces the value in place. *)
Section Dict.
Variables K V : Type.
Variable eqb : K -> K -> bool.

Fixpoint dict_get (k : K) (d : list (K * V)) : option V :=
  match d with
  | [] => None
  | (k', v) :: d' => if eqb k k' then Some v else dict_get k d'
  end.

Fixpoint dict_set (k : K) (v : V) (d : list (K * V)) : list (K * V) :=
  match d with
  | [] => [(k, v)]
  | (k', v') :: d' =>
    if eqb k k' then (k', v) :: d' else (k', v') :: dict_set k v d'
  end.

Definition dict_keys (d : list (K * V)) : list K := map fst d.
Definition dict_values (d : list (K * V)) : list V := map snd d.

(** [s.add(x)] on a set kept as a duplicate-free list. *)
Definition set_add (x : K) (s : list K) : list K :=
  if existsb (eqb x) s then s else s ++ [x].
End Dict.

(** ** Data frames: the part of [pandas] the script uses *)

Inductive cell :=
| CStr (s : str)
| CInt (n : nat)
| CNaN.

Definition row := list (str * cell).

Record dataframe := DataFrame { columns : list str; records : list (list cell) }.

(** [pd.DataFrame(rows)] for a list of dicts: the columns are the keys in
    order of first appearance, a key missing from a row gives NaN. *)
Definition keys_union (rows : list row) : list str :=
  fold_left (fun cols r => fold_left (fun cols k => set_add str_eqb k cols)
                                     (dict_keys r) cols) rows [].

Definition pd_DataFrame (rows : list row) : dataframe :=
  let cols := keys_union rows in
  DataFrame cols
    (map (fun r => map (fun c => match dict_get str_eqb c r with
                                 | Some v => v
                                 | None => CNaN
                                 end) cols) rows).

(** [if col not in df.columns: df[col] = v] *)
Definition df_add_missing (df : dataframe) (col : str) (v : cell) : dataframe :=
  if existsb (str_eqb col) (columns df) then df
  else DataFrame (columns df ++ [col]) (map (fun r => r ++ [v]) (records df)).

Fixpoint lookup_all (labels : list str) (cols : list str) (rec : list cell)
  : option (list cell) :=
  match labels with
  | [] => Some []
  | l :: ls =>
    match dict_get str_eqb l (combine cols rec), lookup_all ls cols rec with
    | Some v, Some vs => Some (v :: vs)
    | _, _ => None
    end
  end.

Fixpoint select_records (labels cols : list str) (recs : list (list cell))
  : option (list (list cell)) :=
  match recs with
  | [] => Some []
  | r :: rs =>
    match lookup_all labels cols r, select_records labels cols rs with
    | Some v, Some vs => Some (v :: vs)
    | _, _ => None
    end
  end.

(** A character database that knows ASCII, the Hangul syllables and the
    whitespace characters only; used to run the functions on concrete
    inputs made of such characters. *)
Definition no_decimal : N -> option digit := fun _ => None.
Definition no_alnum : N -> bool := fun _ => false.

(** A character database that also knows the fullwidth digits U+FF10 ..
    U+FF19, which are decimal digits (category Nd) with the values 0 .. 9. *)
Definition fullwidth_decimal : N -> option digit :=
  fun c => if in_range 65296 65305 c then Some (digit_of_N (c - 65296))
           else None.

(** * The script *)

Section Script.

(** The Unicode character database outside ASCII, the Hangul syllables and
    whitespace is a parameter: [uni_decimal c] is the digit value of a
    character of category Nd, [uni_alnum c] tells the other alphanumeric
    characters ([str.isalnum]). *)
Variable uni_decimal : N -> option digit.
Variable uni_alnum : N -> bool.

Set Default Proof Using "Type".

Definition decimal_value (c : N) : option digit :=
  if c <? 128 then
    if is_ascii_digit c then Some (digit_of_N (c - 48)) else None
  else if is_hangul c || is_space c then None
  else uni_decimal c.

(** [\d] *)
Definition is_digit (c : N) : bool :=
  match decimal_value c with Some _ => true | None => false end.

Definition is_alnum (c : N) : bool :=
  if c <? 128 then is_ascii_digit c || is_ascii_alpha c
  else if is_hangul c then true
  else if is_space c then false
  else uni_alnum c || is_digit c.

(** [\w] *)
Definition is_word (c : N) : bool := is_alnum c || (c =? ch_underscore).

(** [int(s)] for the strings the script converts: optional surrounding
    whitespace and decimal digits. *)
Fixpoint digits_value (s : str) (acc : N) : result N :=
  match s with
  | [] => Ok acc
  | x :: s' =>
    match decimal_value x with
    | Some d => digits_value s' (10 * acc + digit_to_N d)
    | None => Raise ValueError
    end
  end.

Definition py_int (s : str) : result N :=
  match strip s with
  | [] => Raise ValueError
  | t => digits_value t 0
  end.

(** ** [datetime.strptime(s, "%Y-%m-%d").date()]

    [_strptime] turns the format into the regular expression
    [(?P<Y>\d\d\d\d)-(?P<m>1[0-2]|0[1-9]|[1-9])-(?P<d>3[0-1]|[1-2]\d|0[1-9]|[1-9]| [1-9])],
    applies it with [match], rejects unconverted trailing data, converts the
    groups with [int] and builds the date.  Groups Y, m, d are numbered
    1, 2, 3 here. *)
Definition re_Y : regex :=
  Grp 1 (Chr is_digit +> Chr is_digit +> Chr is_digit +> Chr is_digit).

Definition re_m : regex :=
  Grp 2 (Lit 49 +> Chr (in_range 48 50)
         </> Lit 48 +> Chr (in_range 49 57)
         </> Chr (in_range 49 57)).

Definition re_d : regex :=
  Grp 3 (Lit 51 +> Chr (in_range 48 49)
         </> Chr (in_range 49 50) +> Chr is_digit
         </> Lit 48 +> Chr (in_range 49 57)
         </> Chr (in_range 49 57)
         </> Lit 32 +> Chr (in_range 49 57)).

Definition strptime_regex : regex :=
  re_Y +> Lit ch_minus +> re_m +> Lit ch_minus +> re_d.

Definition strptime_Ymd (s : str) : result date :=
  match re_match strptime_regex s with
  | None => Raise ValueError                 (* does not match format *)
  | Some (_ :: _, _) => Raise ValueError     (* unconverted data remains *)
  | Some ([], c) =>
    ys <- not_none AttributeError (group 1 c) ;;
    ms <- not_none AttributeError (group 2 c) ;;
    ds <- not_none AttributeError (group 3 c) ;;
    y <- py_int ys ;;
    m <- py_int ms ;;
    d <- py_int ds ;;
    make_date y m d
  end.

(** ** Lines 14-16: [pattern] *)

(** [[\s/]] *)
Definition sep_char (c : N) : bool := is_space c || (c =? ch_slash).

(** [[\w가-힣/_]] *)
Definition name_char (c : N) : bool :=
  is_word c || is_hangul c || (c =? ch_slash) || (c =? ch_underscore).

Definition pattern : regex :=
  Plus (Chr is_digit) +> Lit ch_rparen +> Star (Chr is_space)
  +> Opt ((Plus (Chr is_digit) +> Lit ch_jo </> Plus (Chr is_hangul) +> Lit ch_jo)
          +> Star (Chr sep_char))
  +> Grp 1 (Plus (Chr name_char) +> Star (Chr sep_char +> Plus (Chr name_char))).

(** ** Lines 19-38: [normalize_name_to_core] *)

Definition blacklist : list str :=
  [u"하고랩스"; u"사부작사부작"; u"으랏차"; u"인스피레이션"; u"BGO"].

(** [\d+조] *)
Definition re_group_index : regex := Plus (Chr is_digit) +> Lit ch_jo.

(** [[가-힣]{2,3}] *)
Definition re_korean_name : regex := Rep 2 (Some 3%nat) (Chr is_hangul).

(** [[가-힣a-zA-Z0-9_]{4,}] *)
Definition id_char (c : N) : bool :=
  is_hangul c || in_range 97 122 c || in_range 65 90 c || in_range 48 57 c
  || (c =? ch_underscore).

Definition re_id_style : regex := Rep 4 None (Chr id_char).

Definition name_parts (name : str) : list str :=
  let parts := re_split (Chr sep_char) (strip name) in
  let parts := filter (fun p => negb (is_empty p)) parts in
  filter (fun p => negb (re_fullmatch re_group_index p)
                   && negb (existsb (str_eqb p) blacklist)) parts.

Definition normalize_name_to_core (name : str) : str :=
  let parts := name_parts name in
  let korean_parts := filter (re_fullmatch re_korean_name) parts in
  match korean_parts with
  | k0 :: ks => max_by_len k0 ks
  | [] =>
    let id_parts := filter (re_fullmatch re_id_style) parts in
    match id_parts with
    | _ :: _ => last id_parts []
    | [] => join (u" ") (py_sorted str_leb parts)
    end
  end.

(** ** Lines 41-54: [extract_names_from_text] *)

(** What the script shows to the user with [st.warning] and [st.error]. *)
Inductive message :=
| Warning (text : str)
| Error (text : str).

(** [\d+\)] *)
Definition re_numbering : regex := Plus (Chr is_digit) +> Lit ch_rparen.

(** [\s+] *)
Definition re_spaces : regex := Plus (Chr is_space).

(** One iteration of the loop over lines; the state is [names] and the
    warnings shown so far. *)
Definition extract_line (acc : list str * list message) (line : str)
  : list str * list message :=
  let '(names, log) := acc in
  let original_line := strip line in
  if is_empty original_line
     || negb (match re_search re_numbering original_line with
              | Some _ => true | None => false end)
  then (names, log)
  else
    match re_search pattern original_line with
    | Some m =>
      let name := strip (match m_group 1 m with Some g => g | None => [] end) in
      let name := re_sub re_spaces (u" ") name in
      (names ++ [name], log)
    | None =>
      (names, log ++ [Warning (u"❌ 이름 추출 실패: '" ++ original_line ++ u"'")])
    end.

Definition extract_names_from_text (text : str) : list str * list message :=
  fold_left extract_line (split_char ch_newline text) ([], []).

(** ** Lines 57-71: [extract_date_from_filename] *)

(** [[.-]] *)
Definition dot_or_minus (c : N) : bool := (c =? ch_dot) || (c =? ch_minus).

Definition date_pattern : regex :=
  Grp 1 (Times 4 (Chr is_digit) +> Opt (Chr dot_or_minus)
         +> Times 2 (Chr is_digit) +> Opt (Chr dot_or_minus)
         +> Times 2 (Chr is_digit)
         </> Rep 1 (Some 2%nat) (Chr is_digit) +> Lit ch_wol
             +> Star (Chr is_space)
             +> Rep 1 (Some 2%nat) (Chr is_digit) +> Lit ch_il
         </> Times 4 (Chr is_digit)).

Definition month_day_pattern : regex :=
  Grp 1 (Rep 1 (Some 2%nat) (Chr is_digit)) +> Lit ch_wol
  +> Star (Chr is_space)
  +> Grp 2 (Rep 1 (Some 2%nat) (Chr is_digit)) +> Lit ch_il.

(** The body of the [try] block, for the text of group 1. *)
Definition parse_raw_date (raw_date : str) : result date :=
  if existsb (N.eqb ch_wol) raw_date then
    m <- not_none AttributeError (re_search month_day_pattern raw_date) ;;
    g1 <- not_none TypeError (m_group 1 m) ;;
    g2 <- not_none TypeError (m_group 2 m) ;;
    mm <- py_int g1 ;;
    dd <- py_int g2 ;;
    strptime_Ymd (u"2024-" ++ zero_pad 2 mm ++ u"-" ++ zero_pad 2 dd)
  else if re_fullmatch (Times 4 (Chr is_digit)) raw_date then
    strptime_Ymd (u"2024-" ++ firstn 2 raw_date ++ u"-" ++ skipn 2 raw_date)
  else
    strptime_Ymd (replace_char ch_dot ch_minus raw_date).

Definition extract_date_from_filename (filename : str) : option date :=
  match re_search date_pattern filename with
  | Some m =>
    try_except_none
      (raw_date <- not_none TypeError (m_group 1 m) ;; parse_raw_date raw_date)
  | None => None
  end.

(** ** Lines 74-112: the main block *)

Record uploaded_file := UploadedFile { file_name : str; file_bytes : list N }.

(** [participation], [all_dates] and what has been shown to the user. *)
Record state := State {
  participation : list (str * list (date * str));
  all_dates : list date;
  shown : list message
}.

Definition init_state : state := State [] [] [].

(** [participation[name][date] = 'O'] on a [defaultdict(dict)]. *)
Definition mark (p : list (str * list (date * str))) (name : str) (d : date)
  : list (str * list (date * str)) :=
  let inner := match dict_get str_eqb name p with
               | Some i => i
               | None => []
               end in
  dict_set str_eqb name (dict_set date_eqb d (u"O") inner) p.

(** One iteration of the loop over [uploaded_files]. *)
Definition process_file (st : state) (file : uploaded_file) : result state :=
  match extract_date_from_filename (file_name file) with
  | None =>
    Ok (State (participation st) (all_dates st)
              (shown st ++ [Error (u"⚠️ 날짜 인식 실패: " ++ file_name file)]))
  | Some d =>
    let dates := set_add date_eqb d (all_dates st) in
    content <- not_none UnicodeDecodeError (utf8_decode (file_bytes file)) ;;
    let '(raw_names, warnings) := extract_names_from_text content in
    Ok (State (fold_left (fun p n => mark p (normalize_name_to_core n) d)
                         raw_names (participation st))
              dates
              (shown st ++ warnings))
  end.

Fixpoint process_files (st : state) (files : list uploaded_file) : result state :=
  match files with
  | [] => Ok st
  | f :: fs => st' <- process_file st f ;; process_files st' fs
  end.

Definition col_name : str := u"이름".
Definition col_total : str := u"총 횟수".

(** Lines 94-99: the row of one participant. *)
Definition build_row (sorted_dates : list date) (entry : str * list (date * str))
  : row :=
  let '(name, dates) := entry in
  let r := [(col_name, CStr name)] in
  let r := fold_left
             (fun r d => dict_set str_eqb (date_str d)
                           (CStr (match dict_get date_eqb d dates with
                                  | Some v => v
                                  | None => u"X"
                                  end)) r)
             sorted_dates r in
  dict_set str_eqb col_total
           (CInt (count_occ (list_eq_dec N.eq_dec) (dict_values dates) (u"O"))) r.

Definition report_labels (sorted_dates : list date) : list str :=
  [col_name] ++ map date_str sorted_dates ++ [col_total].

(** Lines 92-112: from the aggregate to the table. *)
Definition build_report (st : state) : result dataframe :=
  let sorted_dates := py_sorted date_leb (all_dates st) in
  let rows := map (build_row sorted_dates) (participation st) in
  let df := pd_DataFrame rows in
  let df := df_add_missing df col_name (CStr []) in
  let df := df_add_missing df col_total (CStr []) in
  let df := fold_left (fun df d => df_add_missing df (date_str d) (CStr (u"X")))
                      sorted_dates df in
  let labels := report_labels sorted_dates in
  recs <- not_none KeyError (select_records labels (columns df) (records df)) ;;
  Ok (DataFrame labels recs).

Inductive outcome :=
| NoReport                                     (* nothing uploaded *)
| Aborted (e : exn)                            (* an uncaught exception *)
| Report (df : dataframe) (log : list message).

Definition main (uploaded_files : list uploaded_file) : outcome :=
  match uploaded_files with
  | [] => NoReport
  | _ =>
    match (st <- process_files init_state uploaded_files ;;
           df <- build_report st ;;
           Ok (df, shown st)) with
    | Ok (df, log) => Report df log
    | Raise e => Aborted e
    end
  end.

(** * Vocabulary of the specification *)

(** Greedy repetition of a character class, without the iteration bound:
    the candidates are tried from the longest run down to [lo]. *)
Fixpoint rep_chr (p : N -> bool) (lo : nat) (hi : option nat)
         (s : str) (c : caps) (k : cont) : option mres :=
  let stop := match lo with O => k s c | S _ => None end in
  match hi with
  | Some O => stop
  | _ =>
    match s with
    | x :: s' =>
      if p x then
        match rep_chr p (Nat.pred lo) (option_map Nat.pred hi) s' c k with
        | Some a => Some a
        | None => stop
        end
      else stop
    | [] => stop
    end
  end.

(** The maximal runs of characters outside [p]: "split on whitespace or
    slash and drop the empty tokens". *)
Fixpoint fields_loop (p : N -> bool) (s cur : str) : list str :=
  match s with
  | [] => if is_empty cur then [] else [rev cur]
  | x :: s' =>
    if p x then
      if is_empty cur then fields_loop p s' [] else rev cur :: fields_loop p s' []
    else fields_loop p s' (x :: cur)
  end.

Definition tokens (name : str) : list str := fields_loop sep_char name [].

(** "<digits>조": one or more decimal digits followed by 조. *)
Fixpoint digits_then_jo (s : str) : bool :=
  match s with
  | [] => false
  | [x] => x =? ch_jo
  | x :: s' => is_digit x && digits_then_jo s'
  end.

Definition is_group_label (p : str) : bool :=
  match p with
  | x :: (_ :: _) as s' => is_digit x && digits_then_jo s'
  | _ => false
  end.

Definition in_blacklist (p : str) : bool := existsb (str_eqb p) blacklist.

(** The tokens that survive the filter of step 2. *)
Definition surviving_tokens (name : str) : list str :=
  filter (fun p => negb (is_group_label p) && negb (in_blacklist p)) (tokens name).

(** "Purely Korean script, 2 to 3 characters long". *)
Definition korean_token (p : str) : bool :=
  forallb is_hangul p && (2 <=? length p)%nat && (length p <=? 3)%nat.

(** "Length at least 4, only Korean/Latin/digit/underscore characters". *)
Definition id_token (p : str) : bool :=
  forallb id_char p && (4 <=? length p)%nat.

(** [name] is marked present on [d] in a participation record. *)
Definition present (p : list (str * list (date * str))) (name : str) (d : date)
  : bool :=
  match dict_get str_eqb name p with
  | Some inner =>
    match dict_get date_eqb d inner with
    | Some v => str_eqb v (u"O")
    | None => false
    end
  | None => false
  end.

(** The invariant of the aggregation loop: keys are unique (they are dict
    keys and set members), dates are calendar dates, every stored value is
    'O' and every stored date is in [all_dates]. *)
Definition marks_ok (dates : list date) (inner : list (date * str)) : Prop :=
  NoDup (dict_keys inner) /\
  forall d v, In (d, v) inner -> v = u"O" /\ In d dates.

Definition well_formed (st : state) : Prop :=
  NoDup (dict_keys (participation st)) /\
  NoDup (all_dates st) /\
  (forall d, In d (all_dates st) -> valid_date (year d) (month d) (day d) = true) /\
  (forall name inner, In (name, inner) (participation st) ->
                      marks_ok (all_dates st) inner).

(** The presence marker of a date in the dict of one participant. *)
Definition marker (dates : list (date * str)) (d : date) : str :=
  match dict_get date_eqb d dates with
  | Some v => v
  | None => u"X"
  end.

Definition total_of (dates : list (date * str)) : nat :=
  count_occ (list_eq_dec N.eq_dec) (dict_values dates) (u"O").

(** The record of a participant in the report. *)
Definition report_record (sorted_dates : list date)
           (entry : str * list (date * str)) : list cell :=
  [CStr (fst entry)]
  ++ map (fun d => CStr (marker (snd entry) d)) sorted_dates
  ++ [CInt (total_of (snd entry))].

Definition is_O (c : cell) : bool :=
  match c with
  | CStr s => str_eqb s (u"O")
  | _ => false
  end.

(** Number of 'O' cells in a list of cells. *)
Definition count_O (cells : list cell) : nat := length (filter is_O cells).

(** The files of a batch whose name gives a date. *)
Definition dated (files : list uploaded_file) (d : date) : Prop :=
  exists f, In f files /\ extract_date_from_filename (file_name f) = Some d.

(** Inputs used to run the script on concrete batches. *)
Definition example_files : list uploaded_file :=
  [ UploadedFile (u"0510.txt") (bytes_of_string "no entries here");
    UploadedFile (u"0509출석.txt") (bytes_of_string "출석
1) 홍길동
2) 하고랩스 김민수
3) 1조 홍길동");
    UploadedFile (u"notes.txt") (bytes_of_string "1) 홍길동") ].

(** Splitting at every character of a class. *)
Fixpoint split_pred_loop (p : N -> bool) (s cur : str) : list str :=
  match s with
  | [] => [rev cur]
  | x :: s' =>
    if p x then rev cur :: split_pred_loop p s' []
    else split_pred_loop p s' (x :: cur)
  end.

Definition le_opt (n : nat) (hi : option nat) : bool :=
  match hi with
  | Some h => (n <=? h)%nat
  | None => true
  end.

Definition jo_end : cont := fun s c => rmatch (Lit ch_jo) s c accept_end.

Definition date_ok (d : date) : Prop :=
  valid_date (year d) (month d) (day d) = true.

Definition mark_all (d : date) (raw_names : list str)
           (p : list (str * list (date * str))) :=
  fold_left (fun p n => mark p (normalize_name_to_core n) d) raw_names p.

Definition row_of (sorted_dates : list date) (entry : str * list (date * str))
  : row :=
  [(col_name, CStr (fst entry))]
  ++ map (fun d => (date_str d, CStr (marker (snd entry) d))) sorted_dates
  ++ [(col_total, CInt (total_of (snd entry)))].

Definition cell_at (r : row) (c : str) : cell :=
  match dict_get str_eqb c r with
  | Some v => v
  | None => CNaN
  end.

Unset Implicit Arguments.

(** The language of a regular expression: the texts an attempt can
    consume.  A repetition consumes at least one character per iteration,
    as [rep_loop] requires. *)
Inductive lang : regex -> str -> Prop :=
| lang_chr p x : p x = true -> lang (Chr p) [x]
| lang_seq r1 r2 s1 s2 : lang r1 s1 -> lang r2 s2 -> lang (Seq r1 r2) (s1 ++ s2)
| lang_alt_l r1 r2 s : lang r1 s -> lang (Alt r1 r2) s
| lang_alt_r r1 r2 s : lang r2 s -> lang (Alt r1 r2) s
| lang_rep_stop hi r : lang (Rep 0 hi r) []
| lang_rep_more lo hi r s1 s2 :
    hi <> Some O -> lang r s1 ->
    lang (Rep (Nat.pred lo) (option_map Nat.pred hi) r) s2 ->
    lang (Rep lo hi r) (s1 ++ s2)
| lang_grp i r s : lang r s -> lang (Grp i r) s.

(** The number written by a string of decimal digits ([int]). *)
Definition digit_val (c : N) : N :=
  match decimal_value c with
  | Some d => digit_to_N d
  | None => 0
  end.

Definition number (s : str) : N :=
  fold_left (fun acc c => 10 * acc + digit_val c) s 0.

Definition month_full (m1 m2 : N) : bool :=
  (49 =? m1) && in_range 48 50 m2 || (48 =? m1) && in_range 49 57 m2.

Definition day_full (d1 d2 : N) : bool :=
  (51 =? d1) && in_range 48 49 d2 || in_range 49 50 d1 && is_digit d2
  || (48 =? d1) && in_range 49 57 d2.

Definition stops (p : N -> bool) (rest : str) : Prop :=
  match rest with
  | x :: _ => p x = false
  | [] => True
  end.

(** One or two digits. *)
Definition digits12 (s : str) : bool :=
  forallb is_digit s && ((length s =? 1)%nat || (length s =? 2)%nat).

(** What a text matched by the date pattern says when read literally:
    year, month and day. *)
Inductive denotes : str -> N -> N -> N -> Prop :=
| denotes_ymd y1 y2 y3 y4 (s1 s2 : str) m1 m2 d1 d2 :
    forallb is_digit [y1; y2; y3; y4; m1; m2; d1; d2] = true ->
    (length s1 <= 1)%nat -> (length s2 <= 1)%nat ->
    forallb dot_or_minus (s1 ++ s2) = true ->
    denotes ([y1; y2; y3; y4] ++ s1 ++ [m1; m2] ++ s2 ++ [d1; d2])
            (number [y1; y2; y3; y4]) (number [m1; m2]) (number [d1; d2])
| denotes_month_day M ws D :
    digits12 M = true -> forallb is_space ws = true -> digits12 D = true ->
    denotes (M ++ [ch_wol] ++ ws ++ D ++ [ch_il]) 2024 (number M) (number D)
| denotes_mmdd c1 c2 c3 c4 :
    forallb is_digit [c1; c2; c3; c4] = true ->
    denotes [c1; c2; c3; c4] 2024 (number [c1; c2]) (number [c3; c4]).

(** The loop does not look at what has been shown. *)
Definition same_aggregate (a b : state) : Prop :=
  participation a = participation b /\ all_dates a = all_dates b.

Definition date_error (f : uploaded_file) : message :=
  Error (u"⚠️ 날짜 인식 실패: " ++ file_name f).

(** Lines 27-38 of [normalize_name_to_core]: the choice among the parts
    that are left after the two filters. *)
Definition select_core (parts : list str) : str :=
  match filter korean_token parts with
  | k0 :: ks => max_by_len k0 ks
  | [] =>
    match filter id_token parts with
    | _ :: _ => last (filter id_token parts) []
    | [] => join (u" ") (py_sorted str_leb parts)
    end
  end.

(** A token: a non-empty text without whitespace and without slash. *)
Definition is_token (t : str) : bool :=
  negb (is_empty t) && forallb (fun c => negb (sep_char c)) t.

(** The second filter (line 25). *)
Definition survives (p : str) : bool :=
  negb (is_group_label p) && negb (in_blacklist p).


(** Group 1 of [pattern]: the name. *)
Definition name_group : regex :=
  Plus (Chr name_char) +> Star (Chr sep_char +> Plus (Chr name_char)).

(** What may follow a name character inside the name group: name
    characters, and single whitespace characters each followed by a name
    character. *)
Fixpoint spaced (s : str) : bool :=
  match s with
  | [] => true
  | x :: t =>
    (name_char x
     || is_space x && match t with y :: _ => name_char y | [] => false end)
    && spaced t
  end.

(** No two adjacent whitespace characters. *)
Fixpoint single_spaces (s : str) : bool :=
  match s with
  | [] => true
  | x :: t =>
    (negb (is_space x)
     || match t with y :: _ => negb (is_space y) | [] => true end)
    && single_spaces t
  end.

(** A whitespace character becomes a space. *)
Definition squash (c : N) : N := if is_space c then ch_space else c.


(** The text after a four-digit code does not continue it into a longer
    date: it starts neither with a digit nor with a dot or hyphen followed
    by a digit. *)
Definition code_ends (post : str) : bool :=
  match post with
  | [] => true
  | x :: t =>
    negb (is_digit x)
    && negb (dot_or_minus x && match t with y :: _ => is_digit y | [] => false end)
  end.


(** A file whose name gives a date and whose content is not UTF-8. *)
Definition undecodable (f : uploaded_file) : Prop :=
  extract_date_from_filename (file_name f) <> None /\
  utf8_decode (file_bytes f) = None.

(** A file of the batch, dated [d], lists a raw name whose canonical name
    is [name]. *)
Definition attended (files : list uploaded_file) (name : str) (d : date)
  : Prop :=
  exists f content raw,
    In f files /\
    extract_date_from_filename (file_name f) = Some d /\
    utf8_decode (file_bytes f) = Some content /\
    In raw (fst (extract_names_from_text content)) /\
    normalize_name_to_core raw = name.


(** Batches used to run the script: one without any date in the file
    names (the second file is not even text), and one with a dated file
    that is not UTF-8. *)
Definition undated_files : list uploaded_file :=
  [ UploadedFile (u"notes.txt") (bytes_of_string "1) 홍길동");
    UploadedFile (u"photo.txt") [255; 216; 255] ].

Definition broken_files : list uploaded_file :=
  [ UploadedFile (u"notes.txt") [255; 216; 255];
    UploadedFile (u"0509.txt") [255; 216; 255] ].

Set Implicit Arguments.

(** * The matcher on the patterns of the script *)

Lemma rep_loop_chr p n lo hi s c k :
  (length s < n)%nat ->
  rep_loop (rmatch (Chr p)) n lo hi s c k = rep_chr p lo hi s c k.
Proof.
  revert lo hi s c. induction n as [|n IH]; intros lo hi s c Hn; [lia|].
  destruct s as [|x s]; simpl.
  - destruct hi as [[|h]|]; reflexivity.
  - simpl in Hn.
    assert (Hlt : (length s <? S (length s))%nat = true)
      by (apply Nat.ltb_lt; lia).
    destruct hi as [[|h]|]; try reflexivity;
      destruct (p x); try reflexivity; rewrite Hlt, IH by lia; reflexivity.
Qed.

Lemma rmatch_rep_chr p lo hi s c k :
  rmatch (Rep lo hi (Chr p)) s c k = rep_chr p lo hi s c k.
Proof.
  change (rmatch (Rep lo hi (Chr p)) s c k)
    with (rep_loop (rmatch (Chr p)) (S (length s)) lo hi s c k).
  apply rep_loop_chr. lia.
Qed.

Lemma rep_chr_end p lo hi s c :
  rep_chr p lo hi s c accept_end =
  if forallb p s && (lo <=? length s)%nat && le_opt (length s) hi
  then Some ([], c) else None.
Proof.
  revert lo hi. induction s as [|x s IH]; intros lo hi.
  - destruct lo, hi as [[|h]|]; reflexivity.
  - cbn [rep_chr forallb length].
    destruct hi as [[|h]|].
    + destruct lo; cbn; rewrite ?andb_false_r; reflexivity.
    + destruct (p x); cbn [andb].
      * rewrite IH. cbn [option_map Nat.pred le_opt].
        replace (Nat.pred lo <=? length s)%nat with (lo <=? S (length s))%nat
          by (destruct lo; reflexivity).
        change (S (length s) <=? S h)%nat with (length s <=? h)%nat.
        destruct (forallb p s && (lo <=? S (length s))%nat && (length s <=? h)%nat);
          [reflexivity | destruct lo; reflexivity].
      * destruct lo; reflexivity.
    + destruct (p x); cbn [andb].
      * rewrite IH. cbn [option_map Nat.pred le_opt].
        replace (Nat.pred lo <=? length s)%nat with (lo <=? S (length s))%nat
          by (destruct lo; reflexivity).
        destruct (forallb p s && (lo <=? S (length s))%nat && true);
          [reflexivity | destruct lo; reflexivity].
      * destruct lo; reflexivity.
Qed.

Lemma fullmatch_rep_chr p lo hi s :
  re_fullmatch (Rep lo hi (Chr p)) s =
  forallb p s && (lo <=? length s)%nat && le_opt (length s) hi.
Proof.
  unfold re_fullmatch. rewrite rmatch_rep_chr, rep_chr_end.
  destruct (forallb p s && (lo <=? length s)%nat && le_opt (length s) hi);
    reflexivity.
Qed.

Lemma fullmatch_korean_name p : re_fullmatch re_korean_name p = korean_token p.
Proof. apply fullmatch_rep_chr. Qed.

Lemma fullmatch_id_style p : re_fullmatch re_id_style p = id_token p.
Proof.
  unfold re_id_style, id_token. rewrite fullmatch_rep_chr.
  cbn [le_opt]. apply andb_true_r.
Qed.

Lemma jo_end_spec x s c :
  jo_end (x :: s) c = if (x =? ch_jo) && is_empty s then Some ([], c) else None.
Proof.
  unfold jo_end, Lit. cbn [rmatch]. rewrite (N.eqb_sym ch_jo x).
  destruct (x =? ch_jo); [|reflexivity]. destruct s; reflexivity.
Qed.

Lemma rep_digits_jo_0 s c :
  rep_chr is_digit 0 None s c jo_end =
  if digits_then_jo s then Some ([], c) else None.
Proof.
  induction s as [|x s IH]; [reflexivity|].
  cbn [rep_chr option_map Nat.pred]. rewrite IH, jo_end_spec.
  destruct s as [|y s].
  - cbn. rewrite andb_true_r. destruct (is_digit x), (x =? ch_jo); reflexivity.
  - change (digits_then_jo (x :: y :: s))
      with (is_digit x && digits_then_jo (y :: s)).
    cbn [is_empty]. rewrite andb_false_r.
    destruct (is_digit x), (digits_then_jo (y :: s)); reflexivity.
Qed.

Lemma rep_digits_jo_1 s c :
  rep_chr is_digit 1 None s c jo_end =
  if is_group_label s then Some ([], c) else None.
Proof.
  destruct s as [|x s]; [reflexivity|].
  cbn [rep_chr option_map Nat.pred]. rewrite rep_digits_jo_0.
  destruct s as [|y s].
  - cbn. destruct (is_digit x); reflexivity.
  - cbn [is_group_label].
    destruct (is_digit x), (digits_then_jo (y :: s)); reflexivity.
Qed.

Lemma fullmatch_group_index p : re_fullmatch re_group_index p = is_group_label p.
Proof.
  unfold re_fullmatch, re_group_index, Plus.
  change (rmatch (Rep 1 None (Chr is_digit) +> Lit ch_jo) p [] accept_end)
    with (rmatch (Rep 1 None (Chr is_digit)) p [] jo_end).
  rewrite rmatch_rep_chr.
  rewrite rep_digits_jo_1. destruct (is_group_label p); reflexivity.
Qed.

(** [re.split] with a one-character class, [strip] and the tokens. *)

Lemma re_split_loop_chr p fuel s cur :
  (length s < fuel)%nat ->
  re_split_loop fuel (Chr p) s cur = split_pred_loop p s cur.
Proof.
  revert s cur. induction fuel as [|f IH]; intros s cur Hf; [lia|].
  destruct s as [|x s]; [reflexivity|]. simpl in Hf.
  cbn [re_split_loop split_pred_loop]. unfold re_match, accept_any. cbn [rmatch].
  destruct (p x).
  - replace (length s <? length (x :: s))%nat with true
      by (symmetry; apply Nat.ltb_lt; simpl; lia).
    rewrite IH by lia. reflexivity.
  - apply IH. lia.
Qed.

Lemma is_empty_rev (s : str) : is_empty (rev s) = is_empty s.
Proof.
  destruct s as [|x s]; [reflexivity|]. simpl.
  destruct (rev s); reflexivity.
Qed.

Lemma filter_split_pred p s cur :
  filter (fun t => negb (is_empty t)) (split_pred_loop p s cur)
  = fields_loop p s cur.
Proof.
  revert cur. induction s as [|x s IH]; intros cur.
  - cbn. rewrite is_empty_rev. destruct (is_empty cur); reflexivity.
  - cbn [split_pred_loop fields_loop]. destruct (p x).
    + cbn [filter]. rewrite is_empty_rev, IH. destruct (is_empty cur); reflexivity.
    + apply IH.
Qed.

Lemma fields_spaces p ws cur :
  (forall x, is_space x = true -> p x = true) ->
  forallb is_space ws = true ->
  fields_loop p ws cur = if is_empty cur then [] else [rev cur].
Proof.
  intros Hp. revert cur. induction ws as [|x ws IH]; intros cur Hws; [reflexivity|].
  cbn in Hws. apply andb_true_iff in Hws as [Hx Hws].
  cbn [fields_loop]. rewrite (Hp x Hx), (IH [] Hws).
  destruct cur; reflexivity.
Qed.

Lemma fields_app_spaces p s ws cur :
  (forall x, is_space x = true -> p x = true) ->
  forallb is_space ws = true ->
  fields_loop p (s ++ ws) cur = fields_loop p s cur.
Proof.
  intros Hp Hws. revert cur. induction s as [|x s IH]; intros cur.
  - cbn [app fields_loop]. apply fields_spaces; assumption.
  - cbn [app fields_loop]. rewrite !IH. reflexivity.
Qed.

Lemma lstrip_decomp s :
  exists ws, s = ws ++ lstrip s /\ forallb is_space ws = true.
Proof.
  induction s as [|x s (ws & E & H)].
  - exists []. split; reflexivity.
  - cbn [lstrip]. destruct (is_space x) eqn:Hx.
    + exists (x :: ws). split; [cbn; congruence | cbn; rewrite Hx; exact H].
    + exists []. split; reflexivity.
Qed.

Lemma forallb_rev (A : Type) (f : A -> bool) l : forallb f (rev l) = forallb f l.
Proof.
  induction l as [|x l IH]; [reflexivity|].
  cbn. rewrite forallb_app, IH. cbn. rewrite andb_true_r. apply andb_comm.
Qed.

Lemma rstrip_decomp s :
  exists ws, s = rstrip s ++ ws /\ forallb is_space ws = true.
Proof.
  destruct (lstrip_decomp (rev s)) as (ws & E & H).
  exists (rev ws). split.
  - unfold rstrip. rewrite <- rev_app_distr, <- E, rev_involutive. reflexivity.
  - rewrite forallb_rev. exact H.
Qed.

Lemma fields_strip p s :
  (forall x, is_space x = true -> p x = true) ->
  fields_loop p (strip s) [] = fields_loop p s [].
Proof.
  intros Hp. unfold strip.
  destruct (rstrip_decomp (lstrip s)) as (ws & E & H).
  rewrite <- (fields_app_spaces p (rstrip (lstrip s)) ws [] Hp H), <- E.
  destruct (lstrip_decomp s) as (ws' & E' & H').
  rewrite E' at 2. clear E'.
  induction ws' as [|x ws' IH]; [reflexivity|].
  cbn in H'. apply andb_true_iff in H' as [Hx H'].
  cbn [app fields_loop is_empty]. rewrite (Hp x Hx). apply IH, H'.
Qed.

Lemma sep_char_space x : is_space x = true -> sep_char x = true.
Proof. unfold sep_char. intros ->. reflexivity. Qed.

(** The list [parts] of the function after its two filters is the list of
    surviving tokens of the specification. *)
Lemma name_parts_surviving name : name_parts name = surviving_tokens name.
Proof.
  unfold name_parts, surviving_tokens, tokens, re_split.
  rewrite re_split_loop_chr by lia.
  rewrite filter_split_pred, (fields_strip sep_char name sep_char_space).
  apply filter_ext. intros p.
  rewrite fullmatch_group_index. reflexivity.
Qed.

Lemma max_by_len_inv (xs : list str) : forall (l1 : list str) (best : str) (l2 : list str),
  (forall y : str, In y l1 -> (length y < length best)%nat) ->
  (forall y : str, In y l2 -> (length y <= length best)%nat) ->
  exists (l1' : list str) (r : str) (l2' : list str),
    l1 ++ best :: l2 ++ xs = l1' ++ r :: l2' /\
    (forall y : str, In y l1' -> (length y < length r)%nat) /\
    (forall y : str, In y l2' -> (length y <= length r)%nat) /\
    max_by_len best xs = r.
Proof.
  induction xs as [|x xs IH]; intros l1 best l2 H1 H2.
  - exists l1, best, l2. rewrite app_nil_r. auto.
  - unfold max_by_len. cbn [fold_left].
    destruct (length best <? length x)%nat eqn:Hlt.
    + apply Nat.ltb_lt in Hlt.
      destruct (IH (l1 ++ best :: l2) x []) as (l1' & r & l2' & E & A & B & C).
      * intros y Hy. apply in_app_or in Hy as [Hy | [<- | Hy]];
          [specialize (H1 y Hy) | | specialize (H2 y Hy)]; lia.
      * intros y [].
      * exists l1', r, l2'. repeat split; try assumption.
        rewrite <- E. rewrite <- app_assoc. reflexivity.
    + apply Nat.ltb_ge in Hlt.
      destruct (IH l1 best (l2 ++ [x])) as (l1' & r & l2' & E & A & B & C).
      * exact H1.
      * intros y Hy. apply in_app_or in Hy as [Hy | [<- | []]];
          [apply (H2 y Hy) | exact Hlt].
      * exists l1', r, l2'. repeat split; try assumption.
        rewrite <- E. rewrite <- app_assoc. reflexivity.
Qed.

Lemma korean_not_id p : korean_token p = true -> id_token p = false.
Proof.
  unfold korean_token, id_token. intros H.
  apply andb_true_iff in H as [_ H]. apply Nat.leb_le in H.
  apply andb_false_iff. right. apply Nat.leb_gt. lia.
Qed.

(** [sorted]: the result is ordered and a rearrangement of the input. *)
Section SortedFacts.
Variable A : Type.
Variable leb : A -> A -> bool.
Hypothesis leb_total : forall a b, leb a b = true \/ leb b a = true.

Let R (a b : A) : Prop := leb a b = true.

Lemma insert_sorted_perm x l : Permutation (x :: l) (insert_sorted leb x l).
Proof.
  induction l as [|y l IH]; cbn [insert_sorted]; [reflexivity|].
  destruct (leb y x); [|reflexivity].
  rewrite perm_swap. apply perm_skip, IH.
Qed.

Lemma fold_insert_perm l : forall acc,
  Permutation (l ++ acc) (fold_left (fun acc x => insert_sorted leb x acc) l acc).
Proof.
  induction l as [|x l IH]; intros acc; cbn [fold_left app]; [reflexivity|].
  rewrite <- IH. rewrite <- insert_sorted_perm. apply Permutation_middle.
Qed.

Lemma py_sorted_perm l : Permutation l (py_sorted leb l).
Proof.
  unfold py_sorted. rewrite <- fold_insert_perm, app_nil_r. reflexivity.
Qed.

Lemma insert_sorted_HdRel a x l :
  R a x -> HdRel R a l -> HdRel R a (insert_sorted leb x l).
Proof.
  intros Hax Hal. destruct l as [|y l]; cbn [insert_sorted].
  - constructor. exact Hax.
  - destruct (leb y x); constructor; [inversion Hal; assumption | exact Hax].
Qed.

Lemma insert_sorted_Sorted x l : Sorted R l -> Sorted R (insert_sorted leb x l).
Proof using leb_total.
  induction l as [|y l IH]; intros Hs; cbn [insert_sorted].
  - repeat constructor.
  - inversion Hs as [|? ? Hs' Hhd]; subst.
    destruct (leb y x) eqn:Hyx.
    + constructor; [apply IH, Hs' | apply insert_sorted_HdRel; assumption].
    + constructor; [exact Hs|]. constructor.
      destruct (leb_total x y) as [H|H]; [exact H | congruence].
Qed.

Lemma fold_insert_Sorted l : forall acc,
  Sorted R acc -> Sorted R (fold_left (fun acc x => insert_sorted leb x acc) l acc).
Proof using leb_total.
  induction l as [|x l IH]; intros acc Hs; cbn [fold_left]; [exact Hs|].
  apply IH, insert_sorted_Sorted, Hs.
Qed.

Lemma py_sorted_Sorted l : Sorted R (py_sorted leb l).
Proof using leb_total. apply fold_insert_Sorted. constructor. Qed.
End SortedFacts.

Lemma str_leb_total a b : str_leb a b = true \/ str_leb b a = true.
Proof.
  revert b. induction a as [|x a IH]; intros [|y b]; cbn; auto.
  destruct (x <? y) eqn:Hxy; [auto|].
  destruct (y <? x) eqn:Hyx; [auto|]. apply IH.
Qed.

Lemma filter_nil_existsb (A : Type) (f : A -> bool) l :
  filter f l = [] <-> existsb f l = false.
Proof.
  induction l as [|x l IH]; cbn; [tauto|].
  destruct (f x); cbn; [split; discriminate | exact IH].
Qed.

Lemma filter_last_split (A : Type) (f : A -> bool) (d : A) l :
  filter f l <> [] ->
  exists l1 r l2,
    l = l1 ++ r :: l2 /\ f r = true /\ existsb f l2 = false /\
    last (filter f l) d = r.
Proof.
  induction l as [|x l IH]; intros Hne; [contradiction Hne; reflexivity|].
  destruct (filter f l) as [|z zs] eqn:Hfl.
  - cbn [filter] in *. rewrite Hfl in *. destruct (f x) eqn:Hx; [|contradiction Hne; reflexivity].
    exists [], x, l. repeat split; [assumption | apply filter_nil_existsb, Hfl].
  - destruct IH as (l1 & r & l2 & E & Hr & Hl2 & Hlast); [discriminate|].
    exists (x :: l1), r, l2. repeat split; try assumption.
    + cbn. congruence.
    + cbn [filter]. rewrite Hfl. destruct (f x); exact Hlast.
Qed.

(** * Normalisation (section 4.3) *)

(** C1. When some surviving token is purely Korean and 2 to 3 characters
    long, [normalize_name_to_core] returns the first of the longest such
    tokens; the result is a Korean-name candidate and not an ID-style
    candidate. *)
Theorem normalize_korean_first_longest (name : str) :
  existsb korean_token (surviving_tokens name) = true ->
  exists l1 r l2,
    filter korean_token (surviving_tokens name) = l1 ++ r :: l2 /\
    (forall y, In y l1 -> (length y < length r)%nat) /\
    (forall y, In y l2 -> (length y <= length r)%nat) /\
    normalize_name_to_core name = r /\
    korean_token r = true /\ id_token r = false.
Proof.
  intros Hex. unfold normalize_name_to_core.
  rewrite name_parts_surviving.
  rewrite (filter_ext _ _ fullmatch_korean_name).
  destruct (filter korean_token (surviving_tokens name)) as [|k0 ks] eqn:Hk.
  - exfalso. apply existsb_exists in Hex as (x & Hin & Hx).
    assert (Hf : In x (filter korean_token (surviving_tokens name)))
      by (apply filter_In; auto).
    rewrite Hk in Hf. exact Hf.
  - destruct (max_by_len_inv ks [] k0 []) as (l1 & r & l2 & E & A & B & C);
      [intros y [] | intros y [] |].
    cbn [app] in E.
    exists l1, r, l2. repeat split; try assumption.
    + assert (Hin : In r (filter korean_token (surviving_tokens name))).
      { rewrite Hk, E. apply in_or_app. right. left. reflexivity. }
      apply filter_In in Hin. apply Hin.
    + apply korean_not_id.
      assert (Hin : In r (filter korean_token (surviving_tokens name))).
      { rewrite Hk, E. apply in_or_app. right. left. reflexivity. }
      apply filter_In in Hin. apply Hin.
Qed.

(** C4. Without a Korean-name candidate among the surviving tokens: when an
    ID-style candidate exists the result is the last one in original order;
    otherwise it is the surviving tokens in lexicographic order joined by
    single spaces, which is the empty string when nothing survives. *)
Theorem normalize_without_korean (name : str) :
  existsb korean_token (surviving_tokens name) = false ->
  (existsb id_token (surviving_tokens name) = true ->
   exists (l1 : list str) (r : str) (l2 : list str),
     surviving_tokens name = l1 ++ r :: l2 /\
     id_token r = true /\ existsb id_token l2 = false /\
     normalize_name_to_core name = r)
  /\
  (existsb id_token (surviving_tokens name) = false ->
   normalize_name_to_core name
     = join (u" ") (py_sorted str_leb (surviving_tokens name)) /\
   Sorted (fun a b => str_leb a b = true) (py_sorted str_leb (surviving_tokens name)) /\
   Permutation (surviving_tokens name) (py_sorted str_leb (surviving_tokens name)))
  /\
  (surviving_tokens name = [] -> normalize_name_to_core name = []).
Proof.
  intros Hk.
  assert (Hnorm : normalize_name_to_core name =
                  match filter id_token (surviving_tokens name) with
                  | _ :: _ => last (filter id_token (surviving_tokens name)) []
                  | [] => join (u" ") (py_sorted str_leb (surviving_tokens name))
                  end).
  { unfold normalize_name_to_core. rewrite name_parts_surviving.
    rewrite (filter_ext _ _ fullmatch_korean_name).
    apply filter_nil_existsb in Hk. rewrite Hk.
    rewrite (filter_ext _ _ fullmatch_id_style). reflexivity. }
  split; [|split].
  - intros Hid.
    destruct (filter_last_split id_token [] (surviving_tokens name))
      as (l1 & r & l2 & E & Hr & Hl2 & Hlast).
    { intros Hnil. apply filter_nil_existsb in Hnil. congruence. }
    exists l1, r, l2. repeat split; try assumption.
    rewrite Hnorm. destruct (filter id_token (surviving_tokens name)) eqn:Hf.
    + apply filter_nil_existsb in Hf. congruence.
    + exact Hlast.
  - intros Hid. apply filter_nil_existsb in Hid. rewrite Hid in Hnorm.
    split; [exact Hnorm|]. split.
    + apply py_sorted_Sorted, str_leb_total.
    + apply py_sorted_perm.
  - intros Hnil. rewrite Hnorm, Hnil. reflexivity.
Qed.

(** * Dictionaries and sets *)

Section DictFacts.
Variables K V : Type.
Variable eqb : K -> K -> bool.
Hypothesis eqb_eq : forall a b, eqb a b = true <-> a = b.

Set Default Proof Using "eqb_eq".

Lemma eqb_refl k : eqb k k = true.
Proof. apply eqb_eq. reflexivity. Qed.

Lemma eqb_neq a b : a <> b -> eqb a b = false.
Proof.
  intros H. destruct (eqb a b) eqn:E; [|reflexivity].
  apply eqb_eq in E. contradiction.
Qed.

Lemma existsb_eqb_In k (l : list K) : existsb (eqb k) l = true <-> In k l.
Proof.
  rewrite existsb_exists. split.
  - intros (x & Hin & Hx). apply eqb_eq in Hx. subst. exact Hin.
  - intros Hin. exists k. split; [exact Hin | apply eqb_refl].
Qed.

Lemma dict_get_set_same k (v : V) d :
  dict_get eqb k (dict_set eqb k v d) = Some v.
Proof.
  induction d as [|[k' v'] d IH]; cbn.
  - rewrite eqb_refl. reflexivity.
  - destruct (eqb k k') eqn:E; cbn; rewrite E; [reflexivity | exact IH].
Qed.

Lemma dict_get_set_other k k' (v : V) d :
  k <> k' -> dict_get eqb k' (dict_set eqb k v d) = dict_get eqb k' d.
Proof.
  intros Hne. induction d as [|[k0 v0] d IH]; cbn.
  - rewrite eqb_neq by congruence. reflexivity.
  - destruct (eqb k k0) eqn:E; cbn.
    + apply eqb_eq in E. subst k0.
      rewrite (eqb_neq (a:=k') (b:=k)) by congruence. reflexivity.
    + rewrite IH. reflexivity.
Qed.

Lemma dict_set_idem k (v : V) d :
  dict_set eqb k v (dict_set eqb k v d) = dict_set eqb k v d.
Proof.
  induction d as [|[k' v'] d IH]; cbn.
  - rewrite eqb_refl. reflexivity.
  - destruct (eqb k k') eqn:E; cbn; rewrite E; [reflexivity | f_equal; exact IH].
Qed.

Lemma dict_get_None k (d : list (K * V)) :
  dict_get eqb k d = None <-> ~ In k (dict_keys d).
Proof.
  induction d as [|[k' v'] d IH]; cbn; [tauto|].
  destruct (eqb k k') eqn:E.
  - apply eqb_eq in E. subst. split; [discriminate | intros H; exfalso; auto].
  - rewrite IH. split; [|tauto].
    intros H [H'|H']; [|auto]. subst. rewrite eqb_refl in E. discriminate.
Qed.

Lemma dict_get_In k (v : V) d : dict_get eqb k d = Some v -> In (k, v) d.
Proof.
  induction d as [|[k' v'] d IH]; cbn; [discriminate|].
  destruct (eqb k k') eqn:E.
  - apply eqb_eq in E. intros [= ->]. subst. auto.
  - auto.
Qed.

Lemma dict_set_fresh k (v : V) d :
  ~ In k (dict_keys d) -> dict_set eqb k v d = d ++ [(k, v)].
Proof.
  induction d as [|[k' v'] d IH]; cbn; [reflexivity|].
  intros H. rewrite eqb_neq by (intros ->; auto).
  rewrite IH by auto. reflexivity.
Qed.

Lemma dict_keys_set k (v : V) d :
  dict_keys (dict_set eqb k v d) = set_add eqb k (dict_keys d).
Proof.
  unfold set_add, dict_keys. induction d as [|[k' v'] d IH]; cbn; [reflexivity|].
  destruct (eqb k k') eqn:E; cbn; [reflexivity|].
  rewrite IH. destruct (existsb (eqb k) (map fst d)); reflexivity.
Qed.

Lemma set_add_In x y (s : list K) : In x (set_add eqb y s) <-> x = y \/ In x s.
Proof.
  unfold set_add. destruct (existsb (eqb y) s) eqn:E.
  - apply existsb_eqb_In in E. split; [auto | intros [->|H]; auto].
  - rewrite in_app_iff. cbn. split.
    + intros [H|[H|[]]]; auto.
    + intros [H|H]; auto.
Qed.

Lemma set_add_NoDup y (s : list K) : NoDup s -> NoDup (set_add eqb y s).
Proof.
  unfold set_add. intros H. destruct (existsb (eqb y) s) eqn:E; [exact H|].
  assert (Hy : ~ In y s).
  { intros Hin. apply existsb_eqb_In in Hin. congruence. }
  clear E. induction s as [|x s IH]; cbn.
  - constructor; [intros [] | constructor].
  - inversion H; subst. constructor.
    + rewrite in_app_iff. cbn. intros [Hx|[Hx|[]]]; [auto|].
      subst. apply Hy. left. reflexivity.
    + apply IH; [assumption|]. intros Hin. apply Hy. right. exact Hin.
Qed.

Lemma dict_set_NoDup k (v : V) d :
  NoDup (dict_keys d) -> NoDup (dict_keys (dict_set eqb k v d)).
Proof. rewrite dict_keys_set. apply set_add_NoDup. Qed.

Lemma dict_set_In k k' (v v' : V) d :
  In (k', v') (dict_set eqb k v d) -> (k' = k /\ v' = v) \/ In (k', v') d.
Proof.
  induction d as [|[k0 v0] d IH]; cbn.
  - intros [[= <- <-]|[]]. auto.
  - destruct (eqb k k0) eqn:E; cbn.
    + apply eqb_eq in E. subst. intros [[= <- <-]|H]; auto.
    + intros [H|H]; [auto|]. destruct (IH H); auto.
Qed.

End DictFacts.

Set Default Proof Using "Type".

Lemma str_eqb_eq a b : str_eqb a b = true <-> a = b.
Proof.
  unfold str_eqb. destruct (list_eq_dec N.eq_dec a b); split; intros; congruence.
Qed.

Lemma date_eqb_eq a b : date_eqb a b = true <-> a = b.
Proof.
  unfold date_eqb. destruct a, b; cbn. rewrite !andb_true_iff, !N.eqb_eq.
  split; [intros [[-> ->] ->]; reflexivity | intros [= -> -> ->]; auto].
Qed.

(** * Dates that the parser can return *)

Lemma bind_Ok (A B : Type) (x : result A) (f : A -> result B) b :
  bind x f = Ok b -> exists a, x = Ok a /\ f a = Ok b.
Proof. destruct x as [a|e]; cbn; [eauto | discriminate]. Qed.

Ltac bind_inv H :=
  let a := fresh "a" in
  let E := fresh "E" in
  apply bind_Ok in H; destruct H as (a & E & H).

Lemma make_date_Ok y m d dt :
  make_date y m d = Ok dt -> dt = Date y m d /\ valid_date y m d = true.
Proof.
  unfold make_date. destruct (valid_date y m d); [|discriminate].
  intros [= <-]. auto.
Qed.

Lemma strptime_valid s d : strptime_Ymd s = Ok d -> date_ok d.
Proof.
  unfold strptime_Ymd. destruct (re_match strptime_regex s) as [[[|x rest] c]|];
    try discriminate.
  intros H. do 6 bind_inv H.
  apply make_date_Ok in H as [-> H]. exact H.
Qed.

Lemma parse_raw_date_valid raw d : parse_raw_date raw = Ok d -> date_ok d.
Proof.
  unfold parse_raw_date. destruct (existsb (N.eqb ch_wol) raw).
  - intros H. do 5 bind_inv H. eapply strptime_valid, H.
  - destruct (re_fullmatch (Times 4 (Chr is_digit)) raw); apply strptime_valid.
Qed.

Lemma extract_date_valid filename d :
  extract_date_from_filename filename = Some d -> date_ok d.
Proof.
  unfold extract_date_from_filename.
  destruct (re_search date_pattern filename) as [m|]; [|discriminate].
  destruct (m_group 1 m) as [raw|]; cbn; [|discriminate].
  destruct (parse_raw_date raw) as [d'|e] eqn:E; cbn; [|discriminate].
  intros [= <-]. eapply parse_raw_date_valid, E.
Qed.

(** Decimal formatting of numbers below 100 and below 10000. *)

Lemma dec_str_loop_1 f n acc :
  n < 10 -> dec_str_loop (S f) n acc = (48 + n) :: acc.
Proof.
  intros H. cbn [dec_str_loop].
  apply N.ltb_lt in H as H'. rewrite H', N.mod_small by exact H. reflexivity.
Qed.

Lemma dec_str_loop_step f n acc :
  10 <= n -> dec_str_loop (S f) n acc = dec_str_loop f (n / 10) ((48 + n mod 10) :: acc).
Proof.
  intros H. cbn [dec_str_loop].
  apply N.ltb_ge in H. rewrite H. reflexivity.
Qed.

Lemma log2_fuel n k :
  2 ^ N.of_nat k <= n -> exists f, S (N.to_nat (N.log2 n)) = (S k + f)%nat.
Proof.
  intros H. exists (N.to_nat (N.log2 n) - k)%nat.
  assert (0 < n) by (pose proof (N.pow_nonzero 2 (N.of_nat k)); lia).
  apply N.log2_le_pow2 in H; lia.
Qed.

(** Linear arithmetic with division and remainder by constants. *)
Ltac div_lia :=
  try clear uni_alnum; try clear uni_decimal;
  zify; Z.to_euclidean_division_equations; lia.

Lemma zero_pad_2 n :
  n < 100 -> zero_pad 2 n = [48 + n / 10; 48 + n mod 10].
Proof.
  intros H. unfold zero_pad, dec_str.
  destruct (N.ltb_spec n 10) as [H10|H10].
  - rewrite dec_str_loop_1 by exact H10. cbn.
    rewrite N.div_small, N.mod_small by exact H10. reflexivity.
  - destruct (@log2_fuel n 3%nat) as [f ->]; [cbn; div_lia|].
    cbn [Nat.add]. rewrite dec_str_loop_step, dec_str_loop_1 by div_lia.
    reflexivity.
Qed.

Ltac digits_eq := repeat (apply (f_equal2 (@cons N)); [div_lia|]); reflexivity.

Lemma zero_pad_4 n :
  n < 10000 ->
  zero_pad 4 n = [48 + n / 1000; 48 + (n / 100) mod 10;
                  48 + (n / 10) mod 10; 48 + n mod 10].
Proof.
  intros H. unfold zero_pad, dec_str.
  destruct (N.ltb_spec n 10) as [H10|H10].
  - rewrite dec_str_loop_1 by exact H10. cbn [length Nat.sub repeat app].
    digits_eq.
  - destruct (N.ltb_spec n 100) as [H100|H100].
    + destruct (@log2_fuel n 3%nat) as [f ->]; [cbn; div_lia|].
      cbn [Nat.add]. rewrite dec_str_loop_step, dec_str_loop_1 by div_lia.
      cbn [length Nat.sub repeat app]. digits_eq.
    + destruct (N.ltb_spec n 1000) as [H1000|H1000].
      * destruct (@log2_fuel n 6%nat) as [f ->]; [cbn; div_lia|].
        cbn [Nat.add].
        rewrite !dec_str_loop_step, dec_str_loop_1 by div_lia.
        cbn [length Nat.sub repeat app]. digits_eq.
      * destruct (@log2_fuel n 9%nat) as [f ->]; [cbn; div_lia|].
        cbn [Nat.add].
        rewrite !dec_str_loop_step, dec_str_loop_1 by div_lia.
        cbn [length Nat.sub repeat app]. digits_eq.
Qed.

Lemma date_ok_bounds d :
  date_ok d -> 1 <= year d < 10000 /\ 1 <= month d <= 12 /\ 1 <= day d <= 31.
Proof.
  unfold date_ok, valid_date, in_range. rewrite !andb_true_iff, !N.leb_le.
  intros [[[? ?] [? ?]] [? Hd]].
  assert (days_in_month (year d) (month d) <= 31).
  { unfold days_in_month.
    repeat match goal with
           | |- context [match ?p with _ => _ end] => destruct p
           end; lia. }
  lia.
Qed.

Lemma date_str_ok d :
  date_ok d ->
  date_str d =
  [48 + year d / 1000; 48 + (year d / 100) mod 10; 48 + (year d / 10) mod 10;
   48 + year d mod 10; ch_minus;
   48 + month d / 10; 48 + month d mod 10; ch_minus;
   48 + day d / 10; 48 + day d mod 10].
Proof.
  intros H. apply date_ok_bounds in H. unfold date_str.
  rewrite zero_pad_4, !zero_pad_2 by lia. reflexivity.
Qed.

Lemma digits_4 n :
  n = 1000 * (n / 1000) + 100 * ((n / 100) mod 10) + 10 * ((n / 10) mod 10)
      + n mod 10.
Proof. div_lia. Qed.

Lemma digits_2 n : n = 10 * (n / 10) + n mod 10.
Proof. div_lia. Qed.

Lemma cons_inj (A : Type) (a b : A) l l' : a :: l = b :: l' -> a = b /\ l = l'.
Proof. intros [= -> ->]. auto. Qed.

Lemma date_str_inj a b : date_ok a -> date_ok b -> date_str a = date_str b -> a = b.
Proof.
  intros Ha Hb. rewrite (date_str_ok Ha), (date_str_ok Hb).
  destruct a as [ya ma da], b as [yb mb db]. cbn [year month day].
  intros E.
  apply cons_inj in E as [E1 E]. apply cons_inj in E as [E2 E].
  apply cons_inj in E as [E3 E]. apply cons_inj in E as [E4 E].
  apply cons_inj in E as [_ E].
  apply cons_inj in E as [E5 E]. apply cons_inj in E as [E6 E].
  apply cons_inj in E as [_ E].
  apply cons_inj in E as [E7 E]. apply cons_inj in E as [E8 _].
  apply N.add_cancel_l in E1, E2, E3, E4, E5, E6, E7, E8.
  rewrite (digits_4 ya), (digits_4 yb), (digits_2 ma), (digits_2 mb),
    (digits_2 da), (digits_2 db).
  rewrite E1, E2, E3, E4, E5, E6, E7, E8. reflexivity.
Qed.

(** * The aggregation loop (section 4.4) *)

Lemma dict_set_same (K V : Type) (eqb : K -> K -> bool) k (v : V) d :
  dict_get eqb k d = Some v -> dict_set eqb k v d = d.
Proof.
  induction d as [|[k' v'] d IH]; cbn; [discriminate|].
  destruct (eqb k k'); [intros [= ->]; reflexivity|].
  intros H. rewrite (IH H). reflexivity.
Qed.

Lemma O_eqb : str_eqb (u"O") (u"O") = true.
Proof. apply str_eqb_eq. reflexivity. Qed.

Lemma mark_present p n d : present (mark p n d) n d = true.
Proof.
  unfold present, mark.
  rewrite (dict_get_set_same _ str_eqb_eq), (dict_get_set_same _ date_eqb_eq).
  exact O_eqb.
Qed.

Lemma mark_keeps p n d n' d' :
  present p n d = true -> present (mark p n' d') n d = true.
Proof.
  unfold present, mark. intros H.
  destruct (list_eq_dec N.eq_dec n' n) as [->|Hn].
  - rewrite (dict_get_set_same _ str_eqb_eq).
    destruct (dict_get str_eqb n p) as [inner|]; [|discriminate].
    destruct (date_eqb d' d) eqn:Hd.
    + apply date_eqb_eq in Hd. subst.
      rewrite (dict_get_set_same _ date_eqb_eq). exact O_eqb.
    + rewrite (dict_get_set_other _ date_eqb_eq); [exact H|].
      intros ->. rewrite (eqb_refl _ date_eqb_eq) in Hd. discriminate.
  - rewrite (dict_get_set_other _ str_eqb_eq) by exact Hn. exact H.
Qed.

Lemma mark_same p n d : present p n d = true -> mark p n d = p.
Proof.
  unfold present, mark.
  destruct (dict_get str_eqb n p) as [inner|] eqn:Hn; [|discriminate].
  destruct (dict_get date_eqb d inner) as [v|] eqn:Hd; [|discriminate].
  intros Hv. apply str_eqb_eq in Hv. subst v.
  rewrite (@dict_set_same _ _ _ _ _ _ Hd). apply dict_set_same, Hn.
Qed.

Lemma mark_all_keeps d' names p n d :
  present p n d = true -> present (mark_all d' names p) n d = true.
Proof.
  unfold mark_all. revert p. induction names as [|x xs IH]; intros p H; [exact H|].
  cbn [fold_left]. apply IH, mark_keeps, H.
Qed.

Lemma mark_all_present d names p n :
  In n names -> present (mark_all d names p) (normalize_name_to_core n) d = true.
Proof.
  unfold mark_all. revert p.
  induction names as [|x xs IH]; intros p Hin; [destruct Hin|].
  destruct Hin as [Hn|Hn].
  - subst x. cbn [fold_left]. apply (mark_all_keeps d xs), mark_present.
  - cbn [fold_left]. apply IH, Hn.
Qed.

(** The two ways an iteration of the loop over files can complete. *)
Lemma process_file_inv st f st' :
  process_file st f = Ok st' ->
  (extract_date_from_filename (file_name f) = None /\
   participation st' = participation st /\ all_dates st' = all_dates st /\
   shown st' = shown st ++ [Error (u"⚠️ 날짜 인식 실패: " ++ file_name f)])
  \/
  (exists d content,
     extract_date_from_filename (file_name f) = Some d /\
     utf8_decode (file_bytes f) = Some content /\
     participation st'
       = mark_all d (fst (extract_names_from_text content)) (participation st) /\
     all_dates st' = set_add date_eqb d (all_dates st) /\
     shown st' = shown st ++ snd (extract_names_from_text content)).
Proof.
  unfold process_file.
  destruct (extract_date_from_filename (file_name f)) as [d|].
  - destruct (utf8_decode (file_bytes f)) as [content|]; cbn; [|discriminate].
    destruct (extract_names_from_text content) as [raw warns] eqn:E.
    intros [= <-]. right. exists d, content. rewrite E.
    repeat split; reflexivity.
  - intros [= <-]. left. repeat split; reflexivity.
Qed.

Lemma process_files_app st fs1 fs2 st' :
  process_files st (fs1 ++ fs2) = Ok st' <->
  exists st1, process_files st fs1 = Ok st1 /\ process_files st1 fs2 = Ok st'.
Proof.
  revert st. induction fs1 as [|f fs IH]; intros st; cbn.
  - split; [eauto | intros (st1 & [= <-] & H); exact H].
  - destruct (process_file st f) as [st1|e]; cbn.
    + apply IH.
    + split; [discriminate | intros (? & ? & _); discriminate].
Qed.

Lemma process_files_ind (P : state -> Prop) :
  (forall st f st', P st -> process_file st f = Ok st' -> P st') ->
  forall files st st', P st -> process_files st files = Ok st' -> P st'.
Proof.
  intros Hstep. induction files as [|f fs IH]; intros st st' HP; cbn.
  - intros [= <-]. exact HP.
  - destruct (process_file st f) as [st1|e] eqn:E; cbn; [|discriminate].
    apply IH. eapply Hstep; eassumption.
Qed.

Lemma process_files_keeps files st st' n d :
  process_files st files = Ok st' ->
  present (participation st) n d = true -> present (participation st') n d = true.
Proof.
  intros Hrun Hp. revert Hrun.
  apply (process_files_ind (fun s => present (participation s) n d = true));
    [|exact Hp].
  intros s f s' Hs Hf.
  apply process_file_inv in Hf as [(_ & -> & _)|(d' & c & _ & _ & -> & _)];
    [exact Hs | apply mark_all_keeps, Hs].
Qed.

(** C9. Marking is idempotent per (name, date): marking a pair that is
    already present leaves the record unchanged (so marking twice is
    marking once), and a pair that is present stays present through every
    later marking and every later file of the run. *)
Theorem marking_idempotent_and_permanent :
  (forall p n d, present (mark p n d) n d = true) /\
  (forall p n d, present p n d = true -> mark p n d = p) /\
  (forall p n d, mark (mark p n d) n d = mark p n d) /\
  (forall p n d n' d',
      present p n d = true -> present (mark p n' d') n d = true) /\
  (forall files st st' n d,
      process_files st files = Ok st' ->
      present (participation st) n d = true ->
      present (participation st') n d = true).
Proof.
  split; [exact mark_present|].
  split; [exact mark_same|].
  split; [intros p n d; apply mark_same, mark_present|].
  split; [exact mark_keeps | exact process_files_keeps].
Qed.

(** The invariant is kept by every marking and every file. *)

Lemma marks_ok_mono dates dates' inner :
  incl dates dates' -> marks_ok dates inner -> marks_ok dates' inner.
Proof.
  intros Hi [Hnd H]. split; [exact Hnd|].
  intros d v Hin. destruct (H d v Hin). auto.
Qed.

Lemma mark_marks_ok dates p n0 d0 :
  In d0 dates ->
  (forall n inner, In (n, inner) p -> marks_ok dates inner) ->
  forall n inner, In (n, inner) (mark p n0 d0) -> marks_ok dates inner.
Proof.
  intros Hd0 Hp n inner Hin. unfold mark in Hin.
  apply (dict_set_In _ str_eqb_eq) in Hin as [[_ ->]|Hin]; [|eapply Hp, Hin].
  assert (Hi : marks_ok dates match dict_get str_eqb n0 p with
                              | Some i => i
                              | None => []
                              end).
  { destruct (dict_get str_eqb n0 p) as [i|] eqn:E.
    - apply (dict_get_In _ str_eqb_eq) in E. eapply Hp, E.
    - split; [constructor | intros d v []]. }
  destruct Hi as [Hnd Hi]. split.
  - apply dict_set_NoDup; [exact date_eqb_eq | exact Hnd].
  - intros d v Hdv.
    apply (dict_set_In _ date_eqb_eq) in Hdv as [[-> ->]|Hdv]; auto.
Qed.

Lemma mark_all_marks_ok dates d0 names : forall p,
  In d0 dates ->
  (forall n inner, In (n, inner) p -> marks_ok dates inner) ->
  forall n inner, In (n, inner) (mark_all d0 names p) -> marks_ok dates inner.
Proof.
  unfold mark_all. induction names as [|x xs IH]; intros p Hd0 Hp; [exact Hp|].
  cbn [fold_left]. apply IH; [exact Hd0|]. apply mark_marks_ok; assumption.
Qed.

Lemma mark_all_NoDup d0 names : forall p,
  NoDup (dict_keys p) -> NoDup (dict_keys (mark_all d0 names p)).
Proof.
  unfold mark_all. induction names as [|x xs IH]; intros p Hp; [exact Hp|].
  cbn [fold_left]. apply IH. unfold mark.
  apply dict_set_NoDup; [exact str_eqb_eq | exact Hp].
Qed.

Lemma init_well_formed : well_formed init_state.
Proof.
  repeat split; cbn; try constructor; intros; contradiction.
Qed.

Lemma process_file_wf st f st' :
  well_formed st -> process_file st f = Ok st' -> well_formed st'.
Proof.
  intros (Hk & Hd & Hv & Hm) Hf. unfold well_formed.
  apply process_file_inv in Hf
    as [(_ & -> & -> & _)|(d & c & Hdate & _ & -> & -> & _)]; [auto|].
  assert (Hin : In d (set_add date_eqb d (all_dates st)))
    by (apply (set_add_In _ date_eqb_eq); auto).
  assert (Hincl : incl (all_dates st) (set_add date_eqb d (all_dates st)))
    by (intros x Hx; apply (set_add_In _ date_eqb_eq); auto).
  split; [apply mark_all_NoDup, Hk|].
  split; [apply set_add_NoDup; [exact date_eqb_eq | exact Hd]|].
  split.
  - intros x Hx. apply (set_add_In _ date_eqb_eq) in Hx as [->|Hx]; [|auto].
    eapply extract_date_valid, Hdate.
  - apply mark_all_marks_ok; [exact Hin|].
    intros n inner Hni. eapply marks_ok_mono; [exact Hincl | eapply Hm, Hni].
Qed.

Lemma process_files_wf files st st' :
  well_formed st -> process_files st files = Ok st' -> well_formed st'.
Proof. apply process_files_ind. exact process_file_wf. Qed.

(** The dates collected are those of the files whose name gives one. *)
Lemma process_files_dates files : forall st st',
  process_files st files = Ok st' ->
  forall d, In d (all_dates st') <-> In d (all_dates st) \/ dated files d.
Proof.
  induction files as [|f fs IH]; intros st st'; cbn.
  - intros [= <-] d. split; [auto | intros [H|(f & [] & _)]; exact H].
  - destruct (process_file st f) as [st1|e] eqn:E; cbn; [|discriminate].
    intros Hrun d. rewrite (IH _ _ Hrun d).
    assert (Hst1 : In d (all_dates st1) <->
                   In d (all_dates st) \/
                   extract_date_from_filename (file_name f) = Some d).
    { apply process_file_inv in E
        as [(Hnone & _ & -> & _)|(d' & c & Hdate & _ & _ & -> & _)].
      - rewrite Hnone. split; [auto | intros [H|H]; [exact H | discriminate]].
      - rewrite (set_add_In _ date_eqb_eq), Hdate.
        split; intros [H|H]; auto; [subst; auto | injection H as <-; auto]. }
    rewrite Hst1. unfold dated. split.
    + intros [[H|H]|(f' & Hin & H)]; [auto | right; exists f; cbn; auto |].
      right. exists f'. cbn. auto.
    + intros [H|(f' & [<-|Hin] & H)]; [auto | auto |].
      right. exists f'. auto.
Qed.

(** Every name extracted from a file whose name gives a date is marked
    present on that date. *)
Lemma process_files_names files : forall st st',
  process_files st files = Ok st' ->
  forall f d content n,
    In f files ->
    extract_date_from_filename (file_name f) = Some d ->
    utf8_decode (file_bytes f) = Some content ->
    In n (fst (extract_names_from_text content)) ->
    present (participation st') (normalize_name_to_core n) d = true.
Proof.
  induction files as [|f0 fs IH]; intros st st' Hrun f d content n Hin;
    [destruct Hin|].
  cbn in Hrun. destruct (process_file st f0) as [st1|e] eqn:E; cbn in Hrun;
    [|discriminate].
  destruct Hin as [->|Hin]; [|eapply IH; eassumption].
  intros Hdate Hdec Hn.
  eapply process_files_keeps; [exact Hrun|].
  apply process_file_inv in E
    as [(Hnone & _)|(d' & c & Hdate' & Hdec' & -> & _)]; [congruence|].
  assert (d' = d) by congruence. assert (c = content) by congruence. subst.
  apply mark_all_present, Hn.
Qed.

(** * The report (section 4.5) *)

Lemma NoDup_map_inj (A B : Type) (f : A -> B) l :
  (forall x y, In x l -> In y l -> f x = f y -> x = y) ->
  NoDup l -> NoDup (map f l).
Proof.
  induction l as [|a l IH]; intros Hinj Hnd; cbn; [constructor|].
  inversion Hnd as [|? ? Hnotin Hnd']; subst. constructor.
  - intros Hin. apply in_map_iff in Hin as (x & Hfx & Hx).
    assert (x = a) by (apply Hinj; cbn; auto). subst. contradiction.
  - apply IH; [|exact Hnd']. intros x y Hx Hy. apply Hinj; cbn; auto.
Qed.

Lemma date_str_length d : date_ok d -> length (date_str d) = 10%nat.
Proof. intros H. rewrite (date_str_ok H). reflexivity. Qed.

Lemma labels_NoDup sorted_dates :
  NoDup sorted_dates -> (forall d, In d sorted_dates -> date_ok d) ->
  NoDup (report_labels sorted_dates).
Proof.
  intros Hnd Hok. unfold report_labels. cbn [app].
  assert (Hlen : forall s, In s (map date_str sorted_dates) -> length s = 10%nat).
  { intros s Hs. apply in_map_iff in Hs as (d & <- & Hd).
    apply date_str_length, Hok, Hd. }
  constructor.
  - rewrite in_app_iff. intros [H|[H|[]]].
    + apply Hlen in H. discriminate H.
    + discriminate H.
  - apply NoDup_app_remove_l with (l := []). cbn [app].
    rewrite <- (rev_involutive (_ ++ _)). apply NoDup_rev.
    rewrite rev_app_distr. cbn [rev app]. constructor.
    + rewrite <- in_rev. intros H. apply Hlen in H. discriminate H.
    + apply NoDup_rev, NoDup_map_inj; [|exact Hnd].
      intros x y Hx Hy. apply date_str_inj; auto.
Qed.

Lemma row_of_keys sorted_dates entry :
  dict_keys (row_of sorted_dates entry) = report_labels sorted_dates.
Proof.
  unfold row_of, report_labels, dict_keys.
  rewrite !map_app, map_map. reflexivity.
Qed.

Lemma row_of_values sorted_dates entry :
  dict_values (row_of sorted_dates entry) = report_record sorted_dates entry.
Proof.
  unfold row_of, report_record, dict_values.
  rewrite !map_app, map_map. reflexivity.
Qed.

Lemma fold_set_fresh (dates : list (date * str)) ds : forall acc : row,
  NoDup (dict_keys acc ++ map date_str ds) ->
  fold_left (fun r d => dict_set str_eqb (date_str d) (CStr (marker dates d)) r)
            ds acc
  = acc ++ map (fun d => (date_str d, CStr (marker dates d))) ds.
Proof.
  induction ds as [|d ds IH]; intros acc Hnd; cbn [fold_left map].
  - rewrite app_nil_r. reflexivity.
  - rewrite (dict_set_fresh _ str_eqb_eq).
    + rewrite IH.
      * rewrite <- app_assoc. reflexivity.
      * unfold dict_keys in *. rewrite map_app, <- app_assoc. exact Hnd.
    + apply NoDup_remove_2 in Hnd. intros H. apply Hnd, in_or_app. auto.
Qed.

Lemma build_row_spec sorted_dates entry :
  NoDup (report_labels sorted_dates) ->
  build_row sorted_dates entry = row_of sorted_dates entry.
Proof.
  intros Hnd. destruct entry as [name dates]. unfold build_row.
  change (fun (r : list (str * cell)) (d : date) =>
            dict_set str_eqb (date_str d)
              (CStr match dict_get date_eqb d dates with
                    | Some v => v
                    | None => u "X"
                    end) r)
    with (fun (r : row) d => dict_set str_eqb (date_str d) (CStr (marker dates d)) r).
  unfold report_labels in Hnd.
  rewrite fold_set_fresh.
  - rewrite (dict_set_fresh _ str_eqb_eq).
    + reflexivity.
    + unfold dict_keys. rewrite map_app, map_map. cbn [map fst app].
      cbn [app] in Hnd.
      change (col_name :: map date_str sorted_dates ++ [col_total])
        with ((col_name :: map date_str sorted_dates) ++ [col_total]) in Hnd.
      apply NoDup_remove_2 in Hnd. rewrite app_nil_r in Hnd. exact Hnd.
  - cbn [dict_keys map fst app]. cbn [app] in Hnd.
    change (col_name :: map date_str sorted_dates ++ [col_total])
      with ((col_name :: map date_str sorted_dates) ++ [col_total]) in Hnd.
    apply NoDup_remove_1 in Hnd. rewrite app_nil_r in Hnd. exact Hnd.
Qed.

Lemma set_add_present (s : str) cols :
  In s cols -> set_add str_eqb s cols = cols.
Proof.
  intros H. unfold set_add.
  apply (existsb_eqb_In _ str_eqb_eq) in H. rewrite H. reflexivity.
Qed.

Lemma add_keys_present ks : forall cols : list str,
  incl ks cols -> fold_left (fun cols k => set_add str_eqb k cols) ks cols = cols.
Proof.
  induction ks as [|k ks IH]; intros cols Hi; cbn [fold_left]; [reflexivity|].
  rewrite set_add_present by (apply Hi; cbn; auto).
  apply IH. intros x Hx. apply Hi. cbn. auto.
Qed.

Lemma add_keys_fresh ks : forall cols : list str,
  NoDup (cols ++ ks) ->
  fold_left (fun cols k => set_add str_eqb k cols) ks cols = cols ++ ks.
Proof.
  induction ks as [|k ks IH]; intros cols Hnd; cbn [fold_left].
  - rewrite app_nil_r. reflexivity.
  - assert (Hk : existsb (str_eqb k) cols = false).
    { destruct (existsb (str_eqb k) cols) eqn:E; [|reflexivity].
      apply (existsb_eqb_In _ str_eqb_eq) in E.
      apply NoDup_remove_2 in Hnd. exfalso. apply Hnd, in_or_app. auto. }
    unfold set_add at 2. rewrite Hk. rewrite IH.
    + rewrite <- app_assoc. reflexivity.
    + rewrite <- app_assoc. exact Hnd.
Qed.

Lemma keys_union_same (labels : list str) (rows : list row) :
  NoDup labels -> (forall r, In r rows -> dict_keys r = labels) ->
  keys_union rows = match rows with [] => [] | _ => labels end.
Proof.
  intros Hnd Hrows. unfold keys_union. destruct rows as [|r rows]; [reflexivity|].
  cbn [fold_left]. rewrite (Hrows r) by (cbn; auto).
  rewrite add_keys_fresh by exact Hnd. cbn [app].
  assert (H : forall r', In r' rows -> dict_keys r' = labels)
    by (intros; apply Hrows; cbn; auto).
  clear Hrows. induction rows as [|r' rows IH]; [reflexivity|].
  cbn [fold_left]. rewrite (H r') by (cbn; auto).
  rewrite add_keys_present by apply incl_refl.
  apply IH. intros; apply H; cbn; auto.
Qed.

Lemma cells_of_keys (r : row) :
  NoDup (dict_keys r) -> map (cell_at r) (dict_keys r) = dict_values r.
Proof.
  unfold dict_keys, dict_values.
  induction r as [|[k v] r IH]; intros Hnd; [reflexivity|].
  inversion Hnd as [|? ? Hnotin Hnd']; subst.
  cbn [map fst snd]. f_equal.
  - unfold cell_at. cbn. rewrite (eqb_refl _ str_eqb_eq). reflexivity.
  - rewrite <- (IH Hnd'). apply map_ext_in. intros c Hc.
    unfold cell_at. cbn [dict_get].
    rewrite (eqb_neq _ str_eqb_eq); [reflexivity|].
    intros ->. contradiction.
Qed.

Lemma pd_DataFrame_spec (labels : list str) (rows : list row) :
  NoDup labels -> (forall r, In r rows -> dict_keys r = labels) ->
  pd_DataFrame rows
  = DataFrame match rows with [] => [] | _ => labels end (map (@dict_values _ _) rows).
Proof.
  intros Hnd Hrows. unfold pd_DataFrame.
  rewrite (@keys_union_same labels rows Hnd Hrows). f_equal.
  destruct rows as [|r0 rows0]; [reflexivity|].
  apply map_ext_in. intros r Hr.
  rewrite <- (Hrows r Hr).
  apply cells_of_keys. rewrite (Hrows r Hr). exact Hnd.
Qed.

Lemma df_add_missing_present df col v :
  In col (columns df) -> df_add_missing df col v = df.
Proof.
  intros H. unfold df_add_missing.
  apply (existsb_eqb_In _ str_eqb_eq) in H. rewrite H. reflexivity.
Qed.

Lemma df_add_missing_empty df col v :
  records df = [] -> records (df_add_missing df col v) = [].
Proof.
  intros H. unfold df_add_missing.
  destruct (existsb (str_eqb col) (columns df)); cbn; [exact H|].
  rewrite H. reflexivity.
Qed.

Lemma fold_add_missing_present ds v : forall df,
  (forall d, In d ds -> In (date_str d) (columns df)) ->
  fold_left (fun df d => df_add_missing df (date_str d) v) ds df = df.
Proof.
  induction ds as [|d ds IH]; intros df H; cbn [fold_left]; [reflexivity|].
  rewrite df_add_missing_present by (apply H; cbn; auto).
  apply IH. intros; apply H; cbn; auto.
Qed.

Lemma fold_add_missing_empty ds v : forall df,
  records df = [] ->
  records (fold_left (fun df d => df_add_missing df (date_str d) v) ds df) = [].
Proof.
  induction ds as [|d ds IH]; intros df H; cbn [fold_left]; [exact H|].
  apply IH, df_add_missing_empty, H.
Qed.

Lemma combine_keys (cols : list str) : forall rec : list cell,
  length rec = length cols -> dict_keys (combine cols rec) = cols.
Proof.
  unfold dict_keys.
  induction cols as [|c cols IH]; intros [|x rec] H; try discriminate; cbn;
    [reflexivity|]. f_equal. apply IH. cbn in H. lia.
Qed.

Lemma combine_values (cols : list str) : forall rec : list cell,
  length rec = length cols -> dict_values (combine cols rec) = rec.
Proof.
  unfold dict_values.
  induction cols as [|c cols IH]; intros [|x rec] H; try discriminate; cbn;
    [reflexivity|]. f_equal. apply IH. cbn in H. lia.
Qed.

Lemma lookup_all_spec cols rec : forall labels,
  incl labels (dict_keys (combine cols rec)) ->
  lookup_all labels cols rec = Some (map (cell_at (combine cols rec)) labels).
Proof.
  induction labels as [|l ls IH]; intros Hi; [reflexivity|].
  cbn [lookup_all map]. rewrite IH by (intros x Hx; apply Hi; cbn; auto).
  assert (Hc : cell_at (combine cols rec) l
               = match dict_get str_eqb l (combine cols rec) with
                 | Some v => v
                 | None => CNaN
                 end) by reflexivity.
  rewrite Hc.
  destruct (dict_get str_eqb l (combine cols rec)) eqn:E; [reflexivity|].
  apply (dict_get_None _ str_eqb_eq) in E. exfalso. apply E, Hi. cbn. auto.
Qed.

Lemma lookup_all_same cols rec :
  NoDup cols -> length rec = length cols -> lookup_all cols cols rec = Some rec.
Proof.
  intros Hnd Hlen. rewrite lookup_all_spec.
  - rewrite <- (combine_keys cols rec Hlen) at 2.
    rewrite cells_of_keys, combine_values; [reflexivity | exact Hlen |].
    rewrite combine_keys; assumption.
  - rewrite combine_keys by exact Hlen. apply incl_refl.
Qed.

Lemma select_records_same cols recs :
  NoDup cols -> (forall rec, In rec recs -> length rec = length cols) ->
  select_records cols cols recs = Some recs.
Proof.
  intros Hnd. induction recs as [|r rs IH]; intros H; [reflexivity|].
  cbn [select_records]. rewrite lookup_all_same by (auto; apply H; cbn; auto).
  rewrite IH by (intros; apply H; cbn; auto). reflexivity.
Qed.

Lemma report_record_length sorted_dates entry :
  length (report_record sorted_dates entry) = length (report_labels sorted_dates).
Proof.
  unfold report_record, report_labels. rewrite !length_app, !length_map.
  reflexivity.
Qed.

Lemma sorted_dates_ok st :
  well_formed st ->
  NoDup (py_sorted date_leb (all_dates st)) /\
  (forall d, In d (py_sorted date_leb (all_dates st)) -> date_ok d).
Proof.
  intros (_ & Hnd & Hv & _). split.
  - eapply Permutation_NoDup; [apply py_sorted_perm | exact Hnd].
  - intros d Hd. apply Hv.
    eapply Permutation_in; [symmetry; apply py_sorted_perm | exact Hd].
Qed.

(** The table the script builds from a well-formed aggregate. *)
Lemma build_report_spec st :
  well_formed st ->
  build_report st
  = Ok (DataFrame (report_labels (py_sorted date_leb (all_dates st)))
                  (map (report_record (py_sorted date_leb (all_dates st)))
                       (participation st))).
Proof.
  intros Hwf. destruct (sorted_dates_ok Hwf) as [Hnd Hok].
  pose proof (labels_NoDup Hnd Hok) as HL.
  unfold build_report.
  set (sorted_dates := py_sorted date_leb (all_dates st)) in *.
  rewrite (map_ext _ _ (fun e => build_row_spec e HL)).
  rewrite (@pd_DataFrame_spec (report_labels sorted_dates)
             (map (row_of sorted_dates) (participation st)) HL).
  2:{ intros r Hr. apply in_map_iff in Hr as (e & <- & _). apply row_of_keys. }
  rewrite map_map, (map_ext _ _ (row_of_values sorted_dates)).
  destruct (participation st) as [|e es] eqn:Hp.
  - cbn [map].
    set (df := fold_left _ sorted_dates _).
    assert (Hrec : records df = []).
    { apply fold_add_missing_empty.
      apply df_add_missing_empty, df_add_missing_empty. reflexivity. }
    rewrite Hrec. reflexivity.
  - set (recs := map (report_record sorted_dates) (e :: es)).
    cbn [map] in recs.
    change (match map (row_of sorted_dates) (e :: es) with
            | [] => []
            | _ :: _ => report_labels sorted_dates
            end) with (report_labels sorted_dates).
    assert (Hname : In col_name (report_labels sorted_dates))
      by (unfold report_labels; cbn; auto).
    assert (Htotal : In col_total (report_labels sorted_dates)).
    { unfold report_labels. apply in_or_app. right.
      apply in_or_app. right. cbn. auto. }
    assert (Hdates : forall d, In d sorted_dates ->
                               In (date_str d) (report_labels sorted_dates)).
    { intros d Hd. unfold report_labels.
      apply in_or_app. right. apply in_or_app. left. apply in_map, Hd. }
    rewrite (@df_add_missing_present _ col_name) by exact Hname.
    rewrite (@df_add_missing_present _ col_total) by exact Htotal.
    rewrite fold_add_missing_present by exact Hdates.
    cbn [columns records].
    rewrite select_records_same; [reflexivity | exact HL |].
    intros rec Hrec. subst recs.
    change (In rec (map (report_record sorted_dates) (e :: es))) in Hrec.
    apply in_map_iff in Hrec as (e' & <- & _). apply report_record_length.
Qed.

Lemma main_Report_inv files df log :
  main files = Report df log ->
  files <> [] /\
  exists st, process_files init_state files = Ok st /\
             build_report st = Ok df /\ log = shown st.
Proof.
  unfold main. destruct files as [|f fs]; [discriminate|].
  destruct (process_files init_state (f :: fs)) as [st|e] eqn:E;
    [|cbn; discriminate].
  cbn [bind]. destruct (build_report st) as [df'|e] eqn:B; cbn; [|discriminate].
  intros [= <- <-]. split; [discriminate|]. exists st. auto.
Qed.

Lemma process_files_total files : forall st,
  (forall f, In f files ->
             extract_date_from_filename (file_name f) <> None ->
             utf8_decode (file_bytes f) <> None) ->
  exists st', process_files st files = Ok st'.
Proof.
  induction files as [|f fs IH]; intros st H; cbn; [eauto|].
  assert (Hf : exists st1, process_file st f = Ok st1).
  { unfold process_file.
    destruct (extract_date_from_filename (file_name f)) as [d|] eqn:Ed; [|eauto].
    destruct (utf8_decode (file_bytes f)) as [c|] eqn:Ec.
    - cbn. destruct (extract_names_from_text c). eauto.
    - exfalso. apply (H f); cbn; auto. congruence. }
  destruct Hf as [st1 ->]. cbn. apply IH. intros; apply H; cbn; auto.
Qed.

(** The script produces a report whenever something was uploaded and every
    file whose name gives a date holds UTF-8 text. *)
Lemma main_reports files :
  files <> [] ->
  (forall f, In f files ->
             extract_date_from_filename (file_name f) <> None ->
             utf8_decode (file_bytes f) <> None) ->
  exists df log, main files = Report df log.
Proof.
  intros Hne H. destruct (@process_files_total files init_state H) as [st Hst].
  pose proof (@process_files_wf _ _ _ init_well_formed Hst) as Hwf.
  unfold main. destruct files as [|f fs]; [contradiction|].
  rewrite Hst. cbn [bind]. rewrite (@build_report_spec _ Hwf). cbn. eauto.
Qed.

Lemma count_occ_all (l : list str) a :
  (forall x, In x l -> x = a) ->
  count_occ (list_eq_dec N.eq_dec) l a = length l.
Proof.
  induction l as [|x l IH]; intros H; [reflexivity|].
  rewrite count_occ_cons_eq by (apply H; cbn; auto).
  cbn. f_equal. apply IH. intros; apply H; cbn; auto.
Qed.

Lemma total_of_length dates inner :
  marks_ok dates inner -> total_of inner = length inner.
Proof.
  intros [_ H]. unfold total_of. rewrite count_occ_all.
  - unfold dict_values. apply length_map.
  - intros x Hx. apply in_map_iff in Hx as ([d v] & <- & Hdv).
    apply (H d v Hdv).
Qed.

Lemma filter_mem_length (l ks : list date) :
  NoDup l -> NoDup ks -> incl ks l ->
  length (filter (fun d => existsb (date_eqb d) ks) l) = length ks.
Proof.
  intros Hl Hks Hi. apply Permutation_length, NoDup_Permutation;
    [apply NoDup_filter, Hl | exact Hks |].
  intros x. rewrite filter_In, (existsb_eqb_In _ date_eqb_eq).
  split; [tauto | intros H; split; [apply Hi, H | exact H]].
Qed.

Lemma X_not_O : str_eqb (u"X") (u"O") = false.
Proof. reflexivity. Qed.

Lemma marker_O dates inner d :
  marks_ok dates inner ->
  str_eqb (marker inner d) (u"O") = existsb (date_eqb d) (dict_keys inner).
Proof.
  intros [_ H]. unfold marker.
  destruct (dict_get date_eqb d inner) as [v|] eqn:E.
  - pose proof (@dict_get_In _ _ _ date_eqb_eq _ _ _ E) as Hin.
    destruct (H d v Hin) as [-> _]. rewrite O_eqb. symmetry.
    apply (existsb_eqb_In _ date_eqb_eq).
    change d with (fst (d, u"O")). apply in_map, Hin.
  - rewrite X_not_O. symmetry.
    apply (dict_get_None _ date_eqb_eq) in E.
    destruct (existsb (date_eqb d) (dict_keys inner)) eqn:Ex; [|reflexivity].
    apply (existsb_eqb_In _ date_eqb_eq) in Ex. contradiction.
Qed.

Lemma filter_map_length (A B : Type) (f : B -> bool) (g : A -> B) l :
  length (filter f (map g l)) = length (filter (fun x => f (g x)) l).
Proof.
  induction l as [|x l IH]; [reflexivity|].
  cbn. destruct (f (g x)); cbn; rewrite IH; reflexivity.
Qed.

(** In the row of a participant the number of 'O' cells is the number of
    stored dates, which is the value of the total column. *)
Lemma count_O_markers dates sorted_dates inner :
  marks_ok dates inner -> NoDup sorted_dates -> incl dates sorted_dates ->
  count_O (map (fun d => CStr (marker inner d)) sorted_dates) = total_of inner.
Proof.
  intros Hm Hnd Hi. rewrite (@total_of_length _ _ Hm).
  unfold count_O. rewrite filter_map_length. cbn [is_O].
  rewrite (filter_ext _ _ (fun d => @marker_O _ _ d Hm)).
  rewrite filter_mem_length; [apply length_map | exact Hnd | apply Hm |].
  intros d Hd. apply Hi. unfold dict_keys in Hd.
  apply in_map_iff in Hd as ([d' v] & <- & Hdv). apply (proj2 Hm d' v Hdv).
Qed.

Lemma sorted_incl st :
  incl (all_dates st) (py_sorted date_leb (all_dates st)).
Proof.
  intros d Hd. eapply Permutation_in; [apply py_sorted_perm | exact Hd].
Qed.

(** C5. In the report, the total column of every row is the number of 'O'
    cells among the date cells of that row. *)
Theorem report_total_counts_O files df log :
  main files = Report df log ->
  exists sorted_dates,
    columns df = [col_name] ++ map date_str sorted_dates ++ [col_total] /\
    Forall (fun rec =>
              exists name cells total,
                rec = [CStr name] ++ cells ++ [CInt total] /\
                length cells = length sorted_dates /\
                total = count_O cells)
           (records df).
Proof.
  intros Hmain. apply main_Report_inv in Hmain as (_ & st & Hrun & Hrep & _).
  pose proof (@process_files_wf _ _ _ init_well_formed Hrun) as Hwf.
  rewrite (@build_report_spec _ Hwf) in Hrep. injection Hrep as <-.
  exists (py_sorted date_leb (all_dates st)). split; [reflexivity|].
  cbn [records]. apply Forall_forall. intros rec Hrec.
  apply in_map_iff in Hrec as ([name inner] & <- & Hin).
  exists name, (map (fun d => CStr (marker inner d))
                    (py_sorted date_leb (all_dates st))), (total_of inner).
  split; [reflexivity|]. split; [apply length_map|].
  symmetry. destruct Hwf as (_ & _ & _ & Hm).
  eapply count_O_markers; [eapply Hm, Hin | | apply sorted_incl].
  apply (@sorted_dates_ok _ (@process_files_wf _ _ _ init_well_formed Hrun)).
Qed.

Lemma date_leb_total a b : date_leb a b = true \/ date_leb b a = true.
Proof.
  unfold date_leb.
  destruct (N.ltb_spec (year a) (year b)); [auto|].
  destruct (N.ltb_spec (year b) (year a)); [auto|].
  destruct (N.ltb_spec (month a) (month b)); [auto|].
  destruct (N.ltb_spec (month b) (month a)); [auto|].
  rewrite !N.leb_le. lia.
Qed.

Lemma present_entry p n d :
  present p n d = true ->
  exists inner, In (n, inner) p /\ marker inner d = u"O".
Proof.
  unfold present, marker.
  destruct (dict_get str_eqb n p) as [inner|] eqn:E; [|discriminate].
  destruct (dict_get date_eqb d inner) as [v|] eqn:Ed; [|discriminate].
  intros Hv. apply str_eqb_eq in Hv. exists inner.
  split; [eapply dict_get_In; [exact str_eqb_eq | exact E]|].
  rewrite Ed. exact Hv.
Qed.

(** C6. The columns of the report are the name column, one column per
    distinct date parsed from a file name, in ascending order, and the
    total column; the date of a file is a column whatever the file
    contains; every canonical name extracted from a file with a parsed date
    has a row, marked 'O' on that date. *)
Theorem report_columns_and_rows files df log :
  main files = Report df log ->
  exists sorted_dates,
    columns df = [col_name] ++ map date_str sorted_dates ++ [col_total] /\
    Sorted (fun a b => date_leb a b = true) sorted_dates /\
    NoDup sorted_dates /\
    (forall d, In d sorted_dates <-> dated files d) /\
    (forall f d, In f files ->
                 extract_date_from_filename (file_name f) = Some d ->
                 In (date_str d) (columns df)) /\
    (forall f d content n,
        In f files ->
        extract_date_from_filename (file_name f) = Some d ->
        utf8_decode (file_bytes f) = Some content ->
        In n (fst (extract_names_from_text content)) ->
        exists inner,
          In (report_record sorted_dates (normalize_name_to_core n, inner))
             (records df) /\
          marker inner d = u"O").
Proof.
  intros Hmain. apply main_Report_inv in Hmain as (_ & st & Hrun & Hrep & _).
  pose proof (@process_files_wf _ _ _ init_well_formed Hrun) as Hwf.
  rewrite (@build_report_spec _ Hwf) in Hrep. injection Hrep as <-.
  set (sorted_dates := py_sorted date_leb (all_dates st)).
  assert (Hmem : forall d, In d sorted_dates <-> dated files d).
  { intros d.
    pose proof (@process_files_dates files init_state st Hrun d) as Hd. split.
    - intros H.
      assert (H' : In d (all_dates st))
        by (eapply Permutation_in; [symmetry; apply py_sorted_perm | exact H]).
      apply Hd in H' as [[]|H']. exact H'.
    - intros H. eapply Permutation_in; [apply py_sorted_perm|].
      apply Hd. right. exact H. }
  exists sorted_dates. split; [reflexivity|].
  split; [apply py_sorted_Sorted, date_leb_total|].
  split; [apply (@sorted_dates_ok _ Hwf)|].
  split; [exact Hmem|]. split.
  - intros f d Hf Hd. cbn [columns]. unfold report_labels.
    apply in_or_app. right. apply in_or_app. left. apply in_map.
    apply Hmem. exists f. auto.
  - intros f d content n Hf Hd Hc Hn.
    pose proof (@process_files_names files init_state st Hrun f d content n
                  Hf Hd Hc Hn) as Hp.
    apply present_entry in Hp as (inner & Hin & Hmark).
    exists inner. split; [|exact Hmark].
    cbn [records].
    apply (in_map (report_record sorted_dates) _ _ Hin).
Qed.

(** C10. After any prefix of the uploaded files has been processed, every
    stored value is 'O' and every stored date is in [all_dates]; in the
    report built from that state no total exceeds the number of date
    columns and every stored date has its column. *)
Theorem aggregation_invariant prefix st :
  process_files init_state prefix = Ok st ->
  (forall name inner d v,
      In (name, inner) (participation st) -> In (d, v) inner ->
      v = u"O" /\ In d (all_dates st)) /\
  exists sorted_dates df,
    build_report st = Ok df /\
    columns df = [col_name] ++ map date_str sorted_dates ++ [col_total] /\
    forall name inner,
      In (name, inner) (participation st) ->
      In (report_record sorted_dates (name, inner)) (records df) /\
      (total_of inner <= length sorted_dates)%nat /\
      forall d v, In (d, v) inner ->
                  In d sorted_dates /\ In (date_str d) (columns df).
Proof.
  intros Hrun.
  pose proof (@process_files_wf _ _ _ init_well_formed Hrun) as Hwf.
  pose proof Hwf as (_ & Hnd & _ & Hm).
  split.
  - intros name inner d v Hin Hdv. apply (proj2 (Hm name inner Hin) d v Hdv).
  - exists (py_sorted date_leb (all_dates st)).
    eexists. split; [apply (@build_report_spec _ Hwf)|].
    split; [reflexivity|].
    intros name inner Hin. destruct (Hm name inner Hin) as [Hk Hv].
    assert (Hd : forall d v, In (d, v) inner ->
                             In d (py_sorted date_leb (all_dates st))).
    { intros d v Hdv. apply sorted_incl. apply (Hv d v Hdv). }
    split; [cbn [records]; apply (in_map _ _ _ Hin)|]. split.
    + rewrite (@total_of_length _ _ (Hm name inner Hin)).
      rewrite <- (length_map fst inner).
      apply NoDup_incl_length; [exact Hk|].
      intros d Hdk. apply in_map_iff in Hdk as ([d' v] & <- & Hdv).
      apply (Hd d' v Hdv).
    + intros d v Hdv. split; [apply (Hd d v Hdv)|].
      cbn [columns]. unfold report_labels.
      apply in_or_app. right. apply in_or_app. left.
      apply in_map, (Hd d v Hdv).
Qed.

(** * The date parser (section 4.1) *)

Unset Implicit Arguments.

(** Facts about digits. *)

Lemma is_digit_value c : is_digit c = true -> exists d, decimal_value c = Some d.
Proof. unfold is_digit. destruct (decimal_value c); [eauto | discriminate]. Qed.

Lemma is_digit_cases c :
  is_digit c = true ->
  (48 <= c <= 57) \/ (128 <= c /\ is_hangul c = false /\ is_space c = false).
Proof.
  unfold is_digit, decimal_value.
  destruct (N.ltb_spec c 128) as [Hlt|Hge].
  - unfold is_ascii_digit, in_range.
    destruct (N.leb_spec 48 c), (N.leb_spec c 57); cbn; try discriminate.
    intros _. left. lia.
  - destruct (is_hangul c), (is_space c); cbn; try discriminate.
    intros _. right. auto.
Qed.

Lemma is_digit_not_space c : is_digit c = true -> is_space c = false.
Proof.
  intros H. destruct (is_digit_cases _ H) as [Ha|(_ & _ & Hs)]; [|exact Hs].
  unfold is_space, in_range.
  repeat match goal with
         | |- context [?a <=? ?b] => destruct (N.leb_spec a b); try lia
         | |- context [?a =? ?b] => destruct (N.eqb_spec a b); try lia
         end; reflexivity.
Qed.

Lemma is_digit_not_ascii_nondigit c x :
  is_digit c = true -> x < 128 -> is_ascii_digit x = false -> (x =? c) = false.
Proof.
  intros H Hx Hnd. apply N.eqb_neq. intros <-.
  destruct (is_digit_cases _ H) as [Ha|(Hge & _)]; [|lia].
  unfold is_ascii_digit, in_range in Hnd.
  destruct (N.leb_spec 48 x), (N.leb_spec x 57); cbn in Hnd;
    try discriminate; lia.
Qed.

Lemma is_digit_not_hangul c x :
  is_digit c = true -> is_hangul x = true -> (x =? c) = false.
Proof.
  intros H Hx. apply N.eqb_neq. intros <-.
  unfold is_hangul, in_range in Hx. apply andb_true_iff in Hx as [H1 H2].
  apply N.leb_le in H1, H2.
  destruct (is_digit_cases _ H) as [Ha|(_ & Hh & _)]; [lia|].
  unfold is_hangul, in_range in Hh.
  apply andb_false_iff in Hh as [Hh|Hh]; apply N.leb_gt in Hh; lia.
Qed.

Lemma digits_value_spec s : forall acc,
  forallb is_digit s = true ->
  digits_value s acc = Ok (fold_left (fun acc c => 10 * acc + digit_val c) s acc).
Proof.
  induction s as [|x s IH]; intros acc H; [reflexivity|].
  cbn in H. apply andb_true_iff in H as [Hx Hs].
  cbn [digits_value fold_left]. unfold digit_val at 2.
  destruct (is_digit_value _ Hx) as [d ->]. apply IH, Hs.
Qed.

Lemma lstrip_nonspace x s : is_space x = false -> lstrip (x :: s) = x :: s.
Proof. intros H. cbn. rewrite H. reflexivity. Qed.

Lemma strip_digits s : forallb is_digit s = true -> strip s = s.
Proof.
  intros H. unfold strip, rstrip.
  assert (Hl : forall t, forallb is_digit t = true -> lstrip t = t).
  { intros [|x t] Ht; [reflexivity|]. cbn in Ht.
    apply andb_true_iff in Ht as [Hx _].
    apply lstrip_nonspace, is_digit_not_space, Hx. }
  rewrite (Hl s H), Hl by (rewrite forallb_rev; exact H).
  apply rev_involutive.
Qed.

Lemma py_int_digits s :
  forallb is_digit s = true -> s <> [] -> py_int s = Ok (number s).
Proof.
  intros H Hne. unfold py_int. rewrite (strip_digits _ H).
  destruct s as [|x s]; [contradiction|]. apply digits_value_spec, H.
Qed.

Lemma digit_val_ascii c : 48 <= c <= 57 -> digit_val c = c - 48.
Proof.
  intros H. unfold digit_val, decimal_value.
  replace (c <? 128) with true by (symmetry; apply N.ltb_lt; lia).
  replace (is_ascii_digit c) with true
    by (symmetry; unfold is_ascii_digit, in_range;
        apply andb_true_iff; rewrite !N.leb_le; lia).
  assert (Hc : c - 48 = 0 \/ c - 48 = 1 \/ c - 48 = 2 \/ c - 48 = 3 \/ c - 48 = 4
               \/ c - 48 = 5 \/ c - 48 = 6 \/ c - 48 = 7 \/ c - 48 = 8
               \/ c - 48 = 9) by lia.
  repeat destruct Hc as [Hc|Hc]; rewrite Hc; reflexivity.
Qed.

(** The text between two positions. *)
Lemma consumed_app (pre s : str) : consumed (pre ++ s) s = pre.
Proof.
  unfold consumed. rewrite length_app.
  replace (length pre + length s - length s)%nat with (length pre) by lia.
  rewrite firstn_app, firstn_all, Nat.sub_diag. cbn. apply app_nil_r.
Qed.

Lemma rmatch_month (R : regex) m1 m2 rest c k :
  (45 =? m2) = false ->
  rmatch (re_m +> Lit ch_minus +> R) (m1 :: m2 :: ch_minus :: rest) c k
  = if month_full m1 m2 then rmatch R rest ((2%nat, [m1; m2]) :: c) k else None.
Proof.
  intros H45. unfold re_m, Lit, month_full, ch_minus.
  cbn [rmatch]. rewrite H45.
  change (m1 :: m2 :: 45 :: rest) with ([m1; m2] ++ 45 :: rest).
  rewrite consumed_app. cbn [app]. change (45 =? 45) with true. cbv iota.
  unfold str, caps.
  destruct (rmatch R rest ((2%nat, [m1; m2]) :: c) k);
    destruct (49 =? m1), (in_range 48 50 m2), (48 =? m1), (in_range 49 57 m2),
      (in_range 49 57 m1); reflexivity.
Qed.

Lemma rmatch_day d1 d2 c :
  (32 =? d1) = false ->
  rmatch re_d [d1; d2] c accept_any
  = if day_full d1 d2 then Some ([], (3%nat, [d1; d2]) :: c)
    else if in_range 49 57 d1 then Some ([d2], (3%nat, [d1]) :: c)
    else None.
Proof.
  intros H32. unfold re_d, Lit, day_full, accept_any.
  cbn [rmatch]. rewrite H32. unfold consumed. cbn [length Nat.sub firstn].
  destruct (51 =? d1), (in_range 48 49 d2), (in_range 49 50 d1), (is_digit d2),
    (48 =? d1), (in_range 49 57 d2), (in_range 49 57 d1); reflexivity.
Qed.

Lemma rmatch_Y (R : regex) y1 y2 y3 y4 rest c k :
  is_digit y1 = true -> is_digit y2 = true ->
  is_digit y3 = true -> is_digit y4 = true ->
  rmatch (re_Y +> Lit ch_minus +> R) (y1 :: y2 :: y3 :: y4 :: ch_minus :: rest) c k
  = rmatch R rest ((1%nat, [y1; y2; y3; y4]) :: c) k.
Proof.
  intros H1 H2 H3 H4. unfold re_Y, Lit, ch_minus.
  cbn [rmatch]. rewrite H1, H2, H3, H4.
  change (y1 :: y2 :: y3 :: y4 :: 45 :: rest)
    with ([y1; y2; y3; y4] ++ 45 :: rest).
  rewrite consumed_app. reflexivity.
Qed.

(** What [strptime] does with ten characters of the form dddd-dd-dd. *)
Lemma strptime_shape y1 y2 y3 y4 m1 m2 d1 d2 :
  forallb is_digit [y1; y2; y3; y4; m1; m2; d1; d2] = true ->
  strptime_Ymd [y1; y2; y3; y4; ch_minus; m1; m2; ch_minus; d1; d2]
  = if month_full m1 m2 && day_full d1 d2
    then make_date (number [y1; y2; y3; y4]) (number [m1; m2]) (number [d1; d2])
    else Raise ValueError.
Proof.
  intros H. cbn [forallb] in H. rewrite !andb_true_iff in H.
  destruct H as (Hy1 & Hy2 & Hy3 & Hy4 & Hm1 & Hm2 & Hd1 & Hd2 & _).
  unfold strptime_Ymd, re_match, strptime_regex.
  rewrite rmatch_Y by assumption.
  rewrite rmatch_month
    by (apply (is_digit_not_ascii_nondigit _ _ Hm2); [lia | reflexivity]).
  destruct (month_full m1 m2); [|reflexivity]. cbn [andb].
  rewrite rmatch_day
    by (apply (is_digit_not_ascii_nondigit _ _ Hd1); [lia | reflexivity]).
  destruct (day_full d1 d2).
  - cbn [group Nat.eqb not_none bind].
    rewrite !py_int_digits
      by (try discriminate; cbn [forallb];
          rewrite ?Hy1, ?Hy2, ?Hy3, ?Hy4, ?Hm1, ?Hm2, ?Hd1, ?Hd2; reflexivity).
    reflexivity.
  - destruct (in_range 49 57 d1); reflexivity.
Qed.

(** For ASCII digits the two tests are the range checks on the numbers. *)
Lemma number_2 a b :
  48 <= a <= 57 -> 48 <= b <= 57 -> number [a; b] = 10 * (a - 48) + (b - 48).
Proof.
  intros Ha Hb. unfold number. cbn [fold_left].
  rewrite !digit_val_ascii by assumption. lia.
Qed.

Lemma ascii_is_digit c : 48 <= c <= 57 -> is_digit c = true.
Proof.
  intros H. unfold is_digit, decimal_value.
  replace (c <? 128) with true by (symmetry; apply N.ltb_lt; lia).
  replace (is_ascii_digit c) with true; [reflexivity|].
  symmetry. unfold is_ascii_digit, in_range.
  apply andb_true_iff. rewrite !N.leb_le. lia.
Qed.

Ltac bool_to_prop :=
  repeat match goal with
         | |- context [?a <=? ?b] => destruct (N.leb_spec a b)
         | |- context [?a =? ?b] => destruct (N.eqb_spec a b)
         end.

Lemma month_full_ascii a b :
  48 <= a <= 57 -> 48 <= b <= 57 ->
  month_full a b = in_range 1 12 (number [a; b]).
Proof.
  intros Ha Hb. rewrite number_2 by assumption.
  unfold month_full, in_range. bool_to_prop; cbn; try reflexivity; lia.
Qed.

Lemma day_full_ascii a b :
  48 <= a <= 57 -> 48 <= b <= 57 ->
  day_full a b = in_range 1 31 (number [a; b]).
Proof.
  intros Ha Hb. rewrite number_2 by assumption.
  unfold day_full, in_range. rewrite (ascii_is_digit b Hb).
  bool_to_prop; cbn; try reflexivity; lia.
Qed.

Lemma days_in_month_le y m : days_in_month y m <= 31.
Proof.
  unfold days_in_month.
  repeat match goal with
         | |- context [match ?p with _ => _ end] => destruct p
         end; lia.
Qed.

Lemma make_date_guard y m d :
  (if in_range 1 12 m && in_range 1 31 d then make_date y m d
   else Raise ValueError) = make_date y m d.
Proof.
  unfold make_date, valid_date.
  destruct (in_range 1 12 m) eqn:Hm; cbn [andb];
    [|rewrite andb_false_r; reflexivity].
  destruct (in_range 1 31 d) eqn:Hd; [reflexivity|].
  replace (in_range 1 (days_in_month y m) d) with false;
    [rewrite andb_false_r; reflexivity|].
  symmetry. unfold in_range in *. pose proof (days_in_month_le y m).
  apply andb_false_iff in Hd. apply andb_false_iff.
  destruct Hd as [Hd|Hd]; [left; exact Hd | right].
  apply N.leb_gt in Hd. apply N.leb_gt. lia.
Qed.

(** [strptime] on dddd-dd-dd with ASCII month and day digits is the date
    constructor on the numbers written. *)
Lemma strptime_ascii y1 y2 y3 y4 m1 m2 d1 d2 :
  forallb is_digit [y1; y2; y3; y4] = true ->
  forallb is_ascii_digit [m1; m2; d1; d2] = true ->
  strptime_Ymd [y1; y2; y3; y4; ch_minus; m1; m2; ch_minus; d1; d2]
  = make_date (number [y1; y2; y3; y4]) (number [m1; m2]) (number [d1; d2]).
Proof.
  intros Hy Ha. cbn [forallb] in Hy, Ha.
  unfold is_ascii_digit, in_range in Ha.
  rewrite !andb_true_iff, !N.leb_le in Ha.
  destruct Ha as ([? ?] & [? ?] & [? ?] & [? ?] & _).
  rewrite strptime_shape.
  - rewrite month_full_ascii, day_full_ascii by lia. apply make_date_guard.
  - cbn [forallb]. rewrite !andb_true_iff in *.
    repeat split; try apply Hy; try (apply ascii_is_digit; lia).
Qed.

(** Greedy repetitions that stop at the end of the run. *)

Lemma rep_chr_star_run p ws rest c k a :
  forallb p ws = true -> stops p rest -> k rest c = Some a ->
  rep_chr p 0 None (ws ++ rest) c k = Some a.
Proof.
  intros Hws Hrest Hk. induction ws as [|x ws IH].
  - cbn [app]. destruct rest as [|r rest]; cbn [rep_chr]; [exact Hk|].
    cbn in Hrest. rewrite Hrest. exact Hk.
  - cbn in Hws. apply andb_true_iff in Hws as [Hx Hws].
    cbn [app rep_chr option_map Nat.pred]. rewrite Hx, (IH Hws). reflexivity.
Qed.

Lemma digits12_cases s :
  digits12 s = true ->
  (exists a, s = [a] /\ is_digit a = true) \/
  (exists a b, s = [a; b] /\ is_digit a = true /\ is_digit b = true).
Proof.
  unfold digits12. intros H. apply andb_true_iff in H as [Hd Hl].
  destruct s as [|a [|b [|x s]]]; try discriminate; cbn in Hd;
    rewrite ?andb_true_r in Hd.
  - left. eauto.
  - apply andb_true_iff in Hd as [Ha Hb]. right. eauto.
Qed.

Lemma rep12_run s rest c k a :
  digits12 s = true -> stops is_digit rest -> k rest c = Some a ->
  rep_chr is_digit 1 (Some 2%nat) (s ++ rest) c k = Some a.
Proof.
  intros Hs Hrest Hk.
  destruct (digits12_cases s Hs) as [(x & -> & Hx)|(x & y & -> & Hx & Hy)].
  - cbn [app rep_chr option_map Nat.pred]. rewrite Hx.
    destruct rest as [|r rest]; cbn [rep_chr]; [rewrite Hk; reflexivity|].
    cbn in Hrest. rewrite Hrest, Hk. reflexivity.
  - cbn [app rep_chr option_map Nat.pred]. rewrite Hx, Hy.
    destruct rest; cbn [rep_chr]; rewrite Hk; reflexivity.
Qed.

Lemma re_search_eq r s :
  re_search r s =
  match re_match r s with
  | Some (rest, c) => Some (MatchObj s rest c)
  | None => match s with [] => None | _ :: s' => re_search r s' end
  end.
Proof. destruct s; reflexivity. Qed.

Lemma digits12_hd s rest : digits12 s = true -> stops is_space (s ++ rest).
Proof.
  intros Hs.
  destruct (digits12_cases s Hs) as [(x & -> & Hx)|(x & y & -> & Hx & Hy)];
    cbn; apply is_digit_not_space, Hx.
Qed.

Lemma wol_not_digit : is_digit ch_wol = false.
Proof. reflexivity. Qed.

Lemma il_not_digit : is_digit ch_il = false.
Proof. reflexivity. Qed.

Lemma rmatch_Seq r1 r2 s c k :
  rmatch (Seq r1 r2) s c k = rmatch r1 s c (fun s' c' => rmatch r2 s' c' k).
Proof. reflexivity. Qed.

Lemma rmatch_Grp i r s c k :
  rmatch (Grp i r) s c k
  = rmatch r s c (fun s' c' => k s' ((i, consumed s s') :: c')).
Proof. reflexivity. Qed.

Lemma rmatch_Chr p x s c k :
  rmatch (Chr p) (x :: s) c k = if p x then k s c else None.
Proof. reflexivity. Qed.

Lemma rmatch_Lit x s c k : rmatch (Lit x) (x :: s) c k = k s c.
Proof. unfold Lit. rewrite rmatch_Chr, N.eqb_refl. reflexivity. Qed.

(** The inner search of the "M월 D일" branch. *)
Lemma search_month_day M ws D :
  digits12 M = true -> forallb is_space ws = true -> digits12 D = true ->
  re_search month_day_pattern (M ++ [ch_wol] ++ ws ++ D ++ [ch_il])
  = Some (MatchObj (M ++ [ch_wol] ++ ws ++ D ++ [ch_il]) []
                   [(2%nat, D); (1%nat, M)]).
Proof.
  intros HM Hws HD. rewrite re_search_eq.
  assert (Hmatch : re_match month_day_pattern (M ++ [ch_wol] ++ ws ++ D ++ [ch_il])
                   = Some ([], [(2%nat, D); (1%nat, M)])).
  { unfold re_match, month_day_pattern.
    rewrite rmatch_Seq, rmatch_Grp, rmatch_rep_chr.
    apply rep12_run; [exact HM | exact wol_not_digit |].
    rewrite consumed_app.
    cbn [app]. rewrite rmatch_Seq, rmatch_Lit.
    unfold Star. rewrite rmatch_Seq, rmatch_rep_chr.
    apply rep_chr_star_run; [exact Hws | apply digits12_hd, HD |].
    rewrite rmatch_Seq, rmatch_Grp, rmatch_rep_chr.
    apply rep12_run; [exact HD | exact il_not_digit |].
    rewrite consumed_app, rmatch_Lit. reflexivity. }
  rewrite Hmatch. reflexivity.
Qed.

Lemma number_lt_100 s : digits12 s = true -> number s < 100.
Proof.
  intros Hs.
  assert (Hv : forall c, digit_val c <= 9).
  { intros c. unfold digit_val. destruct (decimal_value c) as [[]|]; cbn; lia. }
  destruct (digits12_cases s Hs) as [(x & -> & Hx)|(x & y & -> & Hx & Hy)];
    unfold number; cbn [fold_left].
  - pose proof (Hv x). lia.
  - pose proof (Hv x). pose proof (Hv y). lia.
Qed.

Lemma digits12_digits s : digits12 s = true -> forallb is_digit s = true /\ s <> [].
Proof.
  intros Hs.
  destruct (digits12_cases s Hs) as [(x & -> & Hx)|(x & y & -> & Hx & Hy)];
    cbn; rewrite ?Hx, ?Hy; split; try reflexivity; discriminate.
Qed.

Lemma number_zero_pad_2 n :
  n < 100 ->
  exists a b, zero_pad 2 n = [a; b] /\
              forallb is_ascii_digit [a; b] = true /\ number [a; b] = n.
Proof.
  intros H. rewrite (zero_pad_2 H).
  assert (Ha : 48 <= 48 + n / 10 <= 57) by div_lia.
  assert (Hb : 48 <= 48 + n mod 10 <= 57) by div_lia.
  exists (48 + n / 10), (48 + n mod 10). split; [reflexivity|]. split.
  - cbn [forallb]. unfold is_ascii_digit, in_range.
    rewrite !andb_true_iff, !N.leb_le. div_lia.
  - rewrite number_2 by assumption. div_lia.
Qed.

(** ** The three branches of the [try] block *)

(** "M월 D일": the date constructor on 2024 and the two numbers. *)
Lemma parse_month_day M ws D :
  digits12 M = true -> forallb is_space ws = true -> digits12 D = true ->
  parse_raw_date (M ++ [ch_wol] ++ ws ++ D ++ [ch_il])
  = make_date 2024 (number M) (number D).
Proof.
  intros HM Hws HD. unfold parse_raw_date.
  replace (existsb (N.eqb ch_wol) (M ++ [ch_wol] ++ ws ++ D ++ [ch_il]))
    with true
    by (rewrite !existsb_app; cbn [existsb]; rewrite N.eqb_refl;
        rewrite orb_true_r; reflexivity).
  rewrite (search_month_day M ws D HM Hws HD).
  cbn [not_none bind m_group m_caps group Nat.eqb].
  destruct (digits12_digits M HM) as [HMd HMn].
  destruct (digits12_digits D HD) as [HDd HDn].
  rewrite (py_int_digits M HMd HMn), (py_int_digits D HDd HDn).
  cbn [bind].
  destruct (number_zero_pad_2 (number M) (number_lt_100 M HM))
    as (a & b & -> & HaM & HnM).
  destruct (number_zero_pad_2 (number D) (number_lt_100 D HD))
    as (a' & b' & -> & HaD & HnD).
  change (u "2024-" ++ [a; b] ++ u "-" ++ [a'; b'])
    with [50; 48; 50; 52; ch_minus; a; b; ch_minus; a'; b'].
  rewrite strptime_ascii.
  - rewrite HnM, HnD. reflexivity.
  - reflexivity.
  - cbn [forallb] in *. rewrite !andb_true_iff in *.
    repeat split; try apply HaM; apply HaD.
Qed.

(** A bare four-digit code. *)
Lemma parse_mmdd c1 c2 c3 c4 :
  forallb is_digit [c1; c2; c3; c4] = true ->
  parse_raw_date [c1; c2; c3; c4]
  = if month_full c1 c2 && day_full c3 c4
    then make_date 2024 (number [c1; c2]) (number [c3; c4])
    else Raise ValueError.
Proof.
  intros H. unfold parse_raw_date.
  assert (Hw : forall c, is_digit c = true -> (ch_wol =? c) = false)
    by (intros c Hc; apply (is_digit_not_hangul c ch_wol Hc); reflexivity).
  pose proof H as H'. cbn [forallb] in H'. rewrite !andb_true_iff in H'.
  destruct H' as (H1 & H2 & H3 & H4 & _).
  cbn [existsb]. rewrite !Hw by assumption. cbn [orb].
  unfold Times. rewrite fullmatch_rep_chr, H. cbn [length Nat.leb le_opt andb].
  cbn [firstn skipn].
  change (u "2024-" ++ [c1; c2] ++ u "-" ++ [c3; c4])
    with [50; 48; 50; 52; ch_minus; c1; c2; ch_minus; c3; c4].
  rewrite strptime_shape; [reflexivity|].
  cbn [forallb]. rewrite H1, H2, H3, H4. reflexivity.
Qed.

Lemma wol_not_digit_char c : is_digit c = true -> (ch_wol =? c) = false.
Proof. intros Hc. apply (is_digit_not_hangul c ch_wol Hc). reflexivity. Qed.

Lemma digit_not_dot c : is_digit c = true -> (c =? ch_dot) = false.
Proof.
  intros Hc. rewrite N.eqb_sym.
  apply (is_digit_not_ascii_nondigit c ch_dot Hc); [reflexivity | reflexivity].
Qed.

Lemma digit_not_minus c : is_digit c = true -> (45 =? c) = false.
Proof.
  intros Hc. apply (is_digit_not_ascii_nondigit c 45 Hc); [lia | reflexivity].
Qed.

Lemma dot_or_minus_cases s : dot_or_minus s = true -> s = ch_dot \/ s = ch_minus.
Proof.
  unfold dot_or_minus. intros H. apply orb_true_iff in H as [H|H];
    apply N.eqb_eq in H; auto.
Qed.

Lemma forallb_digits_8 y1 y2 y3 y4 m1 m2 d1 d2 :
  forallb is_digit [y1; y2; y3; y4; m1; m2; d1; d2] = true ->
  is_digit y1 = true /\ is_digit y2 = true /\ is_digit y3 = true /\
  is_digit y4 = true /\ is_digit m1 = true /\ is_digit m2 = true /\
  is_digit d1 = true /\ is_digit d2 = true.
Proof.
  cbn [forallb]. rewrite !andb_true_iff.
  intros (H1 & H2 & H3 & H4 & H5 & H6 & H7 & H8 & _).
  repeat split; assumption.
Qed.

(** A date with both separators. *)
Lemma parse_ymd y1 y2 y3 y4 s1 m1 m2 s2 d1 d2 :
  forallb is_digit [y1; y2; y3; y4; m1; m2; d1; d2] = true ->
  dot_or_minus s1 = true -> dot_or_minus s2 = true ->
  parse_raw_date [y1; y2; y3; y4; s1; m1; m2; s2; d1; d2]
  = if month_full m1 m2 && day_full d1 d2
    then make_date (number [y1; y2; y3; y4]) (number [m1; m2]) (number [d1; d2])
    else Raise ValueError.
Proof.
  intros H Hs1 Hs2.
  destruct (forallb_digits_8 _ _ _ _ _ _ _ _ H)
    as (Hy1 & Hy2 & Hy3 & Hy4 & Hm1 & Hm2 & Hd1 & Hd2).
  assert (Hw1 : (ch_wol =? s1) = false)
    by (destruct (dot_or_minus_cases s1 Hs1) as [->| ->]; reflexivity).
  assert (Hw2 : (ch_wol =? s2) = false)
    by (destruct (dot_or_minus_cases s2 Hs2) as [->| ->]; reflexivity).
  unfold parse_raw_date. cbn [existsb].
  rewrite (wol_not_digit_char y1 Hy1), (wol_not_digit_char y2 Hy2),
    (wol_not_digit_char y3 Hy3), (wol_not_digit_char y4 Hy4),
    (wol_not_digit_char m1 Hm1), (wol_not_digit_char m2 Hm2),
    (wol_not_digit_char d1 Hd1), (wol_not_digit_char d2 Hd2), Hw1, Hw2.
  cbn [orb].
  unfold Times. rewrite fullmatch_rep_chr.
  cbn [length Nat.leb le_opt]. rewrite andb_false_r.
  assert (Hr : replace_char ch_dot ch_minus [y1; y2; y3; y4; s1; m1; m2; s2; d1; d2]
               = [y1; y2; y3; y4; ch_minus; m1; m2; ch_minus; d1; d2]).
  { unfold replace_char. cbn [map].
    rewrite (digit_not_dot y1 Hy1), (digit_not_dot y2 Hy2),
      (digit_not_dot y3 Hy3), (digit_not_dot y4 Hy4), (digit_not_dot m1 Hm1),
      (digit_not_dot m2 Hm2), (digit_not_dot d1 Hd1), (digit_not_dot d2 Hd2).
    destruct (dot_or_minus_cases s1 Hs1) as [->| ->];
      destruct (dot_or_minus_cases s2 Hs2) as [->| ->]; reflexivity. }
  rewrite Hr. apply strptime_shape, H.
Qed.

Lemma rmatch_Y_fail (R : regex) y1 y2 y3 y4 x rest c k :
  (45 =? x) = false ->
  rmatch (re_Y +> Lit ch_minus +> R) (y1 :: y2 :: y3 :: y4 :: x :: rest) c k = None.
Proof.
  intros Hx. unfold re_Y, Lit, ch_minus. cbn [rmatch]. rewrite Hx.
  destruct (is_digit y1), (is_digit y2), (is_digit y3), (is_digit y4); reflexivity.
Qed.

Lemma rmatch_month_fail (R : regex) m1 m2 x rest c k :
  (45 =? m2) = false -> (45 =? x) = false ->
  rmatch (re_m +> Lit ch_minus +> R) (m1 :: m2 :: x :: rest) c k = None.
Proof.
  intros Hm Hx. unfold re_m, Lit, ch_minus. cbn [rmatch]. rewrite Hm, Hx.
  destruct (49 =? m1), (in_range 48 50 m2), (48 =? m1), (in_range 49 57 m2),
    (in_range 49 57 m1); reflexivity.
Qed.

(** A date without the first or without the second separator is matched by
    the pattern but not by the format "%Y-%m-%d". *)
Lemma parse_ymd_compact y1 y2 y3 y4 (s1 s2 : str) m1 m2 d1 d2 :
  forallb is_digit [y1; y2; y3; y4; m1; m2; d1; d2] = true ->
  (s1 = [] \/ s2 = []) ->
  (forall x, In x (s1 ++ s2) -> dot_or_minus x = true) ->
  (length s1 <= 1)%nat -> (length s2 <= 1)%nat ->
  parse_raw_date ([y1; y2; y3; y4] ++ s1 ++ [m1; m2] ++ s2 ++ [d1; d2])
  = Raise ValueError.
Proof.
  intros H Hempty Hsep Hl1 Hl2.
  destruct (forallb_digits_8 _ _ _ _ _ _ _ _ H)
    as (Hy1 & Hy2 & Hy3 & Hy4 & Hm1 & Hm2 & Hd1 & Hd2).
  assert (Hw : forall x, dot_or_minus x = true -> (ch_wol =? x) = false)
    by (intros x Hx; destruct (dot_or_minus_cases x Hx) as [->| ->]; reflexivity).
  assert (Hrep : forall x, dot_or_minus x = true ->
                           (if x =? ch_dot then ch_minus else x) = ch_minus)
    by (intros x Hx; destruct (dot_or_minus_cases x Hx) as [->| ->]; reflexivity).
  unfold parse_raw_date.
  destruct s1 as [|a [|? ?]], s2 as [|b [|? ?]];
    try (cbn in Hl1, Hl2; lia); try (destruct Hempty; discriminate);
    cbn [app existsb];
    rewrite (wol_not_digit_char y1 Hy1), (wol_not_digit_char y2 Hy2),
      (wol_not_digit_char y3 Hy3), (wol_not_digit_char y4 Hy4),
      (wol_not_digit_char m1 Hm1), (wol_not_digit_char m2 Hm2),
      (wol_not_digit_char d1 Hd1), (wol_not_digit_char d2 Hd2),
      ?Hw by (apply Hsep; cbn; auto);
    cbn [orb]; unfold Times; rewrite fullmatch_rep_chr;
    cbn [length Nat.leb le_opt]; rewrite andb_false_r;
    unfold replace_char; cbn [map];
    rewrite (digit_not_dot y1 Hy1), (digit_not_dot y2 Hy2),
      (digit_not_dot y3 Hy3), (digit_not_dot y4 Hy4), (digit_not_dot m1 Hm1),
      (digit_not_dot m2 Hm2), (digit_not_dot d1 Hd1), (digit_not_dot d2 Hd2),
      ?Hrep by (apply Hsep; cbn; auto);
    unfold strptime_Ymd, re_match, strptime_regex.
  - rewrite rmatch_Y_fail by (apply digit_not_minus, Hm1). reflexivity.
  - rewrite rmatch_Y_fail by (apply digit_not_minus, Hm1). reflexivity.
  - rewrite rmatch_Y by assumption.
    rewrite rmatch_month_fail by (apply digit_not_minus; assumption).
    reflexivity.
Qed.

Lemma guarded_make_date_Ok (b : bool) y m d dt :
  (if b then make_date y m d else Raise ValueError) = Ok dt ->
  dt = Date y m d /\ valid_date y m d = true.
Proof. destruct b; [apply make_date_Ok | discriminate]. Qed.

(** Whatever the [try] block returns is the date the text denotes. *)
Lemma parse_denotes raw y m d dt :
  denotes raw y m d -> parse_raw_date raw = Ok dt ->
  dt = Date y m d /\ valid_date y m d = true.
Proof.
  intros Hden. destruct Hden as
      [y1 y2 y3 y4 s1 s2 m1 m2 d1 d2 Hdig Hl1 Hl2 Hsep
      | M ws D HM Hws HD
      | c1 c2 c3 c4 Hdig].
  - assert (Hsep' : forall x, In x (s1 ++ s2) -> dot_or_minus x = true)
      by (intros x Hx; apply (proj1 (forallb_forall _ _) Hsep x Hx)).
    destruct s1 as [|a [|? ?]], s2 as [|b [|? ?]];
      try (cbn in Hl1, Hl2; lia);
      try (rewrite parse_ymd_compact; auto; discriminate).
    cbn [app] in *. cbn [forallb] in Hsep.
    rewrite !andb_true_iff in Hsep. destruct Hsep as (Ha & Hb & _).
    rewrite (parse_ymd _ _ _ _ _ _ _ _ _ _ Hdig Ha Hb).
    apply guarded_make_date_Ok.
  - rewrite (parse_month_day M ws D HM Hws HD). apply make_date_Ok.
  - rewrite (parse_mmdd _ _ _ _ Hdig). apply guarded_make_date_Ok.
Qed.

Lemma extract_date_of_match filename m raw :
  re_search date_pattern filename = Some m -> m_group 1 m = Some raw ->
  extract_date_from_filename filename = try_except_none (parse_raw_date raw).
Proof.
  intros Hs Hg. unfold extract_date_from_filename. rewrite Hs, Hg. reflexivity.
Qed.

Lemma ascii_digits_are_digits l :
  forallb is_ascii_digit l = true -> forallb is_digit l = true.
Proof.
  induction l as [|x l IH]; [reflexivity|]. cbn [forallb].
  rewrite !andb_true_iff. intros [Hx Hl]. split; [|apply IH, Hl].
  unfold is_ascii_digit, in_range in Hx.
  rewrite andb_true_iff, !N.leb_le in Hx. apply ascii_is_digit. lia.
Qed.

(** A date with both separators and ASCII month and day digits. *)
Lemma parse_separated_date y1 y2 y3 y4 s1 m1 m2 s2 d1 d2 :
  forallb is_digit [y1; y2; y3; y4] = true ->
  forallb is_ascii_digit [m1; m2; d1; d2] = true ->
  dot_or_minus s1 = true -> dot_or_minus s2 = true ->
  parse_raw_date [y1; y2; y3; y4; s1; m1; m2; s2; d1; d2]
  = make_date (number [y1; y2; y3; y4]) (number [m1; m2]) (number [d1; d2]).
Proof.
  intros Hy Ha Hs1 Hs2.
  assert (Hdig : forallb is_digit [y1; y2; y3; y4; m1; m2; d1; d2] = true).
  { change [y1; y2; y3; y4; m1; m2; d1; d2]
      with ([y1; y2; y3; y4] ++ [m1; m2; d1; d2]).
    rewrite forallb_app, Hy, (ascii_digits_are_digits _ Ha). reflexivity. }
  cbn [forallb] in Ha. unfold is_ascii_digit, in_range in Ha.
  rewrite !andb_true_iff, !N.leb_le in Ha.
  destruct Ha as ([? ?] & [? ?] & [? ?] & [? ?] & _).
  rewrite (parse_ymd _ _ _ _ _ _ _ _ _ _ Hdig Hs1 Hs2).
  rewrite month_full_ascii, day_full_ascii by lia.
  apply make_date_guard.
Qed.

(** C2 (amended). When the first match of the date pattern is a date with
    both separators, each a dot or a hyphen, that denotes a calendar date,
    the result is that date: the year is the one written. *)
Theorem separated_date_is_literal
        filename m y1 y2 y3 y4 s1 m1 m2 s2 d1 d2 :
  re_search date_pattern filename = Some m ->
  m_group 1 m = Some [y1; y2; y3; y4; s1; m1; m2; s2; d1; d2] ->
  forallb is_digit [y1; y2; y3; y4] = true ->
  forallb is_ascii_digit [m1; m2; d1; d2] = true ->
  dot_or_minus s1 = true -> dot_or_minus s2 = true ->
  valid_date (number [y1; y2; y3; y4]) (number [m1; m2]) (number [d1; d2])
  = true ->
  extract_date_from_filename filename
  = Some (Date (number [y1; y2; y3; y4]) (number [m1; m2]) (number [d1; d2])).
Proof.
  intros Hs Hg Hy Ha Hs1 Hs2 Hvalid.
  rewrite (extract_date_of_match _ _ _ Hs Hg).
  rewrite (parse_separated_date _ _ _ _ _ _ _ _ _ _ Hy Ha Hs1 Hs2).
  unfold make_date. rewrite Hvalid. reflexivity.
Qed.

(** C7 (amended). When the first match of the date pattern is an "M월 D일"
    phrase (decimal digits of any script), or a bare four-digit code MMDD
    written with ASCII digits, whose month and day exist in 2024, the
    result is that day of 2024; so for the two file names of the
    specification. *)
Theorem month_day_dates_are_in_2024 :
  (forall filename m M ws D,
      re_search date_pattern filename = Some m ->
      m_group 1 m = Some (M ++ [ch_wol] ++ ws ++ D ++ [ch_il]) ->
      digits12 M = true -> forallb is_space ws = true -> digits12 D = true ->
      valid_date 2024 (number M) (number D) = true ->
      extract_date_from_filename filename
      = Some (Date 2024 (number M) (number D)))
  /\
  (forall filename m c1 c2 c3 c4,
      re_search date_pattern filename = Some m ->
      m_group 1 m = Some [c1; c2; c3; c4] ->
      forallb is_ascii_digit [c1; c2; c3; c4] = true ->
      valid_date 2024 (number [c1; c2]) (number [c3; c4]) = true ->
      extract_date_from_filename filename
      = Some (Date 2024 (number [c1; c2]) (number [c3; c4])))
  /\
  extract_date_from_filename (u"0509출석.txt") = Some (Date 2024 5 9)
  /\
  extract_date_from_filename (u"5월 9일 모임.txt") = Some (Date 2024 5 9).
Proof.
  split; [|split; [|split; reflexivity]].
  - intros filename m M ws D Hs Hg HM Hws HD Hvalid.
    rewrite (extract_date_of_match _ _ _ Hs Hg).
    rewrite (parse_month_day M ws D HM Hws HD).
    unfold make_date. rewrite Hvalid. reflexivity.
  - intros filename m c1 c2 c3 c4 Hs Hg Ha Hvalid.
    rewrite (extract_date_of_match _ _ _ Hs Hg).
    pose proof Ha as Ha'. cbn [forallb] in Ha'.
    unfold is_ascii_digit, in_range in Ha'.
    rewrite !andb_true_iff, !N.leb_le in Ha'.
    destruct Ha' as ([? ?] & [? ?] & [? ?] & [? ?] & _).
    rewrite parse_mmdd.
    + rewrite month_full_ascii, day_full_ascii by lia.
      rewrite make_date_guard. unfold make_date. rewrite Hvalid. reflexivity.
    + cbn [forallb]. rewrite !andb_true_iff.
      repeat split; apply ascii_is_digit; lia.
Qed.

Lemma process_file_same a b f a' :
  same_aggregate a b -> process_file a f = Ok a' ->
  exists b', process_file b f = Ok b' /\ same_aggregate a' b'.
Proof.
  intros [Hp Hd]. unfold process_file.
  destruct (extract_date_from_filename (file_name f)) as [d|].
  - destruct (utf8_decode (file_bytes f)) as [content|]; cbn; [|discriminate].
    destruct (extract_names_from_text content) as [raw warns].
    intros [= <-]. eexists. split; [reflexivity|].
    split; cbn; rewrite ?Hp, ?Hd; reflexivity.
  - intros [= <-]. eexists. split; [reflexivity|]. split; assumption.
Qed.

Lemma process_files_same files : forall a b a',
  same_aggregate a b -> process_files a files = Ok a' ->
  exists b', process_files b files = Ok b' /\ same_aggregate a' b'.
Proof.
  induction files as [|f fs IH]; intros a b a' Hab; cbn.
  - intros [= <-]. eauto.
  - destruct (process_file a f) as [a1|e] eqn:E; cbn; [|discriminate].
    destruct (process_file_same a b f a1 Hab E) as (b1 & -> & Hab1). cbn.
    apply IH, Hab1.
Qed.

Lemma build_report_same a b :
  same_aggregate a b -> build_report a = build_report b.
Proof. intros [Hp Hd]. unfold build_report. rewrite Hp, Hd. reflexivity. Qed.

Lemma shown_grows files : forall st st' msg,
  process_files st files = Ok st' -> In msg (shown st) -> In msg (shown st').
Proof.
  intros st st' msg Hrun Hin. revert Hrun.
  apply (process_files_ind (fun s => In msg (shown s))); [|exact Hin].
  intros s f s' Hs Hf.
  apply process_file_inv in Hf
    as [(_ & _ & _ & ->)|(d & c & _ & _ & _ & _ & ->)];
    apply in_or_app; auto.
Qed.

Lemma process_file_undated st f :
  extract_date_from_filename (file_name f) = None ->
  process_file st f
  = Ok (State (participation st) (all_dates st) (shown st ++ [date_error f])).
Proof. intros H. unfold process_file. rewrite H. reflexivity. Qed.

(** C3 (amended). The line of the specification gives one raw name,
    "홍길동": the pattern skips the group label "1조".  Normalisation
    returns "홍길동" for it, and for "1조 홍길동" as well. *)
Theorem example_line_gives_hong_gildong :
  extract_names_from_text (u"3) 1조 홍길동") = ([u"홍길동"], []) /\
  normalize_name_to_core (u"홍길동") = u"홍길동" /\
  normalize_name_to_core (u"1조 홍길동") = u"홍길동".
Proof. repeat split; reflexivity. Qed.

(** * Soundness of the matcher

    Whatever [rmatch] returns comes from its continuation, called on a
    suffix that is left after a word of the language of the expression. *)

Lemma rep_loop_sound (body : str -> caps -> cont -> option mres) (r : regex) :
  (forall s c k a, body s c k = Some a ->
                   exists s1 s2 c', s = s1 ++ s2 /\ lang r s1 /\ k s2 c' = Some a) ->
  forall n lo hi s c k a,
    rep_loop body n lo hi s c k = Some a ->
    exists s1 s2 c', s = s1 ++ s2 /\ lang (Rep lo hi r) s1 /\ k s2 c' = Some a.
Proof.
  intros Hbody. induction n as [|n IH]; intros lo hi s c k a H; [discriminate|].
  cbn [rep_loop] in H.
  assert (Hstop : match lo with O => k s c | S _ => None end = Some a ->
                  exists s1 s2 c', s = s1 ++ s2 /\ lang (Rep lo hi r) s1 /\
                                   k s2 c' = Some a).
  { destruct lo; [|discriminate]. intros Hk.
    exists [], s, c. repeat split; [constructor | exact Hk]. }
  remember (body s c (fun s' c' =>
                        if (length s' <? length s)%nat
                        then rep_loop body n (Nat.pred lo)
                                      (option_map Nat.pred hi) s' c' k
                        else None)) as B eqn:EB.
  assert (Hmore : hi <> Some O -> B = Some a ->
                  exists s1 s2 c', s = s1 ++ s2 /\ lang (Rep lo hi r) s1 /\
                                   k s2 c' = Some a).
  { intros Hhi Hb. rewrite EB in Hb.
    apply Hbody in Hb as (s1 & s2 & c1 & -> & Hl & Hk).
    destruct (length s2 <? length (s1 ++ s2))%nat; [|discriminate].
    apply IH in Hk as (t1 & t2 & c2 & -> & Hl' & Hk).
    exists (s1 ++ t1), t2, c2. rewrite app_assoc.
    repeat split; [|exact Hk]. apply lang_rep_more; assumption. }
  clear EB.
  destruct hi as [[|h]|]; [apply Hstop, H | |].
  - destruct B; [|apply Hstop, H].
    injection H as <-. apply Hmore; [discriminate | reflexivity].
  - destruct B; [|apply Hstop, H].
    injection H as <-. apply Hmore; [discriminate | reflexivity].
Qed.

Theorem rmatch_sound r : forall s c k a,
  rmatch r s c k = Some a ->
  exists s1 s2 c', s = s1 ++ s2 /\ lang r s1 /\ k s2 c' = Some a.
Proof.
  induction r as [p|r1 IH1 r2 IH2|r1 IH1 r2 IH2|lo hi r IH|i r IH];
    intros s c k a H.
  - destruct s as [|x s]; [discriminate|]. cbn [rmatch] in H.
    destruct (p x) eqn:Hp; [|discriminate].
    exists [x], s, c. repeat split; [constructor; exact Hp | exact H].
  - rewrite rmatch_Seq in H.
    apply IH1 in H as (s1 & s2 & c1 & -> & Hl1 & H).
    apply IH2 in H as (t1 & t2 & c2 & -> & Hl2 & H).
    exists (s1 ++ t1), t2, c2. rewrite app_assoc.
    repeat split; [constructor; assumption | exact H].
  - cbn [rmatch] in H. destruct (rmatch r1 s c k) eqn:E.
    + injection H as <-. apply IH1 in E as (s1 & s2 & c1 & -> & Hl & E).
      exists s1, s2, c1. repeat split; [apply lang_alt_l, Hl | exact E].
    + apply IH2 in H as (s1 & s2 & c1 & -> & Hl & H).
      exists s1, s2, c1. repeat split; [apply lang_alt_r, Hl | exact H].
  - apply (rep_loop_sound (rmatch r) r IH) in H. exact H.
  - rewrite rmatch_Grp in H.
    apply IH in H as (s1 & s2 & c1 & -> & Hl & H).
    exists s1, s2, ((i, consumed (s1 ++ s2) s2) :: c1).
    repeat split; [constructor; exact Hl | exact H].
Qed.

(** The text of a group that ends the expression. *)
Lemma rmatch_group_sound i r s c rest cs :
  rmatch (Grp i r) s c accept_any = Some (rest, cs) ->
  exists g, s = g ++ rest /\ lang r g /\ group i cs = Some g.
Proof.
  intros H. rewrite rmatch_Grp in H.
  apply rmatch_sound in H as (s1 & s2 & c1 & -> & Hl & H).
  unfold accept_any in H. injection H as <- <-.
  exists s1. repeat split; [exact Hl|].
  cbn [group]. rewrite Nat.eqb_refl, consumed_app. reflexivity.
Qed.

Lemma re_search_Some r s m :
  re_search r s = Some m -> re_match r (m_from m) = Some (m_rest m, m_caps m).
Proof.
  induction s as [|x s IH]; cbn [re_search].
  - destruct (re_match r []) as [[rest c]|] eqn:E; [|discriminate].
    intros [= <-]. exact E.
  - destruct (re_match r (x :: s)) as [[rest c]|] eqn:E; [|exact IH].
    intros [= <-]. exact E.
Qed.

(** Words of the repetition of a character class. *)
Lemma lang_rep_chr p lo hi s :
  lang (Rep lo hi (Chr p)) s ->
  forallb p s = true /\ (lo <= length s)%nat /\ le_opt (length s) hi = true.
Proof.
  intros H. remember (Rep lo hi (Chr p)) as r eqn:Er.
  revert lo hi Er.
  induction H as [| | | |hi' r'|lo' hi' r' s1 s2 Hhi H1 _ H2 IH|];
    intros lo hi Er; try discriminate.
  - injection Er as E1 E2 E3. subst.
    repeat split; [cbn; lia|]. destruct hi; reflexivity.
  - injection Er as E1 E2 E3. subst.
    inversion H1; subst.
    destruct (IH _ _ eq_refl) as (Hall & Hlo & Hhi').
    cbn [app forallb length]. rewrite H0, Hall.
    repeat split; [lia|].
    destruct hi as [[|h]|]; [contradiction Hhi; reflexivity | | reflexivity].
    cbn in Hhi' |- *. exact Hhi'.
Qed.

Lemma lang_lit x s : lang (Lit x) s -> s = [x].
Proof.
  unfold Lit. intros H. inversion H as [p y Hy| | | | | |]; subst.
  apply N.eqb_eq in Hy. subst. reflexivity.
Qed.

Lemma lang_seq_inv r1 r2 s :
  lang (Seq r1 r2) s -> exists s1 s2, s = s1 ++ s2 /\ lang r1 s1 /\ lang r2 s2.
Proof. intros H. inversion H; subst. eauto. Qed.

Lemma lang_alt_inv r1 r2 s : lang (Alt r1 r2) s -> lang r1 s \/ lang r2 s.
Proof. intros H. inversion H; subst; auto. Qed.

Lemma digits_of_length_4 s :
  forallb is_digit s = true -> (4 <= length s)%nat ->
  le_opt (length s) (Some 4%nat) = true ->
  exists a b c d, s = [a; b; c; d].
Proof.
  intros _ Hlo Hhi. cbn in Hhi. apply Nat.leb_le in Hhi.
  destruct s as [|a [|b [|c [|d [|e s]]]]]; cbn in Hlo, Hhi; try lia. eauto.
Qed.

Lemma digits_of_length_2 s :
  forallb is_digit s = true -> (2 <= length s)%nat ->
  le_opt (length s) (Some 2%nat) = true ->
  exists a b, s = [a; b].
Proof.
  intros _ Hlo Hhi. cbn in Hhi. apply Nat.leb_le in Hhi.
  destruct s as [|a [|b [|c s]]]; cbn in Hlo, Hhi; try lia. eauto.
Qed.

Lemma digits12_of_lang s :
  lang (Rep 1 (Some 2%nat) (Chr is_digit)) s -> digits12 s = true.
Proof.
  intros H. apply lang_rep_chr in H as (Hall & Hlo & Hhi).
  unfold digits12. rewrite Hall. cbn in Hhi. apply Nat.leb_le in Hhi.
  destruct s as [|a [|b [|c s]]]; cbn in Hlo, Hhi |- *; try lia; reflexivity.
Qed.

(** Every text matched by the date pattern denotes a year, a month and a
    day. *)
Lemma date_match_denotes filename m :
  re_search date_pattern filename = Some m ->
  exists raw y mo d, m_group 1 m = Some raw /\ denotes raw y mo d.
Proof.
  intros Hs. apply re_search_Some in Hs.
  unfold re_match, date_pattern in Hs.
  apply rmatch_group_sound in Hs as (g & _ & Hl & Hg).
  exists g. unfold m_group. rewrite Hg.
  apply lang_alt_inv in Hl as [Hl|Hl]; [|apply lang_alt_inv in Hl as [Hl|Hl]].
  - unfold Times, Opt in Hl.
    apply lang_seq_inv in Hl as (Y & t1 & -> & HY & Hl).
    apply lang_seq_inv in Hl as (S1 & t2 & -> & HS1 & Hl).
    apply lang_seq_inv in Hl as (M & t3 & -> & HM & Hl).
    apply lang_seq_inv in Hl as (S2 & D & -> & HS2 & HD).
    apply lang_rep_chr in HY as (HY & HYlo & HYhi).
    apply lang_rep_chr in HS1 as (HS1 & _ & HS1hi).
    apply lang_rep_chr in HM as (HM & HMlo & HMhi).
    apply lang_rep_chr in HS2 as (HS2 & _ & HS2hi).
    apply lang_rep_chr in HD as (HD & HDlo & HDhi).
    destruct (digits_of_length_4 Y HY HYlo HYhi) as (y1 & y2 & y3 & y4 & ->).
    destruct (digits_of_length_2 M HM HMlo HMhi) as (m1 & m2 & ->).
    destruct (digits_of_length_2 D HD HDlo HDhi) as (d1 & d2 & ->).
    do 3 eexists. split; [reflexivity|].
    apply denotes_ymd.
    + cbn [forallb] in *. rewrite !andb_true_iff in *.
      destruct HY as (? & ? & ? & ? & _), HM as (? & ? & _), HD as (? & ? & _).
      repeat split; assumption.
    + cbn in HS1hi. apply Nat.leb_le in HS1hi. exact HS1hi.
    + cbn in HS2hi. apply Nat.leb_le in HS2hi. exact HS2hi.
    + rewrite forallb_app, HS1, HS2. reflexivity.
  - unfold Star in Hl.
    apply lang_seq_inv in Hl as (M & t1 & -> & HM & Hl).
    apply lang_seq_inv in Hl as (w & t2 & -> & Hw & Hl).
    apply lang_seq_inv in Hl as (ws & t3 & -> & Hws & Hl).
    apply lang_seq_inv in Hl as (D & i & -> & HD & Hi).
    apply lang_lit in Hw, Hi. subst w i.
    apply lang_rep_chr in Hws as (Hws & _).
    do 3 eexists. split; [reflexivity|].
    apply denotes_month_day; [apply digits12_of_lang, HM | exact Hws |
                              apply digits12_of_lang, HD].
  - unfold Times in Hl. apply lang_rep_chr in Hl as (Hall & Hlo & Hhi).
    destruct (digits_of_length_4 g Hall Hlo Hhi) as (a & b & c & d & ->).
    do 3 eexists. split; [reflexivity|]. apply denotes_mmdd, Hall.
Qed.

(** Whatever the parser returns is the valid date that the first match of
    the pattern denotes. *)
Theorem extract_date_sound filename dt :
  extract_date_from_filename filename = Some dt ->
  exists m raw,
    re_search date_pattern filename = Some m /\ m_group 1 m = Some raw /\
    denotes raw (year dt) (month dt) (day dt) /\
    valid_date (year dt) (month dt) (day dt) = true.
Proof.
  intros H. unfold extract_date_from_filename in H.
  destruct (re_search date_pattern filename) as [m|] eqn:Hs; [|discriminate].
  destruct (date_match_denotes filename m Hs) as (raw & y & mo & d & Hg & Hden).
  rewrite Hg in H. cbn [not_none bind] in H.
  destruct (parse_raw_date raw) as [dt'|e] eqn:Hp; [|discriminate].
  injection H as ->.
  destruct (parse_denotes raw y mo d dt Hden Hp) as [-> Hv].
  exists m, raw. cbn [year month day]. auto.
Qed.

(** Group 1 of [pattern] takes part in every match. *)
Lemma pattern_group_1 line m :
  re_search pattern line = Some m -> exists g, m_group 1 m = Some g.
Proof.
  intros Hs. apply re_search_Some in Hs.
  unfold re_match, pattern in Hs.
  rewrite rmatch_Seq in Hs. apply rmatch_sound in Hs as (? & ? & ? & _ & _ & Hs).
  rewrite rmatch_Seq in Hs. apply rmatch_sound in Hs as (? & ? & ? & _ & _ & Hs).
  rewrite rmatch_Seq in Hs. apply rmatch_sound in Hs as (? & ? & ? & _ & _ & Hs).
  rewrite rmatch_Seq in Hs. apply rmatch_sound in Hs as (? & ? & ? & _ & _ & Hs).
  apply rmatch_group_sound in Hs as (g & _ & _ & Hg).
  exists g. exact Hg.
Qed.

(** C8. Without a match of the date pattern, or when the matched text
    denotes a date that does not exist, [extract_date_from_filename]
    returns None (a returned date is always the valid date that the match
    denotes); the loop then reports the file and goes on, and the aggregate
    and the report are those of the batch without that file. *)
Theorem unparseable_file_is_skipped :
  (forall filename,
      re_search date_pattern filename = None ->
      extract_date_from_filename filename = None)
  /\
  (forall filename m raw y mo d,
      re_search date_pattern filename = Some m -> m_group 1 m = Some raw ->
      denotes raw y mo d -> valid_date y mo d = false ->
      extract_date_from_filename filename = None)
  /\
  (forall filename dt,
      extract_date_from_filename filename = Some dt ->
      exists m raw,
        re_search date_pattern filename = Some m /\ m_group 1 m = Some raw /\
        denotes raw (year dt) (month dt) (day dt) /\
        valid_date (year dt) (month dt) (day dt) = true)
  /\
  (forall st f,
      extract_date_from_filename (file_name f) = None ->
      process_file st f
      = Ok (State (participation st) (all_dates st) (shown st ++ [date_error f])))
  /\
  (forall pre f post st,
      extract_date_from_filename (file_name f) = None ->
      process_files init_state (pre ++ f :: post) = Ok st ->
      In (date_error f) (shown st) /\
      exists st',
        process_files init_state (pre ++ post) = Ok st' /\
        participation st' = participation st /\
        all_dates st' = all_dates st /\
        build_report st' = build_report st).
Proof.
  split; [|split; [|split; [|split]]].
  - intros filename H. unfold extract_date_from_filename. rewrite H. reflexivity.
  - intros filename m raw y mo d Hs Hg Hden Hinv.
    rewrite (extract_date_of_match _ _ _ Hs Hg).
    destruct (parse_raw_date raw) as [dt|e] eqn:E; [|reflexivity].
    destruct (parse_denotes _ _ _ _ _ Hden E) as [_ Hv]. congruence.
  - exact extract_date_sound.
  - exact process_file_undated.
  - intros pre f post st Hnone Hrun.
    apply process_files_app in Hrun as (st1 & Hpre & Hrest).
    cbn [process_files] in Hrest.
    rewrite (process_file_undated st1 f Hnone) in Hrest. cbn [bind] in Hrest.
    split.
    + apply (shown_grows post _ _ _ Hrest). cbn. apply in_or_app. cbn. auto.
    + destruct (process_files_same post _ st1 st
                  (conj eq_refl eq_refl : same_aggregate
                     (State (participation st1) (all_dates st1)
                            (shown st1 ++ [date_error f])) st1) Hrest)
        as (st' & Hrun' & Hp & Hd).
      exists st'. split; [apply process_files_app; eauto|].
      split; [auto|]. split; [auto|].
      apply build_report_same. split; auto.
Qed.

(** ** Where the first match is *)

Lemma rmatch_Alt r1 r2 s c k :
  rmatch (Alt r1 r2) s c k
  = match rmatch r1 s c k with
    | Some a => Some a
    | None => rmatch r2 s c k
    end.
Proof. reflexivity. Qed.

Lemma rep_chr_needs_one p lo hi x s c k :
  p x = false -> (0 < lo)%nat -> rep_chr p lo hi (x :: s) c k = None.
Proof.
  intros Hx Hlo. destruct lo; [lia|].
  cbn [rep_chr]. rewrite Hx. destruct hi as [[|h]|]; reflexivity.
Qed.

(** No match of the date pattern starts at a character that is not a
    digit. *)
Lemma date_pattern_needs_digit x s :
  is_digit x = false -> re_match date_pattern (x :: s) = None.
Proof.
  intros Hx. unfold re_match, date_pattern, Times.
  rewrite rmatch_Grp, !rmatch_Alt, !rmatch_Seq, !rmatch_rep_chr.
  rewrite !(rep_chr_needs_one is_digit _ _ x s) by (assumption || lia).
  reflexivity.
Qed.

Lemma search_after_text pre s :
  forallb (fun c => negb (is_digit c)) pre = true ->
  re_search date_pattern (pre ++ s) = re_search date_pattern s.
Proof.
  induction pre as [|x pre IH]; intros H; [reflexivity|].
  cbn in H. apply andb_true_iff in H as [Hx H].
  apply negb_true_iff in Hx.
  cbn [app re_search]. rewrite (date_pattern_needs_digit x _ Hx). apply IH, H.
Qed.

Lemma rep_chr_times p ds : forall rest c k a,
  forallb p ds = true -> k rest c = Some a ->
  rep_chr p (length ds) (Some (length ds)) (ds ++ rest) c k = Some a.
Proof.
  induction ds as [|x ds IH]; intros rest c k a Hp Hk.
  - destruct rest; cbn; exact Hk.
  - cbn in Hp. apply andb_true_iff in Hp as [Hx Hp].
    cbn [app length rep_chr option_map Nat.pred]. rewrite Hx.
    rewrite (IH rest c k a Hp Hk). reflexivity.
Qed.

Lemma rep_chr_opt_take p x rest c k a :
  p x = true -> k rest c = Some a ->
  rep_chr p 0 (Some 1%nat) (x :: rest) c k = Some a.
Proof.
  intros Hx Hk. cbn [rep_chr option_map Nat.pred]. rewrite Hx.
  destruct rest; cbn [rep_chr]; rewrite Hk; reflexivity.
Qed.

(** A date with both separators is matched whole where it starts. *)
Lemma match_separated_date y1 y2 y3 y4 s1 m1 m2 s2 d1 d2 post :
  forallb is_digit [y1; y2; y3; y4; m1; m2; d1; d2] = true ->
  dot_or_minus s1 = true -> dot_or_minus s2 = true ->
  re_match date_pattern ([y1; y2; y3; y4; s1; m1; m2; s2; d1; d2] ++ post)
  = Some (post, [(1%nat, [y1; y2; y3; y4; s1; m1; m2; s2; d1; d2])]).
Proof.
  intros H Hs1 Hs2.
  destruct (forallb_digits_8 _ _ _ _ _ _ _ _ H)
    as (Hy1 & Hy2 & Hy3 & Hy4 & Hm1 & Hm2 & Hd1 & Hd2).
  unfold re_match, date_pattern, Times, Opt.
  rewrite rmatch_Grp, rmatch_Alt.
  match goal with
  | |- match ?x with _ => _ end = Some ?y => assert (Hfirst : x = Some y)
  end; [|rewrite Hfirst; reflexivity].
  rewrite rmatch_Seq, rmatch_rep_chr.
  apply (rep_chr_times is_digit [y1; y2; y3; y4]);
    [cbn; rewrite Hy1, Hy2, Hy3, Hy4; reflexivity|].
  rewrite rmatch_Seq, rmatch_rep_chr.
  apply rep_chr_opt_take; [exact Hs1|].
  rewrite rmatch_Seq, rmatch_rep_chr.
  apply (rep_chr_times is_digit [m1; m2]); [cbn; rewrite Hm1, Hm2; reflexivity|].
  rewrite rmatch_Seq, rmatch_rep_chr.
  apply rep_chr_opt_take; [exact Hs2|].
  rewrite rmatch_rep_chr.
  apply (rep_chr_times is_digit [d1; d2]); [cbn; rewrite Hd1, Hd2; reflexivity|].
  unfold accept_any. rewrite consumed_app. reflexivity.
Qed.

(** On file names: text without digits, then a date with both separators,
    then anything. *)
Corollary separated_date_after_text pre y1 y2 y3 y4 s1 m1 m2 s2 d1 d2 post :
  forallb (fun c => negb (is_digit c)) pre = true ->
  forallb is_digit [y1; y2; y3; y4] = true ->
  forallb is_ascii_digit [m1; m2; d1; d2] = true ->
  dot_or_minus s1 = true -> dot_or_minus s2 = true ->
  valid_date (number [y1; y2; y3; y4]) (number [m1; m2]) (number [d1; d2])
  = true ->
  extract_date_from_filename
    (pre ++ [y1; y2; y3; y4; s1; m1; m2; s2; d1; d2] ++ post)
  = Some (Date (number [y1; y2; y3; y4]) (number [m1; m2]) (number [d1; d2])).
Proof.
  intros Hpre Hy Ha Hs1 Hs2 Hvalid.
  assert (Hdig : forallb is_digit [y1; y2; y3; y4; m1; m2; d1; d2] = true).
  { change [y1; y2; y3; y4; m1; m2; d1; d2]
      with ([y1; y2; y3; y4] ++ [m1; m2; d1; d2]).
    rewrite forallb_app, Hy, (ascii_digits_are_digits _ Ha). reflexivity. }
  unfold extract_date_from_filename.
  rewrite (search_after_text pre _ Hpre), re_search_eq.
  rewrite (match_separated_date _ _ _ _ _ _ _ _ _ _ post Hdig Hs1 Hs2).
  cbn [m_group m_caps group Nat.eqb not_none bind].
  rewrite (parse_separated_date _ _ _ _ _ _ _ _ _ _ Hy Ha Hs1 Hs2).
  unfold make_date. rewrite Hvalid. reflexivity.
Qed.

(** * Further properties of the three functions and of the main block *)

(** ** Tokens *)

Lemma normalize_select name :
  normalize_name_to_core name = select_core (surviving_tokens name).
Proof.
  unfold normalize_name_to_core, select_core. rewrite name_parts_surviving.
  rewrite (filter_ext _ _ fullmatch_korean_name).
  rewrite (filter_ext _ _ fullmatch_id_style). reflexivity.
Qed.

Lemma fields_loop_tokens p s : forall cur t,
  forallb (fun c => negb (p c)) cur = true ->
  In t (fields_loop p s cur) ->
  t <> [] /\ forallb (fun c => negb (p c)) t = true.
Proof.
  induction s as [|x s IH]; intros cur t Hcur; cbn [fields_loop].
  - destruct cur as [|y cur]; cbn [is_empty]; [intros []|].
    intros [<-|[]]. split.
    + intros E. apply (f_equal (@length N)) in E.
      rewrite length_rev in E. discriminate.
    + rewrite forallb_rev. exact Hcur.
  - destruct (p x) eqn:Hx.
    + destruct cur as [|y cur]; cbn [is_empty].
      * apply IH. reflexivity.
      * intros [<-|Hin]; [|apply (IH [] t eq_refl Hin)]. split.
        -- intros E. apply (f_equal (@length N)) in E.
           rewrite length_rev in E. discriminate.
        -- rewrite forallb_rev. exact Hcur.
    + apply IH. cbn [forallb]. rewrite Hx. exact Hcur.
Qed.

Lemma fields_loop_word p w : forall cur rest,
  forallb (fun c => negb (p c)) w = true ->
  fields_loop p (w ++ rest) cur = fields_loop p rest (rev w ++ cur).
Proof.
  induction w as [|x w IH]; intros cur rest H; [reflexivity|].
  cbn [forallb] in H. apply andb_true_iff in H as [Hx H].
  apply negb_true_iff in Hx.
  cbn [app fields_loop rev]. rewrite Hx, (IH _ _ H), <- app_assoc. reflexivity.
Qed.

Lemma is_token_inv t :
  is_token t = true -> t <> [] /\ forallb (fun c => negb (sep_char c)) t = true.
Proof.
  unfold is_token. intros H. apply andb_true_iff in H as [Hne H].
  split; [|exact H]. intros ->. discriminate.
Qed.

Lemma tokens_are_tokens name t : In t (tokens name) -> is_token t = true.
Proof.
  intros H. apply (fields_loop_tokens sep_char name [] t eq_refl) in H as [Hne H].
  unfold is_token. rewrite H. destruct t; [contradiction|reflexivity].
Qed.

Lemma fields_token t rest :
  is_token t = true ->
  fields_loop sep_char (t ++ rest) [] = fields_loop sep_char rest (rev t).
Proof.
  intros H. apply is_token_inv in H as [_ H].
  rewrite (fields_loop_word sep_char t [] rest H), app_nil_r. reflexivity.
Qed.

Lemma rev_not_empty (t : str) : t <> [] -> is_empty (rev t) = false.
Proof. rewrite is_empty_rev. destruct t; [contradiction|reflexivity]. Qed.

(** The tokens of a list of tokens joined by single spaces. *)
Lemma tokens_join l :
  Forall (fun t => is_token t = true) l -> tokens (join (u" ") l) = l.
Proof.
  unfold tokens. induction l as [|t l IH]; intros H; [reflexivity|].
  inversion H as [|? ? Ht Hl]; subst.
  pose proof (is_token_inv t Ht) as [Hne _].
  destruct l as [|t' l].
  - cbn [join]. rewrite <- (app_nil_r t) at 1. rewrite (fields_token t [] Ht).
    cbn [fields_loop]. rewrite (rev_not_empty t Hne), rev_involutive. reflexivity.
  - change (join (u" ") (t :: t' :: l))
      with (t ++ ch_space :: join (u" ") (t' :: l)).
    rewrite (fields_token t _ Ht). cbn [fields_loop].
    change (sep_char ch_space) with true. cbv iota.
    rewrite (rev_not_empty t Hne), rev_involutive, (IH Hl). reflexivity.
Qed.

Lemma filter_all (A : Type) (f : A -> bool) l :
  Forall (fun x => f x = true) l -> filter f l = l.
Proof.
  induction 1 as [|x l Hx _ IH]; [reflexivity|].
  cbn [filter]. rewrite Hx, IH. reflexivity.
Qed.

Lemma filter_none (A : Type) (f : A -> bool) l :
  Forall (fun x => f x = false) l -> filter f l = [].
Proof.
  induction 1 as [|x l Hx _ IH]; [reflexivity|].
  cbn [filter]. rewrite Hx, IH. reflexivity.
Qed.

Lemma surviving_are_tokens name :
  Forall (fun t => is_token t = true) (surviving_tokens name).
Proof.
  apply Forall_forall. intros t H. apply filter_In in H as [H _].
  apply (tokens_are_tokens name t H).
Qed.

Lemma surviving_survive name :
  Forall (fun t => survives t = true) (surviving_tokens name).
Proof.
  apply Forall_forall. intros t H. apply filter_In in H as [_ H]. exact H.
Qed.

(** A list of surviving tokens, joined by single spaces, is read back as
    itself. *)
Lemma surviving_join l :
  Forall (fun t => is_token t = true) l ->
  Forall (fun t => survives t = true) l ->
  surviving_tokens (join (u" ") l) = l.
Proof.
  intros Ht Hs. unfold surviving_tokens. rewrite (tokens_join l Ht).
  apply (filter_all _ survives l Hs).
Qed.

(** ** Uniqueness of the sorted list *)

Section SortedUnique.
Variable A : Type.
Variable leb : A -> A -> bool.
Hypothesis leb_total : forall a b, leb a b = true \/ leb b a = true.
Hypothesis leb_trans :
  forall a b c, leb a b = true -> leb b c = true -> leb a c = true.
Hypothesis leb_antisym : forall a b, leb a b = true -> leb b a = true -> a = b.

Lemma leb_refl a : leb a a = true.
Proof using leb_total. destruct (leb_total a a); assumption. Qed.

Lemma sorted_unique l : forall l',
  Sorted (fun a b => leb a b = true) l ->
  Sorted (fun a b => leb a b = true) l' ->
  Permutation l l' -> l = l'.
Proof using leb_total leb_trans leb_antisym.
  induction l as [|a l IH]; intros l' Hl Hl' HP.
  - apply Permutation_nil in HP. congruence.
  - destruct l' as [|b l'];
      [apply Permutation_sym, Permutation_nil in HP; discriminate|].
    assert (Tr : Relations_1.Transitive (fun a b => leb a b = true))
      by (intros x y z; apply leb_trans).
    pose proof (Sorted_StronglySorted Tr Hl) as SL.
    pose proof (Sorted_StronglySorted Tr Hl') as SL'.
    apply StronglySorted_inv in SL as [_ Fa].
    apply StronglySorted_inv in SL' as [_ Fb].
    rewrite Forall_forall in Fa, Fb.
    assert (Hab : a = b).
    { assert (Ha : In a (b :: l'))
        by (apply (Permutation_in _ HP); left; reflexivity).
      assert (Hb : In b (a :: l))
        by (apply (Permutation_in _ (Permutation_sym HP)); left; reflexivity).
      destruct Ha as [Ha|Ha]; [congruence|].
      destruct Hb as [Hb|Hb]; [congruence|].
      apply leb_antisym; [apply Fa, Hb | apply Fb, Ha]. }
    subst b. f_equal.
    apply IH; [inversion Hl; assumption | inversion Hl'; assumption|].
    apply (Permutation_cons_inv HP).
Qed.

(** [sorted] does not depend on the order of its argument. *)
Lemma py_sorted_perm_eq l l' :
  Permutation l l' -> py_sorted leb l = py_sorted leb l'.
Proof using leb_total leb_trans leb_antisym.
  intros HP. apply sorted_unique.
  - apply py_sorted_Sorted, leb_total.
  - apply py_sorted_Sorted, leb_total.
  - eapply Permutation_trans; [apply Permutation_sym, py_sorted_perm|].
    eapply Permutation_trans; [exact HP | apply py_sorted_perm].
Qed.

Lemma py_sorted_sorted l :
  Sorted (fun a b => leb a b = true) l -> py_sorted leb l = l.
Proof using leb_total leb_trans leb_antisym.
  intros H. apply sorted_unique; [apply py_sorted_Sorted, leb_total | exact H|].
  apply Permutation_sym, py_sorted_perm.
Qed.

End SortedUnique.

Lemma str_leb_trans a : forall b c,
  str_leb a b = true -> str_leb b c = true -> str_leb a c = true.
Proof.
  induction a as [|x a IH]; intros b c; [reflexivity|].
  destruct b as [|y b]; [discriminate|]. destruct c as [|z c]; [discriminate|].
  cbn [str_leb].
  destruct (x <? y) eqn:E1; destruct (y <? x) eqn:E2;
    destruct (y <? z) eqn:E3; destruct (z <? y) eqn:E4;
    destruct (x <? z) eqn:E5; destruct (z <? x) eqn:E6;
    try reflexivity; try discriminate;
    rewrite ?N.ltb_lt, ?N.ltb_ge in *; try lia.
  apply IH.
Qed.

Lemma str_leb_antisym a : forall b,
  str_leb a b = true -> str_leb b a = true -> a = b.
Proof.
  induction a as [|x a IH]; intros [|y b]; try reflexivity; try discriminate.
  cbn [str_leb].
  destruct (x <? y) eqn:E1; destruct (y <? x) eqn:E2;
    try discriminate; rewrite ?N.ltb_lt, ?N.ltb_ge in *; try lia.
  intros H1 H2. assert (x = y) by lia. subst. f_equal. apply IH; assumption.
Qed.

(** ** The canonical name *)

Lemma max_by_len_In k0 ks : In (max_by_len k0 ks) (k0 :: ks).
Proof.
  destruct (@max_by_len_inv ks [] k0 []) as (l1 & r & l2 & E & _ & _ & ->);
    [intros y [] | intros y [] |].
  cbn [app] in E. rewrite E. apply in_or_app. right. left. reflexivity.
Qed.

Lemma select_core_single r :
  korean_token r = true \/ id_token r = true -> select_core [r] = r.
Proof.
  intros H. unfold select_core. cbn [filter].
  destruct (korean_token r) eqn:K; [reflexivity|].
  destruct H as [H|H]; [discriminate|]. rewrite H. reflexivity.
Qed.

(** The result is one of the parts, which stands for itself, or the sorted
    parts joined by spaces. *)
Lemma select_core_cases S :
  (exists r, In r S /\ select_core S = r /\ select_core [r] = r) \/
  (filter korean_token S = [] /\ filter id_token S = [] /\
   select_core S = join (u" ") (py_sorted str_leb S)).
Proof.
  destruct (filter korean_token S) as [|k0 ks] eqn:K.
  - destruct (filter id_token S) as [|i0 ids] eqn:I.
    + right. unfold select_core. rewrite K, I. auto.
    + left.
      destruct (@filter_last_split _ id_token [] S)
        as (l1 & r & l2 & E & Hr & _ & Hlast); [rewrite I; discriminate|].
      exists r. split; [rewrite E; apply in_or_app; right; left; reflexivity|].
      split; [|apply select_core_single; auto].
      unfold select_core. rewrite K, I, <- I. exact Hlast.
  - left. exists (max_by_len k0 ks).
    pose proof (max_by_len_In k0 ks) as Hin. rewrite <- K in Hin.
    apply filter_In in Hin as [Hin Hk].
    split; [exact Hin|]. split; [|apply select_core_single; auto].
    unfold select_core. rewrite K. reflexivity.
Qed.

Lemma surviving_single r :
  is_token r = true -> survives r = true -> surviving_tokens r = [r].
Proof.
  intros Ht Hs. apply (surviving_join [r]); constructor; auto.
Qed.

Lemma filter_nil_Forall (A : Type) (f : A -> bool) l :
  filter f l = [] -> Forall (fun x => f x = false) l.
Proof.
  induction l as [|x l IH]; [constructor|]. cbn [filter].
  destruct (f x) eqn:E; [discriminate|]. intros H. constructor; auto.
Qed.

Lemma filter_nil_perm (A : Type) (f : A -> bool) l l' :
  Permutation l l' -> filter f l = [] -> filter f l' = [].
Proof.
  intros HP H. apply filter_none.
  apply (Permutation_Forall HP), filter_nil_Forall, H.
Qed.

Lemma sorted_tokens name :
  Forall (fun t => is_token t = true) (py_sorted str_leb (surviving_tokens name)) /\
  Forall (fun t => survives t = true) (py_sorted str_leb (surviving_tokens name)).
Proof.
  split.
  - apply (Permutation_Forall (py_sorted_perm str_leb _)), surviving_are_tokens.
  - apply (Permutation_Forall (py_sorted_perm str_leb _)), surviving_survive.
Qed.

Lemma select_core_sorted S :
  filter korean_token S = [] -> filter id_token S = [] ->
  select_core (py_sorted str_leb S) = join (u" ") (py_sorted str_leb S).
Proof.
  intros K I. unfold select_core.
  rewrite (filter_nil_perm _ korean_token _ _ (py_sorted_perm str_leb S) K).
  rewrite (filter_nil_perm _ id_token _ _ (py_sorted_perm str_leb S) I).
  rewrite (py_sorted_sorted _ str_leb str_leb_total str_leb_trans str_leb_antisym);
    [reflexivity|].
  apply py_sorted_Sorted, str_leb_total.
Qed.

Lemma In_surviving name r :
  In r (surviving_tokens name) -> is_token r = true /\ survives r = true.
Proof.
  intros H. split.
  - apply (proj1 (Forall_forall _ _) (surviving_are_tokens name) r H).
  - apply (proj1 (Forall_forall _ _) (surviving_survive name) r H).
Qed.

(** X1. Normalisation is idempotent: the canonical name of a canonical name
    is that name. *)
Theorem normalize_idempotent name :
  normalize_name_to_core (normalize_name_to_core name)
  = normalize_name_to_core name.
Proof.
  rewrite (normalize_select name).
  destruct (select_core_cases (surviving_tokens name))
    as [(r & Hin & -> & Hr)|(K & I & ->)].
  - apply In_surviving in Hin as [Ht Hs].
    rewrite normalize_select, (surviving_single r Ht Hs). exact Hr.
  - destruct (sorted_tokens name) as [Ht Hs].
    rewrite normalize_select, (surviving_join _ Ht Hs).
    apply select_core_sorted; assumption.
Qed.

Lemma group_label_chars p :
  is_group_label p = true ->
  forall c, In c p -> is_digit c = true \/ c = ch_jo.
Proof.
  assert (H : forall s, digits_then_jo s = true ->
                        forall c, In c s -> is_digit c = true \/ c = ch_jo).
  { induction s as [|x s IH]; [discriminate|].
    cbn [digits_then_jo]. destruct s as [|y s].
    - intros Hx c [<-|[]]. right. apply N.eqb_eq, Hx.
    - intros Hx c Hc. apply andb_true_iff in Hx as [Hx Hs].
      destruct Hc as [<-|Hc]; [left; exact Hx | apply (IH Hs c Hc)]. }
  destruct p as [|x [|y s]]; try discriminate. cbn [is_group_label].
  intros Hx c Hc. apply andb_true_iff in Hx as [Hx Hs].
  destruct Hc as [<-|Hc]; [left; exact Hx | apply (H _ Hs c Hc)].
Qed.

Lemma blacklist_no_space b : In b blacklist -> ~ In ch_space b.
Proof.
  intros Hb. cbn in Hb.
  repeat (destruct Hb as [<-|Hb];
          [vm_compute; intros H;
           repeat (destruct H as [H|H]; [discriminate|]); exact H|]).
  destruct Hb.
Qed.

Lemma in_blacklist_In p : in_blacklist p = true <-> In p blacklist.
Proof.
  unfold in_blacklist. rewrite existsb_exists. split.
  - intros (b & Hb & E). apply str_eqb_eq in E. subst. exact Hb.
  - intros H. exists p. split; [exact H | apply str_eqb_eq; reflexivity].
Qed.

Lemma survives_inv p :
  survives p = true -> is_group_label p = false /\ ~ In p blacklist.
Proof.
  unfold survives. intros H. apply andb_true_iff in H as [H1 H2].
  apply negb_true_iff in H1, H2. split; [exact H1|].
  intros Hin. apply in_blacklist_In in Hin. congruence.
Qed.

Lemma join_two_space (t t' : str) l : In ch_space (join (u" ") (t :: t' :: l)).
Proof.
  change (join (u" ") (t :: t' :: l))
    with (t ++ ch_space :: join (u" ") (t' :: l)).
  apply in_or_app. right. left. reflexivity.
Qed.

(** X2. The canonical name is never a "<digits>조" label and never a word
    of the blacklist. *)
Theorem normalize_never_label_or_brand name :
  re_fullmatch re_group_index (normalize_name_to_core name) = false /\
  ~ In (normalize_name_to_core name) blacklist.
Proof.
  rewrite fullmatch_group_index, (normalize_select name).
  destruct (select_core_cases (surviving_tokens name))
    as [(r & Hin & -> & _)|(_ & _ & ->)].
  - apply In_surviving in Hin as [_ Hs]. apply survives_inv, Hs.
  - destruct (sorted_tokens name) as [_ Hs].
    destruct (py_sorted str_leb (surviving_tokens name)) as [|t [|t' l]].
    + split; [reflexivity|]. vm_compute. intros H.
      repeat (destruct H as [H|H]; [discriminate|]). exact H.
    + inversion Hs; subst. apply survives_inv. assumption.
    + pose proof (join_two_space t t' l) as Hsp. split.
      * destruct (is_group_label (join (u" ") (t :: t' :: l))) eqn:E;
          [|reflexivity].
        destruct (group_label_chars _ E _ Hsp) as [H|H]; discriminate.
      * intros Hb. apply (blacklist_no_space _ Hb Hsp).
Qed.

Lemma join_nil_inv (l : list str) :
  Forall (fun t => is_token t = true) l -> join (u" ") l = [] -> l = [].
Proof.
  destruct l as [|t l]; [reflexivity|]. intros H E. exfalso.
  inversion H as [|? ? Ht _]; subst. apply is_token_inv in Ht as [Hne _].
  destruct l; cbn [join] in E; [contradiction|].
  apply app_eq_nil in E as [E _]. contradiction.
Qed.

(** X3. The canonical name is the empty string exactly when no part is
    left after the two filters (lines 20-25). *)
Theorem normalize_empty_iff name :
  normalize_name_to_core name = [] <-> name_parts name = [].
Proof.
  rewrite name_parts_surviving, (normalize_select name). split.
  - destruct (select_core_cases (surviving_tokens name))
      as [(r & Hin & -> & _)|(_ & _ & ->)].
    + intros ->. apply In_surviving in Hin as [Ht _]. discriminate.
    + intros E. destruct (sorted_tokens name) as [Ht _].
      apply (join_nil_inv _ Ht) in E.
      pose proof (py_sorted_perm str_leb (surviving_tokens name)) as HP.
      rewrite E in HP. apply Permutation_sym, Permutation_nil in HP. exact HP.
  - intros ->. reflexivity.
Qed.

(** X4. When no part is a Korean-name or an ID-style candidate, the
    canonical name does not depend on the order of the parts. *)
Theorem normalize_fallback_order_free a b :
  Permutation (name_parts a) (name_parts b) ->
  existsb (re_fullmatch re_korean_name) (name_parts a) = false ->
  existsb (re_fullmatch re_id_style) (name_parts a) = false ->
  normalize_name_to_core a = normalize_name_to_core b.
Proof.
  rewrite !name_parts_surviving. intros HP K I.
  apply filter_nil_existsb in K, I.
  rewrite (filter_ext _ _ fullmatch_korean_name) in K.
  rewrite (filter_ext _ _ fullmatch_id_style) in I.
  rewrite !normalize_select. unfold select_core.
  rewrite K, I, (filter_nil_perm _ _ _ _ HP K), (filter_nil_perm _ _ _ _ HP I).
  rewrite (py_sorted_perm_eq _ str_leb str_leb_total str_leb_trans
                             str_leb_antisym _ _ HP).
  reflexivity.
Qed.

Lemma In_join c sep (l : list str) :
  In c (join sep l) -> In c sep \/ exists t, In t l /\ In c t.
Proof.
  induction l as [|t l IH]; [intros []|].
  destruct l as [|t' l].
  - cbn [join]. intros H. right. exists t. split; [left; reflexivity | exact H].
  - change (join sep (t :: t' :: l)) with (t ++ sep ++ join sep (t' :: l)).
    intros H. apply in_app_or in H as [H|H];
      [right; exists t; split; [left; reflexivity | exact H]|].
    apply in_app_or in H as [H|H]; [left; exact H|].
    destruct (IH H) as [H'|(t0 & Ht0 & Hc)]; [left; exact H'|].
    right. exists t0. split; [right; exact Ht0 | exact Hc].
Qed.

Lemma token_no_sep t c :
  is_token t = true -> In c t -> sep_char c = false.
Proof.
  intros Ht Hc. apply is_token_inv in Ht as [_ Ht].
  apply negb_true_iff, (proj1 (forallb_forall _ _) Ht c Hc).
Qed.

Lemma parts_tokens r :
  filter (fun p => negb (is_empty p)) (re_split (Chr sep_char) (strip r))
  = tokens r.
Proof.
  unfold tokens, re_split. rewrite re_split_loop_chr by lia.
  rewrite filter_split_pred. apply (fields_strip sep_char r sep_char_space).
Qed.

(** X5. The canonical name is in canonical form: split again as in lines
    20-21 and joined by single spaces it is unchanged, so it holds no
    slash and no whitespace character other than the single spaces
    between its parts. *)
Theorem normalize_canonical_form name :
  join (u" ")
       (filter (fun p => negb (is_empty p))
               (re_split (Chr sep_char) (strip (normalize_name_to_core name))))
  = normalize_name_to_core name /\
  forall c, In c (normalize_name_to_core name) ->
            sep_char c = true -> c = ch_space.
Proof.
  rewrite parts_tokens, (normalize_select name).
  destruct (select_core_cases (surviving_tokens name))
    as [(r & Hin & -> & _)|(_ & _ & ->)].
  - apply In_surviving in Hin as [Ht _]. split.
    + assert (E : tokens r = [r])
        by (apply (tokens_join [r]); constructor; auto).
      rewrite E. reflexivity.
    + intros c Hc Hs. rewrite (token_no_sep r c Ht Hc) in Hs. discriminate.
  - destruct (sorted_tokens name) as [Ht _]. split.
    + rewrite (tokens_join _ Ht). reflexivity.
    + intros c Hc Hs. apply In_join in Hc as [Hc|(t & Hin & Hc)].
      * destruct Hc as [Hc|[]]. symmetry. exact Hc.
      * rewrite Forall_forall in Ht.
        rewrite (token_no_sep t c (Ht t Hin) Hc) in Hs. discriminate.
Qed.

Lemma fields_skip p s rest :
  forallb p s = true -> fields_loop p (s ++ rest) [] = fields_loop p rest [].
Proof.
  induction s as [|x s IH]; [reflexivity|]. cbn [forallb]. intros H.
  apply andb_true_iff in H as [Hx H]. cbn [app fields_loop is_empty].
  rewrite Hx. apply IH, H.
Qed.

Lemma fields_app p a : forall cur x rest,
  p x = true ->
  fields_loop p (a ++ x :: rest) cur
  = fields_loop p a cur ++ fields_loop p rest [].
Proof.
  induction a as [|y a IH]; intros cur x rest Hx; cbn [app fields_loop].
  - rewrite Hx. destruct (is_empty cur); reflexivity.
  - destruct (p y).
    + rewrite (IH [] x rest Hx). destruct (is_empty cur); reflexivity.
    + apply IH, Hx.
Qed.

Lemma tokens_sep_run a s b :
  s <> [] -> forallb sep_char s = true ->
  tokens (a ++ s ++ b) = tokens a ++ tokens b.
Proof.
  intros Hne Hs. destruct s as [|x s]; [contradiction|].
  cbn [forallb] in Hs. apply andb_true_iff in Hs as [Hx Hs].
  unfold tokens. cbn [app]. rewrite (fields_app sep_char a [] x _ Hx).
  rewrite (fields_skip sep_char s b Hs). reflexivity.
Qed.

Lemma tokens_trim s1 a s2 :
  forallb sep_char s1 = true -> forallb sep_char s2 = true ->
  tokens (s1 ++ a ++ s2) = tokens a.
Proof.
  intros H1 H2. unfold tokens. rewrite (fields_skip sep_char s1 _ H1).
  destruct s2 as [|x s2]; [rewrite app_nil_r; reflexivity|].
  rewrite <- (app_nil_r (x :: s2)).
  change (fields_loop sep_char (a ++ (x :: s2) ++ []) [])
    with (tokens (a ++ (x :: s2) ++ [])).
  rewrite (tokens_sep_run a (x :: s2) [] ltac:(discriminate) H2).
  apply app_nil_r.
Qed.

Lemma normalize_tokens a b :
  tokens a = tokens b -> normalize_name_to_core a = normalize_name_to_core b.
Proof.
  intros E. rewrite !normalize_select. unfold surviving_tokens.
  rewrite E. reflexivity.
Qed.

(** X6. Only the tokens count: any non-empty run of whitespace and slashes
    between two parts of a name can be replaced by any other, and
    separators at the start and at the end are ignored. *)
Theorem normalize_separators_interchangeable :
  (forall a b s1 s2,
      s1 <> [] -> s2 <> [] ->
      forallb sep_char s1 = true -> forallb sep_char s2 = true ->
      normalize_name_to_core (a ++ s1 ++ b) = normalize_name_to_core (a ++ s2 ++ b))
  /\
  (forall a s1 s2,
      forallb sep_char s1 = true -> forallb sep_char s2 = true ->
      normalize_name_to_core (s1 ++ a ++ s2) = normalize_name_to_core a).
Proof.
  split.
  - intros a b s1 s2 N1 N2 H1 H2. apply normalize_tokens.
    rewrite (tokens_sep_run a s1 b N1 H1), (tokens_sep_run a s2 b N2 H2).
    reflexivity.
  - intros a s1 s2 H1 H2. apply normalize_tokens, tokens_trim; assumption.
Qed.

(** ** Lines of the text *)

Lemma split_char_loop_app sep a : forall cur b,
  split_char_loop sep (a ++ sep :: b) cur
  = split_char_loop sep a cur ++ split_char_loop sep b [].
Proof.
  induction a as [|x a IH]; intros cur b; cbn [app split_char_loop].
  - rewrite N.eqb_refl. reflexivity.
  - destruct (x =? sep); [rewrite IH; reflexivity | apply IH].
Qed.

Lemma extract_line_acc names log line :
  extract_line (names, log) line
  = (names ++ fst (extract_line ([], []) line),
     log ++ snd (extract_line ([], []) line)).
Proof.
  unfold extract_line.
  destruct (is_empty (strip line)
            || negb match re_search re_numbering (strip line) with
                    | Some _ => true | None => false end).
  - cbn [fst snd]. rewrite !app_nil_r. reflexivity.
  - destruct (re_search pattern (strip line)) as [m|]; cbn [fst snd app];
      rewrite !app_nil_r; reflexivity.
Qed.

Lemma extract_lines_acc lines : forall names log,
  fold_left extract_line lines (names, log)
  = (names ++ fst (fold_left extract_line lines ([], [])),
     log ++ snd (fold_left extract_line lines ([], []))).
Proof.
  induction lines as [|l ls IH]; intros names log; cbn [fold_left].
  - cbn [fst snd]. rewrite !app_nil_r. reflexivity.
  - rewrite (extract_line_acc names log l), IH.
    destruct (extract_line ([], []) l) as [dn dl] eqn:E. cbn [fst snd].
    rewrite (IH dn dl). cbn [fst snd]. rewrite !app_assoc. reflexivity.
Qed.

(** X7. The text is processed line by line: the names and warnings of two
    texts joined by a newline are those of the first followed by those of
    the second. *)
Theorem extract_names_line_by_line a b :
  extract_names_from_text (a ++ [ch_newline] ++ b)
  = (fst (extract_names_from_text a) ++ fst (extract_names_from_text b),
     snd (extract_names_from_text a) ++ snd (extract_names_from_text b)).
Proof.
  unfold extract_names_from_text, split_char. cbn [app].
  rewrite split_char_loop_app, fold_left_app.
  destruct (fold_left extract_line (split_char_loop ch_newline a []) ([], []))
    as [na la].
  rewrite extract_lines_acc. reflexivity.
Qed.

(** ** Lines without a numbering *)

Lemma re_search_suffix r s m :
  re_search r s = Some m -> exists pre, s = pre ++ m_from m.
Proof.
  induction s as [|x s IH]; cbn [re_search].
  - destruct (re_match r []) as [[rest c]|]; [|discriminate].
    intros [= <-]. exists []. reflexivity.
  - destruct (re_match r (x :: s)) as [[rest c]|].
    + intros [= <-]. exists []. reflexivity.
    + intros H. destruct (IH H) as [pre E]. exists (x :: pre).
      cbn [app]. congruence.
Qed.

(** A match of [re.search] is a word of the language inside the text. *)
Lemma re_search_lang r s m :
  re_search r s = Some m ->
  exists pre w, s = pre ++ w ++ m_rest m /\ m_from m = w ++ m_rest m /\ lang r w.
Proof.
  intros H. destruct (re_search_suffix r s m H) as [pre E].
  apply re_search_Some in H. unfold re_match in H.
  apply rmatch_sound in H as (w & rest & c' & Ew & Hl & Hk).
  unfold accept_any in Hk. injection Hk as Hrest _. subst rest.
  exists pre, w. rewrite <- Ew. auto.
Qed.

Lemma lang_numbering w :
  lang re_numbering w ->
  exists d ds, w = d :: ds ++ [ch_rparen] /\ is_digit d = true.
Proof.
  unfold re_numbering. intros H.
  apply lang_seq_inv in H as (a & b & -> & Ha & Hb).
  apply lang_lit in Hb. subst b.
  apply lang_rep_chr in Ha as (Hall & Hlen & _).
  destruct a as [|d ds]; [cbn in Hlen; lia|].
  cbn [forallb] in Hall. apply andb_true_iff in Hall as [Hd _].
  exists d, ds. auto.
Qed.

Lemma numbering_needs line m :
  re_search re_numbering line = Some m ->
  In ch_rparen line /\ exists d, In d line /\ is_digit d = true.
Proof.
  intros H. apply re_search_lang in H as (pre & w & E & _ & Hl).
  apply lang_numbering in Hl as (d & ds & -> & Hd). rewrite E. split.
  - apply in_or_app. right. apply in_or_app. left.
    right. apply in_or_app. right. left. reflexivity.
  - exists d. split; [|exact Hd].
    apply in_or_app. right. left. reflexivity.
Qed.

Lemma strip_decomp s :
  exists ws ws', s = ws ++ strip s ++ ws' /\
                 forallb is_space ws = true /\ forallb is_space ws' = true.
Proof.
  destruct (lstrip_decomp s) as (ws & E & H).
  destruct (rstrip_decomp (lstrip s)) as (ws' & E' & H').
  exists ws, ws'. unfold strip. rewrite <- E', <- E. auto.
Qed.

Lemma In_strip c s : In c (strip s) -> In c s.
Proof.
  intros H. destruct (strip_decomp s) as (ws & ws' & E & _). rewrite E.
  apply in_or_app. right. apply in_or_app. left. exact H.
Qed.

Lemma In_split_char_loop sep s : forall cur l c,
  In l (split_char_loop sep s cur) -> In c l -> In c s \/ In c cur.
Proof.
  induction s as [|x s IH]; intros cur l c; cbn [split_char_loop].
  - intros [<-|[]] Hc. right. apply in_rev, Hc.
  - destruct (x =? sep).
    + intros [<-|Hl] Hc; [right; apply in_rev, Hc|].
      destruct (IH [] l c Hl Hc) as [H|[]]. left. right. exact H.
    + intros Hl Hc. destruct (IH (x :: cur) l c Hl Hc) as [H|[<-|H]];
        [left; right; exact H | left; left; reflexivity | right; exact H].
Qed.

Lemma In_line c l text :
  In l (split_char ch_newline text) -> In c l -> In c text.
Proof.
  intros Hl Hc.
  destruct (In_split_char_loop ch_newline text [] l c Hl Hc) as [H|[]].
  exact H.
Qed.

Lemma extract_line_skip acc line :
  re_search re_numbering (strip line) = None -> extract_line acc line = acc.
Proof.
  intros H. destruct acc as [names log]. unfold extract_line.
  rewrite H, orb_true_r. reflexivity.
Qed.

Lemma fold_skip lines : forall acc,
  (forall l, In l lines -> re_search re_numbering (strip l) = None) ->
  fold_left extract_line lines acc = acc.
Proof.
  induction lines as [|l ls IH]; intros acc H; [reflexivity|].
  cbn [fold_left]. rewrite (extract_line_skip acc l (H l (or_introl eq_refl))).
  apply IH. intros l' Hl'. apply H. right. exact Hl'.
Qed.

(** X8. A text without a closing parenthesis, or without a decimal digit,
    gives no name and no warning: lines without a numbering are passed
    over in silence. *)
Theorem text_without_numbering_gives_nothing text :
  (forall c, In c text -> c <> ch_rparen) \/
  (forall c, In c text -> is_digit c = false) ->
  extract_names_from_text text = ([], []).
Proof.
  intros H. unfold extract_names_from_text. apply fold_skip. intros l Hl.
  destruct (re_search re_numbering (strip l)) as [m|] eqn:E; [|reflexivity].
  exfalso. apply numbering_needs in E as (Hp & d & Hd & Hdig).
  destruct H as [H|H].
  - apply (H ch_rparen); [|reflexivity].
    apply (In_line _ l text Hl), In_strip, Hp.
  - rewrite (H d) in Hdig; [discriminate|].
    apply (In_line _ l text Hl), In_strip, Hd.
Qed.

Lemma split_char_loop_length sep s : forall cur,
  length (split_char_loop sep s cur) = S (count_occ N.eq_dec s sep).
Proof.
  induction s as [|x s IH]; intros cur; [reflexivity|].
  cbn [split_char_loop count_occ].
  destruct (N.eqb_spec x sep) as [->|Hne].
  - destruct (N.eq_dec sep sep); [|contradiction]. cbn [length]. rewrite IH.
    reflexivity.
  - destruct (N.eq_dec x sep); [contradiction|]. apply IH.
Qed.

Lemma extract_line_count line :
  (length (fst (extract_line ([], []) line))
   + length (snd (extract_line ([], []) line)) <= 1)%nat.
Proof.
  unfold extract_line.
  destruct (is_empty (strip line)
            || negb match re_search re_numbering (strip line) with
                    | Some _ => true | None => false end); [cbn; lia|].
  destruct (re_search pattern (strip line)); cbn; lia.
Qed.

Lemma extract_lines_count lines :
  (length (fst (fold_left extract_line lines ([], [])))
   + length (snd (fold_left extract_line lines ([], []))) <= length lines)%nat.
Proof.
  induction lines as [|l ls IH]; [cbn; lia|]. cbn [fold_left length].
  pose proof (extract_line_count l) as Hl.
  destruct (extract_line ([], []) l) as [dn dl]. cbn [fst snd] in Hl.
  rewrite extract_lines_acc. cbn [fst snd]. rewrite !length_app. lia.
Qed.

(** X9. Every line gives at most one name or one warning: the names and
    warnings of a text are together at most as many as its lines. *)
Theorem one_name_per_line text :
  (length (fst (extract_names_from_text text))
   + length (snd (extract_names_from_text text))
   <= S (count_occ N.eq_dec text ch_newline))%nat.
Proof.
  unfold extract_names_from_text.
  rewrite <- (split_char_loop_length ch_newline text []).
  apply extract_lines_count.
Qed.

(** ** The shape of a raw name *)

Lemma is_space_cases c :
  is_space c = true ->
  9 <= c <= 13 \/ 28 <= c <= 32 \/ c = 133 \/ c = 160 \/ c = 5760 \/
  8192 <= c <= 8202 \/ c = 8232 \/ c = 8233 \/ c = 8239 \/ c = 8287 \/
  c = 12288.
Proof.
  unfold is_space, in_range.
  rewrite !orb_true_iff, !andb_true_iff, !N.leb_le, !N.eqb_eq.
  clear uni_decimal uni_alnum. tauto.
Qed.

Lemma name_char_not_space c : name_char c = true -> is_space c = false.
Proof.
  intros H. destruct (is_space c) eqn:Hs; [|reflexivity]. exfalso.
  pose proof (is_space_cases c Hs) as Hc.
  unfold name_char, is_word, is_alnum in H. rewrite Hs in H.
  unfold is_hangul, is_ascii_digit, is_ascii_alpha, in_range,
    ch_underscore, ch_slash in H.
  destruct (N.ltb_spec c 128) as [Hlt|Hge].
  - rewrite !orb_true_iff, !andb_true_iff, !N.leb_le, !N.eqb_eq in H. lia.
  - destruct ((44032 <=? c) && (c <=? 55203)) eqn:Hh.
    + rewrite andb_true_iff, !N.leb_le in Hh. lia.
    + cbn [orb] in H. rewrite !orb_true_iff, !N.eqb_eq in H. lia.
Qed.

Lemma sep_char_cases x :
  sep_char x = true -> is_space x = true \/ name_char x = true.
Proof.
  unfold sep_char. intros H. apply orb_true_iff in H as [H|H]; [left; exact H|].
  right. apply N.eqb_eq in H. subst x. reflexivity.
Qed.

Lemma spaced_app_names w tl :
  forallb name_char w = true -> spaced tl = true -> spaced (w ++ tl) = true.
Proof.
  induction w as [|x w IH]; intros Hw Htl; [exact Htl|].
  cbn [forallb] in Hw. apply andb_true_iff in Hw as [Hx Hw].
  cbn [app spaced]. rewrite Hx, (IH Hw Htl). reflexivity.
Qed.

Lemma lang_star_spaced r s :
  lang r s -> r = Star (Chr sep_char +> Plus (Chr name_char)) ->
  spaced s = true.
Proof.
  induction 1 as [ | | | | |lo hi r s1 s2 Hhi H1 _ H2 IH2| ]; intros E;
    try discriminate.
  - reflexivity.
  - unfold Star in E. injection E as -> -> ->.
    specialize (IH2 eq_refl).
    apply lang_seq_inv in H1 as (a & b & -> & Ha & Hb).
    inversion Ha as [p x Hx| | | | | |]; subst.
    apply lang_rep_chr in Hb as (Hall & Hlen & _).
    destruct b as [|y b]; [cbn in Hlen; lia|].
    pose proof (spaced_app_names (y :: b) s2 Hall IH2) as Hsp.
    cbn [forallb] in Hall. apply andb_true_iff in Hall as [Hy _].
    cbn [app] in *. cbn [spaced]. cbn [spaced] in Hsp.
    rewrite Hy in *. cbn [orb andb] in *. rewrite Hsp, andb_true_r.
    destruct (sep_char_cases x Hx) as [-> | ->];
      [apply orb_true_r | reflexivity].
Qed.

(** A word of the name group: a name character, and then name characters
    and single separators each followed by a name character. *)
Lemma lang_name_group g :
  lang name_group g ->
  exists x t, g = x :: t /\ name_char x = true /\ spaced t = true.
Proof.
  unfold name_group. intros H.
  apply lang_seq_inv in H as (a & b & -> & Ha & Hb).
  apply lang_rep_chr in Ha as (Hall & Hlen & _).
  pose proof (lang_star_spaced _ _ Hb eq_refl) as Hsp.
  destruct a as [|x a]; [cbn in Hlen; lia|].
  cbn [forallb] in Hall. apply andb_true_iff in Hall as [Hx Ha].
  exists x, (a ++ b). repeat split; [exact Hx|].
  apply spaced_app_names; assumption.
Qed.

Lemma pattern_group_lang line m :
  re_search pattern line = Some m ->
  exists g, m_group 1 m = Some g /\ lang name_group g.
Proof.
  intros Hs. apply re_search_Some in Hs.
  unfold re_match, pattern in Hs.
  rewrite rmatch_Seq in Hs. apply rmatch_sound in Hs as (? & ? & ? & _ & _ & Hs).
  rewrite rmatch_Seq in Hs. apply rmatch_sound in Hs as (? & ? & ? & _ & _ & Hs).
  rewrite rmatch_Seq in Hs. apply rmatch_sound in Hs as (? & ? & ? & _ & _ & Hs).
  rewrite rmatch_Seq in Hs. apply rmatch_sound in Hs as (? & ? & ? & _ & _ & Hs).
  apply rmatch_group_sound in Hs as (g & _ & Hl & Hg).
  exists g. split; [exact Hg | exact Hl].
Qed.

Lemma spaced_chars t :
  spaced t = true ->
  forall c, In c t -> name_char c = true \/ is_space c = true.
Proof.
  induction t as [|x t IH]; intros H c; [intros []|].
  cbn [spaced] in H. apply andb_true_iff in H as [Hx Ht].
  intros [<-|Hc]; [|apply (IH Ht c Hc)].
  apply orb_true_iff in Hx as [Hx|Hx]; [left; exact Hx|].
  apply andb_true_iff in Hx as [Hx _]. right. exact Hx.
Qed.

Lemma spaced_single t : spaced t = true -> single_spaces t = true.
Proof.
  induction t as [|x t IH]; intros H; [reflexivity|].
  cbn [spaced] in H. apply andb_true_iff in H as [Hx Ht].
  cbn [single_spaces]. rewrite (IH Ht), andb_true_r.
  apply orb_true_iff in Hx as [Hx|Hx].
  - rewrite (name_char_not_space x Hx). reflexivity.
  - apply andb_true_iff in Hx as [_ Hy]. destruct t as [|y t]; [discriminate|].
    rewrite (name_char_not_space y Hy). apply orb_true_r.
Qed.

Lemma spaced_last t : forall x,
  name_char x = true -> spaced t = true ->
  name_char (last (x :: t) 0) = true.
Proof.
  induction t as [|y t IH]; intros x Hx H; [exact Hx|].
  cbn [spaced] in H. apply andb_true_iff in H as [Hy Ht].
  change (last (x :: y :: t) 0) with (last (y :: t) 0).
  apply orb_true_iff in Hy as [Hy|Hy]; [apply (IH y Hy Ht)|].
  apply andb_true_iff in Hy as [_ Hy]. destruct t as [|z t]; [discriminate|].
  change (last (y :: z :: t) 0) with (last (z :: t) 0).
  pose proof (IH z Hy Ht) as Hl. exact Hl.
Qed.

Lemma rstrip_last s z : is_space z = false -> rstrip (s ++ [z]) = s ++ [z].
Proof.
  intros H. unfold rstrip. rewrite rev_app_distr. cbn [rev app lstrip].
  rewrite H. cbn [rev]. rewrite rev_involutive. reflexivity.
Qed.

Lemma strip_ends x t :
  is_space x = false -> is_space (last (x :: t) 0) = false ->
  strip (x :: t) = x :: t.
Proof.
  intros Hx Hl. unfold strip. rewrite (lstrip_nonspace x t Hx).
  rewrite (app_removelast_last (l := x :: t) 0) by discriminate.
  apply rstrip_last. exact Hl.
Qed.

(** ** [re.sub(r"\s+", " ", name)] *)

Lemma re_match_spaces_none x t :
  is_space x = false -> re_match re_spaces (x :: t) = None.
Proof.
  intros H. unfold re_match, re_spaces, Plus. rewrite rmatch_rep_chr.
  apply rep_chr_needs_one; [exact H | lia].
Qed.

Lemma re_match_spaces_one x t :
  is_space x = true -> stops is_space t ->
  re_match re_spaces (x :: t) = Some (t, []).
Proof.
  intros H Ht. unfold re_match, re_spaces, Plus. rewrite rmatch_rep_chr.
  cbn [rep_chr option_map Nat.pred]. rewrite H.
  pose proof (rep_chr_star_run is_space [] t [] accept_any (t, [])
                                eq_refl Ht eq_refl) as E.
  cbn [app] in E. rewrite E. reflexivity.
Qed.

Lemma re_sub_single_spaces s : forall fuel,
  (length s < fuel)%nat -> single_spaces s = true ->
  re_sub_loop fuel re_spaces (u" ") s = map squash s.
Proof.
  induction s as [|x s IH]; intros fuel Hf H;
    (destruct fuel as [|f]; [lia|]); [reflexivity|].
  cbn [length] in Hf. cbn [single_spaces] in H.
  apply andb_true_iff in H as [Hx Hs].
  cbn [re_sub_loop map]. unfold squash at 1.
  destruct (is_space x) eqn:Ex.
  - cbn [negb orb] in Hx.
    rewrite (re_match_spaces_one x s Ex).
    + replace (length s <? length (x :: s))%nat with true
        by (symmetry; apply Nat.ltb_lt; cbn; lia).
      rewrite (IH f ltac:(lia) Hs). reflexivity.
    + destruct s as [|y s]; [exact I|]. cbn. apply negb_true_iff, Hx.
  - rewrite (re_match_spaces_none x s Ex), (IH f ltac:(lia) Hs). reflexivity.
Qed.

Lemma single_spaces_no_pair s : forall pre a b post,
  single_spaces s = true -> s = pre ++ a :: b :: post ->
  is_space a = true -> is_space b = true -> False.
Proof.
  induction s as [|x s IH]; intros pre a b post H E Ha Hb.
  - destruct pre; discriminate.
  - cbn [single_spaces] in H. apply andb_true_iff in H as [Hx Hs].
    destruct pre as [|p pre]; cbn [app] in E; injection E as -> ->.
    + rewrite Ha, Hb in Hx. discriminate.
    + apply (IH pre a b post Hs eq_refl Ha Hb).
Qed.

Lemma squash_space c : squash c = ch_space -> is_space c = true.
Proof.
  unfold squash. destruct (is_space c) eqn:E; [reflexivity|].
  intros ->. discriminate.
Qed.

Lemma squash_name c : name_char c = true -> squash c = c.
Proof.
  intros H. unfold squash. rewrite (name_char_not_space c H). reflexivity.
Qed.

(** The raw name made from a word of the name group. *)
Lemma raw_name_of_group g :
  lang name_group g ->
  exists x t,
    g = x :: t /\ name_char x = true /\ spaced t = true /\
    re_sub re_spaces (u" ") (strip g) = x :: map squash t.
Proof.
  intros H. apply lang_name_group in H as (x & t & -> & Hx & Ht).
  exists x, t. repeat split; try assumption.
  rewrite (strip_ends x t (name_char_not_space x Hx)
                      (name_char_not_space _ (spaced_last t x Hx Ht))).
  unfold re_sub. rewrite re_sub_single_spaces.
  - cbn [map]. rewrite (squash_name x Hx). reflexivity.
  - lia.
  - cbn [single_spaces]. rewrite (name_char_not_space x Hx).
    apply (spaced_single t Ht).
Qed.

Lemma last_map_cons (f : N -> N) t : forall x d d',
  last (map f (x :: t)) d' = f (last (x :: t) d).
Proof.
  induction t as [|y t IH]; intros x d d'; [reflexivity|].
  change (last (map f (x :: y :: t)) d') with (last (map f (y :: t)) d').
  change (last (x :: y :: t) d) with (last (y :: t) d). apply IH.
Qed.

Lemma In_names_fold lines : forall acc n,
  In n (fst (fold_left extract_line lines acc)) ->
  In n (fst acc) \/
  exists line, In line lines /\ In n (fst (extract_line ([], []) line)).
Proof.
  induction lines as [|l ls IH]; intros acc n; cbn [fold_left]; [auto|].
  intros H. destruct (IH _ n H) as [H'|(line & Hl & Hn)].
  - destruct acc as [names log]. rewrite extract_line_acc in H'.
    cbn [fst] in H'. apply in_app_or in H' as [H'|H']; [left; exact H'|].
    right. exists l. split; [left; reflexivity | exact H'].
  - right. exists line. split; [right; exact Hl | exact Hn].
Qed.

Lemma extract_line_name line n :
  In n (fst (extract_line ([], []) line)) ->
  exists m g,
    re_search pattern (strip line) = Some m /\ m_group 1 m = Some g /\
    lang name_group g /\ n = re_sub re_spaces (u" ") (strip g).
Proof.
  unfold extract_line.
  destruct (is_empty (strip line)
            || negb match re_search re_numbering (strip line) with
                    | Some _ => true | None => false end); [intros []|].
  destruct (re_search pattern (strip line)) as [m|] eqn:E; [|intros []].
  destruct (pattern_group_lang _ m E) as (g & Hg & Hl). rewrite Hg.
  cbn [fst app]. intros [<-|[]]. exists m, g. auto.
Qed.

(** Every raw name comes from a match of [pattern] in a line of the text. *)
Lemma raw_name_origin text n :
  In n (fst (extract_names_from_text text)) ->
  exists line m g,
    In line (split_char ch_newline text) /\
    re_search pattern (strip line) = Some m /\ m_group 1 m = Some g /\
    lang name_group g /\ n = re_sub re_spaces (u" ") (strip g).
Proof.
  unfold extract_names_from_text. intros H.
  apply In_names_fold in H as [[]|(line & Hl & Hn)].
  apply extract_line_name in Hn as (m & g & Hn). exists line, m, g. auto.
Qed.

(** X10. Every raw name is clean: it is not empty, it has no whitespace at
    either end, its characters are name characters and spaces, and it
    holds no two spaces in a row. *)
Theorem raw_names_are_clean text n :
  In n (fst (extract_names_from_text text)) ->
  n <> [] /\ strip n = n /\
  (forall c, In c n -> name_char c = true \/ c = ch_space) /\
  (forall pre post, n <> pre ++ ch_space :: ch_space :: post).
Proof.
  intros H. apply raw_name_origin in H as (_ & _ & g & _ & _ & _ & Hl & ->).
  apply raw_name_of_group in Hl as (x & t & -> & Hx & Ht & ->).
  split; [discriminate|]. split; [|split].
  - apply strip_ends; [apply name_char_not_space, Hx|].
    rewrite <- (squash_name x Hx). change (squash x :: map squash t)
      with (map squash (x :: t)).
    rewrite (last_map_cons squash t x 0 0).
    pose proof (spaced_last t x Hx Ht) as Hl.
    rewrite (squash_name _ Hl). apply name_char_not_space, Hl.
  - intros c [<-|Hc]; [left; exact Hx|].
    apply in_map_iff in Hc as (c0 & <- & Hc0).
    destruct (spaced_chars t Ht c0 Hc0) as [Hn|Hs].
    + left. rewrite (squash_name c0 Hn). exact Hn.
    + right. unfold squash. rewrite Hs. reflexivity.
  - intros pre post E.
    assert (Hss : single_spaces (x :: t) = true).
    { cbn [single_spaces]. rewrite (name_char_not_space x Hx).
      apply (spaced_single t Ht). }
    rewrite <- (squash_name x Hx) in E.
    change (squash x :: map squash t) with (map squash (x :: t)) in E.
    apply map_eq_app in E as (pre' & rest & E & _ & E2).
    apply map_eq_cons in E2 as (a & rest2 & -> & Ha & E3).
    apply map_eq_cons in E3 as (b & post' & -> & Hb & _).
    apply (single_spaces_no_pair (x :: t) pre' a b post' Hss E);
      apply squash_space; assumption.
Qed.

(** ** Numbered lines *)

Lemma rep_chr_plus_run p x ws rest c k a :
  p x = true -> forallb p ws = true -> stops p rest -> k rest c = Some a ->
  rep_chr p 1 None (x :: ws ++ rest) c k = Some a.
Proof.
  intros Hx Hws Hrest Hk. cbn [rep_chr option_map Nat.pred]. rewrite Hx.
  rewrite (rep_chr_star_run p ws rest c k a Hws Hrest Hk). reflexivity.
Qed.

Lemma rparen_not_digit : is_digit ch_rparen = false.
Proof. reflexivity. Qed.

Lemma numbering_match ds rest :
  ds <> [] -> forallb is_digit ds = true ->
  re_match re_numbering (ds ++ ch_rparen :: rest) = Some (rest, []).
Proof.
  intros Hne Hds. destruct ds as [|d ds]; [contradiction|].
  cbn [forallb] in Hds. apply andb_true_iff in Hds as [Hd Hds].
  unfold re_match, re_numbering, Plus. rewrite rmatch_Seq, rmatch_rep_chr.
  cbn [app]. apply rep_chr_plus_run; try assumption.
  - exact rparen_not_digit.
  - rewrite rmatch_Lit. reflexivity.
Qed.

Lemma re_search_head r s rest c :
  re_match r s = Some (rest, c) -> re_search r s = Some (MatchObj s rest c).
Proof. intros H. rewrite re_search_eq, H. reflexivity. Qed.

Lemma lstrip_app u z v :
  is_space z = false -> lstrip (u ++ z :: v) = lstrip u ++ z :: v.
Proof.
  intros Hz. induction u as [|c u IH]; cbn [app lstrip].
  - rewrite Hz. reflexivity.
  - destruct (is_space c); [exact IH | reflexivity].
Qed.

Lemma rstrip_app a z b :
  is_space z = false -> rstrip (a ++ z :: b) = a ++ z :: rstrip b.
Proof.
  intros Hz. unfold rstrip. rewrite rev_app_distr. cbn [rev].
  rewrite <- app_assoc. cbn [app]. rewrite (lstrip_app _ z _ Hz).
  rewrite rev_app_distr. cbn [rev]. rewrite rev_involutive, <- app_assoc.
  reflexivity.
Qed.

Lemma In_rstrip c s : In c (rstrip s) -> In c s.
Proof.
  intros H. destruct (rstrip_decomp s) as (ws & E & _). rewrite E.
  apply in_or_app. left. exact H.
Qed.

Lemma split_char_loop_none sep s : forall cur,
  ~ In sep s -> split_char_loop sep s cur = [rev cur ++ s].
Proof.
  induction s as [|x s IH]; intros cur H; cbn [split_char_loop].
  - rewrite app_nil_r. reflexivity.
  - destruct (N.eqb_spec x sep) as [->|Hne]; [exfalso; apply H; left; reflexivity|].
    rewrite IH by (intros Hin; apply H; right; exact Hin).
    cbn [rev]. rewrite <- app_assoc. reflexivity.
Qed.

Lemma one_line s :
  ~ In ch_newline s ->
  extract_names_from_text s = extract_line ([], []) s.
Proof.
  intros H. unfold extract_names_from_text, split_char.
  rewrite (split_char_loop_none ch_newline s [] H). reflexivity.
Qed.

Lemma digits_no c ds :
  is_digit c = false -> forallb is_digit ds = true -> ~ In c ds.
Proof.
  intros Hc Hds Hin.
  rewrite (proj1 (forallb_forall _ _) Hds c Hin) in Hc. discriminate.
Qed.

(** What follows a character that does not occur before it. *)
Lemma after_first (z : N) ds : forall l1 tail junk,
  ~ In z ds -> l1 ++ z :: tail = ds ++ z :: junk ->
  exists mid, junk = mid ++ tail.
Proof.
  induction ds as [|d ds IH]; intros l1 tail junk Hz E.
  - destruct l1 as [|c l1]; cbn [app] in E.
    + injection E as <-. exists []. reflexivity.
    + injection E as _ <-. exists (l1 ++ [z]). rewrite <- app_assoc. reflexivity.
  - destruct l1 as [|c l1]; cbn [app] in E.
    + injection E as -> _. exfalso. apply Hz. left. reflexivity.
    + injection E as _ E. apply (IH l1 tail junk); [|exact E].
      intros Hin. apply Hz. right. exact Hin.
Qed.

Lemma lang_grp_inv i r s : lang (Grp i r) s -> lang r s.
Proof. intros H. inversion H. assumption. Qed.

(** A match of [pattern]: a closing parenthesis, and a name character
    somewhere after it. *)
Lemma lang_pattern w :
  lang pattern w ->
  exists a b x t, w = a ++ ch_rparen :: b ++ x :: t /\ name_char x = true.
Proof.
  unfold pattern. intros H.
  apply lang_seq_inv in H as (a1 & r1 & -> & _ & H).
  apply lang_seq_inv in H as (a2 & r2 & -> & H2 & H).
  apply lang_seq_inv in H as (a3 & r3 & -> & _ & H).
  apply lang_seq_inv in H as (a4 & g & -> & _ & H).
  apply lang_lit in H2. subst a2.
  apply lang_grp_inv, lang_name_group in H as (x & t & -> & Hx & _).
  exists a1, (a3 ++ a4), x, t. split; [|exact Hx].
  cbn [app]. rewrite <- !app_assoc. reflexivity.
Qed.

Lemma pattern_needs_name ds junk :
  ~ In ch_rparen ds ->
  (forall c, In c junk -> name_char c = false) ->
  re_search pattern (ds ++ ch_rparen :: junk) = None.
Proof.
  intros Hds Hjunk.
  destruct (re_search pattern (ds ++ ch_rparen :: junk)) as [m|] eqn:E;
    [|reflexivity].
  exfalso. apply re_search_lang in E as (pre & w & E & _ & Hl).
  apply lang_pattern in Hl as (a & b & x & t & -> & Hx).
  rewrite <- !app_assoc in E. cbn [app] in E. rewrite app_assoc in E.
  symmetry in E. apply after_first in E as [mid E]; [|exact Hds].
  rewrite (Hjunk x) in Hx; [discriminate|].
  rewrite E. repeat (rewrite in_app_iff || cbn [In]). auto 10.
Qed.

Lemma digit_not_newline ds :
  forallb is_digit ds = true -> ~ In ch_newline ds.
Proof. apply digits_no. reflexivity. Qed.

Lemma strip_numbered ds rest :
  ds <> [] -> forallb is_digit ds = true ->
  strip (ds ++ ch_rparen :: rest) = ds ++ ch_rparen :: rstrip rest.
Proof.
  intros Hne Hds. unfold strip. destruct ds as [|d ds]; [contradiction|].
  cbn [forallb] in Hds. apply andb_true_iff in Hds as [Hd _].
  cbn [app]. rewrite (lstrip_nonspace d _ (is_digit_not_space d Hd)).
  apply (rstrip_app (d :: ds) ch_rparen rest). reflexivity.
Qed.

(** X11. A numbered line on which no name character follows the closing
    parenthesis gives no name and one warning, which quotes the line
    without its surrounding whitespace. *)
Theorem numbered_line_without_name_warns ds junk :
  ds <> [] -> forallb is_digit ds = true ->
  forallb (fun c => negb (name_char c) && negb (c =? ch_newline)) junk = true ->
  extract_names_from_text (ds ++ [ch_rparen] ++ junk)
  = ([], [Warning (u"❌ 이름 추출 실패: '"
                    ++ strip (ds ++ [ch_rparen] ++ junk) ++ u"'")]).
Proof.
  intros Hne Hds Hjunk. cbn [app].
  assert (Hj : forall c, In c junk -> name_char c = false /\ c <> ch_newline).
  { intros c Hc. apply (proj1 (forallb_forall _ _) Hjunk) in Hc.
    apply andb_true_iff in Hc as [H1 H2].
    apply negb_true_iff in H1, H2. apply N.eqb_neq in H2. auto. }
  rewrite one_line.
  2:{ intros Hin. apply in_app_or in Hin as [Hin|[Hin|Hin]].
      - apply (digit_not_newline ds Hds Hin).
      - discriminate.
      - apply (proj2 (Hj _ Hin)). reflexivity. }
  unfold extract_line. rewrite (strip_numbered ds junk Hne Hds).
  rewrite (re_search_head _ _ _ _ (numbering_match ds (rstrip junk) Hne Hds)).
  replace (is_empty (ds ++ ch_rparen :: rstrip junk)) with false
    by (destruct ds; [contradiction|reflexivity]).
  cbn [negb orb]. rewrite pattern_needs_name; [reflexivity| |].
  - apply digits_no; [exact rparen_not_digit | exact Hds].
  - intros c Hc. apply (Hj c), In_rstrip, Hc.
Qed.

(** ** A numbered line with a plain name *)

Lemma rep_chr_lit_fail p x w : forall lo hi c k,
  ~ In x w ->
  rep_chr p lo hi w c (fun s' c' => rmatch (Lit x) s' c' k) = None.
Proof.
  induction w as [|y w IH]; intros lo hi c k Hx.
  - destruct lo, hi as [[|h]|]; reflexivity.
  - assert (Hy : (x =? y) = false)
      by (apply N.eqb_neq; intros ->; apply Hx; left; reflexivity).
    assert (Hstop : rmatch (Lit x) (y :: w) c k = None)
      by (unfold Lit; rewrite rmatch_Chr, Hy; reflexivity).
    assert (Hw : ~ In x w) by (intros Hin; apply Hx; right; exact Hin).
    cbn [rep_chr]. rewrite Hstop.
    destruct hi as [[|h]|], lo; try reflexivity;
      destruct (p y); try reflexivity; rewrite (IH _ _ c k Hw); reflexivity.
Qed.

Lemma rep_chr_lit_fail_tl p x y w lo hi c k :
  (0 < lo)%nat -> ~ In x w ->
  rep_chr p lo hi (y :: w) c (fun s' c' => rmatch (Lit x) s' c' k) = None.
Proof.
  intros Hlo Hx. destruct lo as [|lo]; [lia|]. cbn [rep_chr].
  rewrite (rep_chr_lit_fail p x w _ _ c k Hx).
  destruct hi as [[|h]|], (p y); reflexivity.
Qed.

(** The optional group label of [pattern] needs a 조 after its first
    character. *)
Lemma label_fail w c k :
  ~ In ch_jo (tl w) ->
  rmatch ((Plus (Chr is_digit) +> Lit ch_jo </> Plus (Chr is_hangul) +> Lit ch_jo)
          +> Star (Chr sep_char)) w c k = None.
Proof.
  intros H. rewrite rmatch_Seq, rmatch_Alt, !rmatch_Seq. unfold Plus.
  rewrite !rmatch_rep_chr. destruct w as [|y w].
  - reflexivity.
  - cbn [tl] in H.
    rewrite (rep_chr_lit_fail_tl is_digit ch_jo y w 1 None c _ ltac:(lia) H).
    rewrite (rep_chr_lit_fail_tl is_hangul ch_jo y w 1 None c _ ltac:(lia) H).
    reflexivity.
Qed.

Lemma rmatch_Rep0_skip hi r s c k :
  (forall k', rmatch r s c k' = None) -> rmatch (Rep 0 hi r) s c k = k s c.
Proof.
  intros H.
  change (rmatch (Rep 0 hi r) s c k)
    with (rep_loop (rmatch r) (S (length s)) 0 hi s c k).
  cbn [rep_loop]. destruct hi as [[|h]|]; rewrite ?H; reflexivity.
Qed.

Lemma consumed_all (w : str) : consumed w [] = w.
Proof. unfold consumed. cbn [length]. rewrite Nat.sub_0_r. apply firstn_all. Qed.

Lemma name_group_end w c :
  w <> [] -> forallb name_char w = true ->
  rmatch (Grp 1 (Plus (Chr name_char)
                 +> Star (Chr sep_char +> Plus (Chr name_char))))
         w c accept_any
  = Some ([], (1%nat, w) :: c).
Proof.
  intros Hne Hw. destruct w as [|x w]; [contradiction|].
  cbn [forallb] in Hw. apply andb_true_iff in Hw as [Hx Hw].
  rewrite rmatch_Grp, rmatch_Seq. unfold Plus at 1. rewrite rmatch_rep_chr.
  rewrite <- (app_nil_r w) at 1.
  apply rep_chr_plus_run; [exact Hx | exact Hw | exact I|].
  unfold Star. rewrite rmatch_Rep0_skip by (intros k'; reflexivity).
  rewrite consumed_all. reflexivity.
Qed.

Lemma pattern_match_plain ds ws w :
  ds <> [] -> forallb is_digit ds = true -> forallb is_space ws = true ->
  w <> [] -> forallb name_char w = true -> ~ In ch_jo (tl w) ->
  re_match pattern (ds ++ ch_rparen :: ws ++ w) = Some ([], [(1%nat, w)]).
Proof.
  intros Hne Hds Hws Hw Hname Hjo.
  destruct ds as [|d ds]; [contradiction|].
  cbn [forallb] in Hds. apply andb_true_iff in Hds as [Hd Hds].
  unfold re_match, pattern. rewrite rmatch_Seq. unfold Plus at 1.
  rewrite rmatch_rep_chr. cbn [app].
  apply rep_chr_plus_run; [exact Hd | exact Hds | exact rparen_not_digit|].
  rewrite rmatch_Seq, rmatch_Lit, rmatch_Seq. unfold Star at 1.
  rewrite rmatch_rep_chr.
  apply rep_chr_star_run; [exact Hws| |].
  - destruct w as [|x w]; [exact I|]. cbn [forallb] in Hname.
    apply andb_true_iff in Hname as [Hx _]. apply name_char_not_space, Hx.
  - rewrite rmatch_Seq. unfold Opt.
    rewrite rmatch_Rep0_skip by (intros k'; apply label_fail, Hjo).
    apply name_group_end; assumption.
Qed.

Lemma no_space_single w :
  forallb (fun c => negb (is_space c)) w = true ->
  single_spaces w = true /\ map squash w = w.
Proof.
  induction w as [|x w IH]; intros H; [split; reflexivity|].
  cbn [forallb] in H. apply andb_true_iff in H as [Hx Hw].
  destruct (IH Hw) as [H1 H2]. cbn [single_spaces map].
  rewrite Hx, H1, H2. unfold squash. apply negb_true_iff in Hx. rewrite Hx.
  split; reflexivity.
Qed.

Lemma last_In (t : str) : forall x d, In (last (x :: t) d) (x :: t).
Proof.
  induction t as [|y t IH]; intros x d; [left; reflexivity|].
  change (last (x :: y :: t) d) with (last (y :: t) d). right. apply IH.
Qed.

Lemma strip_no_space w :
  forallb (fun c => negb (is_space c)) w = true -> strip w = w.
Proof.
  intros H. destruct w as [|x t]; [reflexivity|].
  rewrite forallb_forall in H.
  apply strip_ends; apply negb_true_iff, H;
    [left; reflexivity | apply last_In].
Qed.


(** ** A numbered line with a group label *)

Lemma rep_chr_lit_last p x H : forall lo rest c k a,
  forallb p H = true -> (lo <= length H)%nat -> ~ In x rest ->
  k rest c = Some a ->
  rep_chr p lo None (H ++ x :: rest) c (fun s' c' => rmatch (Lit x) s' c' k)
  = Some a.
Proof.
  induction H as [|h H IH]; intros lo rest c k a Hp Hlo Hx Hk.
  - cbn in Hlo. assert (lo = 0%nat) by lia. subst lo.
    cbn [app rep_chr option_map Nat.pred]. rewrite rmatch_Lit, Hk.
    destruct (p x); [|reflexivity].
    rewrite (rep_chr_lit_fail p x rest 0 None c k Hx). reflexivity.
  - cbn [forallb] in Hp. apply andb_true_iff in Hp as [Hh Hp].
    cbn [length] in Hlo. cbn [app rep_chr option_map]. rewrite Hh.
    rewrite (IH (Nat.pred lo) rest c k a Hp ltac:(lia) Hx Hk). reflexivity.
Qed.

Lemma rmatch_Opt_unfold r s c k :
  rmatch (Opt r) s c k
  = match rmatch r s c
            (fun s' c' =>
               if (length s' <? length s)%nat
               then rep_loop (rmatch r) (length s) 0 (Some 0%nat) s' c' k
               else None) with
    | Some a => Some a
    | None => k s c
    end.
Proof. reflexivity. Qed.

Lemma hangul_not_digit c : is_hangul c = true -> is_digit c = false.
Proof.
  intros H. unfold is_digit, decimal_value. rewrite H.
  unfold is_hangul, in_range in H. apply andb_true_iff in H as [H _].
  apply N.leb_le in H.
  destruct (N.ltb_spec c 128); [lia | reflexivity].
Qed.

Lemma sep_not_jo seps : forallb sep_char seps = true -> ~ In ch_jo seps.
Proof.
  intros H Hin. apply (proj1 (forallb_forall _ _) H) in Hin. discriminate.
Qed.

(** The optional part of [pattern] on a label: the label and the
    separators after it are consumed. *)
Lemma label_taken lab seps w c (k : cont) a :
  lab <> [] ->
  forallb is_digit lab = true \/ forallb is_hangul lab = true ->
  forallb sep_char seps = true -> stops sep_char w -> ~ In ch_jo w ->
  k w c = Some a ->
  rmatch (Opt ((Plus (Chr is_digit) +> Lit ch_jo
                </> Plus (Chr is_hangul) +> Lit ch_jo)
               +> Star (Chr sep_char)))
         (lab ++ ch_jo :: seps ++ w) c k
  = Some a.
Proof.
  intros Hne Hlab Hseps Hstop Hjo Hk.
  destruct lab as [|l0 lab]; [contradiction|].
  assert (Hrest : ~ In ch_jo (seps ++ w)).
  { intros Hin. apply in_app_or in Hin as [Hin|Hin];
      [apply (sep_not_jo seps Hseps Hin) | apply (Hjo Hin)]. }
  rewrite rmatch_Opt_unfold.
  set (KK := fun (s' : str) (c' : caps) =>
               if (length s' <? length ((l0 :: lab) ++ ch_jo :: seps ++ w))%nat
               then rep_loop _ (length ((l0 :: lab) ++ ch_jo :: seps ++ w))
                             0 (Some 0%nat) s' c' k
               else None).
  assert (HKK : KK w c = Some a).
  { unfold KK.
    replace (length w <? length ((l0 :: lab) ++ ch_jo :: seps ++ w))%nat
      with true
      by (symmetry; apply Nat.ltb_lt; cbn [app length];
          rewrite !length_app; cbn [length]; rewrite length_app; lia).
    cbn [app length rep_loop]. exact Hk. }
  assert (HS : rmatch (Star (Chr sep_char)) (seps ++ w) c KK = Some a).
  { unfold Star. rewrite rmatch_rep_chr.
    apply rep_chr_star_run; assumption. }
  rewrite rmatch_Seq, rmatch_Alt, !rmatch_Seq. unfold Plus.
  rewrite !rmatch_rep_chr.
  destruct Hlab as [Hd|Hh].
  - rewrite (rep_chr_lit_last is_digit ch_jo (l0 :: lab) 1 (seps ++ w) c _ a
               Hd ltac:(cbn; lia) Hrest HS).
    reflexivity.
  - cbn [forallb] in Hh. pose proof Hh as Hh'.
    apply andb_true_iff in Hh' as [H0 _].
    assert (HA : forall K, rep_chr is_digit 1 None
                             ((l0 :: lab) ++ ch_jo :: seps ++ w) c K = None).
    { intros K. apply (rep_chr_needs_one is_digit 1 None l0 _ c K
                         (hangul_not_digit l0 H0)). lia. }
    rewrite HA.
    rewrite (rep_chr_lit_last is_hangul ch_jo (l0 :: lab) 1 (seps ++ w) c _ a
               Hh ltac:(cbn; lia) Hrest HS).
    reflexivity.
Qed.

Lemma pattern_match_label ds ws lab seps w :
  ds <> [] -> forallb is_digit ds = true -> forallb is_space ws = true ->
  lab <> [] ->
  forallb is_digit lab = true \/ forallb is_hangul lab = true ->
  forallb sep_char seps = true ->
  w <> [] -> forallb name_char w = true -> stops sep_char w -> ~ In ch_jo w ->
  re_match pattern (ds ++ ch_rparen :: ws ++ lab ++ ch_jo :: seps ++ w)
  = Some ([], [(1%nat, w)]).
Proof.
  intros Hne Hds Hws Hl Hlab Hseps Hw Hname Hstop Hjo.
  destruct ds as [|d ds]; [contradiction|].
  cbn [forallb] in Hds. apply andb_true_iff in Hds as [Hd Hds].
  unfold re_match, pattern. rewrite rmatch_Seq. unfold Plus at 1.
  rewrite rmatch_rep_chr. cbn [app].
  apply rep_chr_plus_run; [exact Hd | exact Hds | exact rparen_not_digit|].
  rewrite rmatch_Seq, rmatch_Lit, rmatch_Seq. unfold Star at 1.
  rewrite rmatch_rep_chr.
  apply rep_chr_star_run; [exact Hws| |].
  - destruct lab as [|l0 lab]; [contradiction|]. cbn [app stops].
    destruct Hlab as [H|H]; cbn [forallb] in H;
      apply andb_true_iff in H as [H _].
    + apply is_digit_not_space, H.
    + apply name_char_not_space. unfold name_char. rewrite H.
      rewrite orb_true_r. reflexivity.
  - rewrite rmatch_Seq.
    apply label_taken; try assumption.
    apply name_group_end; assumption.
Qed.

(** ** What a numbered line gives *)

Lemma numbered_line_result ds rest w rst :
  ds <> [] -> forallb is_digit ds = true ->
  ~ In ch_newline rest -> rstrip rest = rest ->
  re_match pattern (ds ++ ch_rparen :: rest) = Some (rst, [(1%nat, w)]) ->
  forallb (fun c => negb (is_space c)) w = true ->
  extract_names_from_text (ds ++ ch_rparen :: rest) = ([w], []).
Proof.
  intros Hne Hds Hnl Hr Hm Hns.
  rewrite one_line.
  2:{ intros Hin. apply in_app_or in Hin as [Hin|[Hin|Hin]].
      - apply (digit_not_newline ds Hds Hin).
      - discriminate.
      - apply (Hnl Hin). }
  unfold extract_line. rewrite (strip_numbered ds rest Hne Hds), Hr.
  rewrite (re_search_head _ _ _ _ (numbering_match ds rest Hne Hds)).
  replace (is_empty (ds ++ ch_rparen :: rest)) with false
    by (destruct ds; [contradiction|reflexivity]).
  cbn [negb orb]. rewrite (re_search_head _ _ _ _ Hm).
  cbn [m_group m_caps group Nat.eqb]. rewrite (strip_no_space w Hns).
  unfold re_sub. destruct (no_space_single w Hns) as [H1 H2].
  rewrite (re_sub_single_spaces w (S (length w)) ltac:(lia) H1), H2.
  reflexivity.
Qed.

Lemma rstrip_word pre w :
  w <> [] -> forallb (fun c => negb (is_space c)) w = true ->
  rstrip (pre ++ w) = pre ++ w.
Proof.
  intros Hw Hns. destruct (exists_last Hw) as (w0 & z & ->).
  rewrite app_assoc. apply rstrip_last.
  apply negb_true_iff, (proj1 (forallb_forall _ _) Hns).
  apply in_or_app. right. left. reflexivity.
Qed.

Lemma forallb_and (p q : N -> bool) l :
  forallb (fun c => p c && q c) l = true ->
  forallb p l = true /\ forallb q l = true.
Proof.
  induction l as [|x l IH]; [split; reflexivity|]. cbn [forallb].
  rewrite !andb_true_iff. intros [[Hp Hq] Hl]. destruct (IH Hl). auto.
Qed.

Lemma forallb_not x l :
  forallb (fun c => negb (c =? x)) l = true -> ~ In x l.
Proof.
  intros H Hin. apply (proj1 (forallb_forall _ _) H) in Hin.
  rewrite N.eqb_refl in Hin. discriminate.
Qed.

Lemma name_chars_no_space w :
  forallb name_char w = true ->
  forallb (fun c => negb (is_space c)) w = true.
Proof.
  intros H. apply forallb_forall. intros c Hc.
  rewrite (name_char_not_space c (proj1 (forallb_forall _ _) H c Hc)).
  reflexivity.
Qed.

Lemma no_space_no_newline w :
  forallb (fun c => negb (is_space c)) w = true -> ~ In ch_newline w.
Proof.
  intros H Hin. apply (proj1 (forallb_forall _ _) H) in Hin. discriminate.
Qed.

(** X12. A numbered line whose numbering is followed by one word of name
    characters, with no 조 after its first character, gives exactly that
    word, and no warning. *)
Theorem numbered_line_gives_its_name ds ws w :
  ds <> [] -> forallb is_digit ds = true ->
  forallb (fun c => is_space c && negb (c =? ch_newline)) ws = true ->
  w <> [] -> forallb name_char w = true ->
  forallb (fun c => negb (c =? ch_jo)) (tl w) = true ->
  extract_names_from_text (ds ++ [ch_rparen] ++ ws ++ w) = ([w], []).
Proof.
  intros Hne Hds Hws Hw Hnc Hjo. cbn [app].
  apply forallb_and in Hws as [Hsp Hnl]. apply forallb_not in Hnl.
  apply forallb_not in Hjo.
  pose proof (name_chars_no_space w Hnc) as Hns.
  apply (numbered_line_result ds (ws ++ w) w [] Hne Hds).
  - intros Hin. apply in_app_or in Hin as [Hin|Hin];
      [apply (Hnl Hin) | apply (no_space_no_newline w Hns Hin)].
  - apply rstrip_word; assumption.
  - apply pattern_match_plain; assumption.
  - exact Hns.
Qed.

(** X13. A group label after the numbering, digits or Hangul syllables
    followed by 조, is not part of the raw name, with or without
    separators after the label: the line gives the word that follows. *)
Theorem group_label_is_dropped ds ws lab seps w :
  ds <> [] -> forallb is_digit ds = true ->
  forallb (fun c => is_space c && negb (c =? ch_newline)) ws = true ->
  lab <> [] ->
  forallb is_digit lab = true \/ forallb is_hangul lab = true ->
  forallb (fun c => sep_char c && negb (c =? ch_newline)) seps = true ->
  w <> [] ->
  forallb (fun c => name_char c && negb (c =? ch_jo) && negb (c =? ch_slash)) w
  = true ->
  extract_names_from_text
    (ds ++ [ch_rparen] ++ ws ++ lab ++ [ch_jo] ++ seps ++ w)
  = ([w], []).
Proof.
  intros Hne Hds Hws Hl Hlab Hseps Hw Hname. cbn [app].
  apply forallb_and in Hws as [Hsp Hnl]. apply forallb_not in Hnl.
  apply forallb_and in Hseps as [Hsep Hnl']. apply forallb_not in Hnl'.
  apply forallb_and in Hname as [Hname Hsl]. apply forallb_not in Hsl.
  apply forallb_and in Hname as [Hnc Hjo]. apply forallb_not in Hjo.
  pose proof (name_chars_no_space w Hnc) as Hns.
  assert (Hstop : stops sep_char w).
  { destruct w as [|x w]; [exact I|]. cbn [stops]. unfold sep_char.
    cbn [forallb] in Hns. apply andb_true_iff in Hns as [Hx _].
    apply negb_true_iff in Hx. rewrite Hx. cbn [orb]. apply N.eqb_neq.
    intros ->. apply Hsl. left. reflexivity. }
  assert (Hlabnl : ~ In ch_newline lab).
  { intros Hin. destruct Hlab as [H|H];
      apply (proj1 (forallb_forall _ _) H) in Hin; discriminate. }
  apply (numbered_line_result ds (ws ++ lab ++ ch_jo :: seps ++ w) w []
                              Hne Hds).
  - intros Hin. apply in_app_or in Hin as [Hin|Hin]; [apply (Hnl Hin)|].
    apply in_app_or in Hin as [Hin|[Hin|Hin]];
      [apply (Hlabnl Hin) | discriminate|].
    apply in_app_or in Hin as [Hin|Hin];
      [apply (Hnl' Hin) | apply (no_space_no_newline w Hns Hin)].
  - rewrite !app_assoc. rewrite app_comm_cons, !app_assoc.
    apply rstrip_word; assumption.
  - apply pattern_match_label; assumption.
  - exact Hns.
Qed.

(** ** File names: where the date is found *)

(** X14. The text of a file name before its first decimal digit plays no
    part in the date; a file name without any decimal digit has no date. *)
Theorem text_before_first_digit_is_ignored :
  (forall pre s,
      forallb (fun c => negb (is_digit c)) pre = true ->
      extract_date_from_filename (pre ++ s) = extract_date_from_filename s)
  /\
  (forall name,
      forallb (fun c => negb (is_digit c)) name = true ->
      extract_date_from_filename name = None).
Proof.
  split.
  - intros pre s H. unfold extract_date_from_filename.
    rewrite (search_after_text pre s H). reflexivity.
  - intros name H. unfold extract_date_from_filename.
    rewrite <- (app_nil_r name), (search_after_text name [] H). reflexivity.
Qed.

Lemma number_4 a b c d :
  48 <= a <= 57 -> 48 <= b <= 57 -> 48 <= c <= 57 -> 48 <= d <= 57 ->
  number [a; b; c; d]
  = 1000 * (a - 48) + 100 * (b - 48) + 10 * (c - 48) + (d - 48).
Proof.
  intros Ha Hb Hc Hd. unfold number. cbn [fold_left].
  rewrite !digit_val_ascii by assumption. lia.
Qed.

Lemma is_ascii_digit_range c : 48 <= c <= 57 -> is_ascii_digit c = true.
Proof.
  intros H. unfold is_ascii_digit, in_range. apply andb_true_iff.
  rewrite !N.leb_le. exact H.
Qed.

Lemma digit_code q : q < 10 -> 48 <= 48 + q <= 57.
Proof. lia. Qed.

Lemma strip_code q : 48 + q - 48 = q.
Proof. lia. Qed.

Lemma number_of_digits_4 y :
  y < 10000 ->
  number [48 + y / 1000; 48 + (y / 100) mod 10; 48 + (y / 10) mod 10;
          48 + y mod 10] = y.
Proof.
  intros H.
  rewrite number_4;
    try (apply digit_code;
         first [apply N.mod_lt; discriminate
               | apply N.Div0.div_lt_upper_bound; exact H]).
  rewrite !strip_code. symmetry. apply digits_4.
Qed.

Lemma number_of_digits_2 m :
  m < 100 -> number [48 + m / 10; 48 + m mod 10] = m.
Proof.
  intros H.
  rewrite number_2;
    try (apply digit_code;
         first [apply N.mod_lt; discriminate
               | apply N.Div0.div_lt_upper_bound; exact H]).
  rewrite !strip_code. symmetry. apply digits_2.
Qed.

(** X15. The label of a date column names its date: a file name made of
    text without digits, [str(d)] for a calendar date [d], and any text
    after it, is dated [d]. *)
Theorem date_label_round_trip d pre post :
  valid_date (year d) (month d) (day d) = true ->
  forallb (fun c => negb (is_digit c)) pre = true ->
  extract_date_from_filename (pre ++ date_str d ++ post) = Some d.
Proof.
  intros Hd Hpre. rewrite (@date_str_ok d Hd).
  pose proof (@date_ok_bounds d Hd) as (Hy & Hm & Hdd).
  destruct d as [y m dd]. cbn [year month day] in *.
  assert (Hy' : y < 10000) by lia.
  assert (Hm' : m < 100) by lia.
  assert (Hd' : dd < 100) by lia.
  pose proof (number_of_digits_4 y Hy') as Ny.
  pose proof (number_of_digits_2 m Hm') as Nm.
  pose proof (number_of_digits_2 dd Hd') as Nd.
  assert (Hdiv : forall b n, n < b * 10 -> 48 <= 48 + n / b <= 57)
    by (intros b n Hn; apply digit_code, N.Div0.div_lt_upper_bound; assumption).
  assert (Hmod : forall n, 48 <= 48 + n mod 10 <= 57)
    by (intros n; apply digit_code, N.mod_lt; discriminate).
  rewrite (separated_date_after_text pre _ _ _ _ ch_minus _ _ ch_minus _ _ post
             Hpre).
  - rewrite Ny, Nm, Nd. reflexivity.
  - cbn [forallb].
    rewrite !ascii_is_digit;
      try apply Hmod; try (apply Hdiv; lia).
    reflexivity.
  - cbn [forallb].
    rewrite !is_ascii_digit_range;
      try apply Hmod; try (apply Hdiv; lia).
    reflexivity.
  - reflexivity.
  - reflexivity.
  - rewrite Ny, Nm, Nd. exact Hd.
Qed.

(** ** File names: the three forms of a date *)

Lemma rep_chr_exact p ds : forall rest c k,
  forallb p ds = true ->
  rep_chr p (length ds) (Some (length ds)) (ds ++ rest) c k = k rest c.
Proof.
  induction ds as [|x ds IH]; intros rest c k Hp.
  - destruct rest; reflexivity.
  - cbn in Hp. apply andb_true_iff in Hp as [Hx Hp].
    cbn [app length rep_chr option_map Nat.pred]. rewrite Hx, (IH rest c k Hp).
    destruct (k rest c); reflexivity.
Qed.

Lemma rep_chr_opt_skip p rest c k :
  stops p rest -> rep_chr p 0 (Some 1%nat) rest c k = k rest c.
Proof.
  intros H. destruct rest as [|x rest]; [reflexivity|].
  cbn in H. cbn [rep_chr]. rewrite H. reflexivity.
Qed.

Lemma digit_not_sep c : is_digit c = true -> dot_or_minus c = false.
Proof.
  intros H. unfold dot_or_minus. rewrite (digit_not_dot c H).
  rewrite N.eqb_sym. apply (digit_not_minus c H).
Qed.

(** An optional separator that is there, or that is missing before a
    digit. *)
Lemma rep_chr_opt_sep (s : str) x rest c k a :
  (length s <= 1)%nat -> forallb dot_or_minus s = true -> is_digit x = true ->
  k (x :: rest) c = Some a ->
  rep_chr dot_or_minus 0 (Some 1%nat) (s ++ x :: rest) c k = Some a.
Proof.
  intros Hl Hs Hx Hk. destruct s as [|y [|z s]]; [| |cbn in Hl; lia].
  - cbn [app]. rewrite rep_chr_opt_skip; [exact Hk|].
    cbn. apply digit_not_sep, Hx.
  - cbn [forallb] in Hs. rewrite andb_true_r in Hs.
    apply rep_chr_opt_take; assumption.
Qed.

(** A date of eight digits is matched with the separators it has. *)
Lemma match_date_digits y1 y2 y3 y4 (s1 s2 : str) m1 m2 d1 d2 post :
  forallb is_digit [y1; y2; y3; y4; m1; m2; d1; d2] = true ->
  (length s1 <= 1)%nat -> (length s2 <= 1)%nat ->
  forallb dot_or_minus s1 = true -> forallb dot_or_minus s2 = true ->
  re_match date_pattern
    (([y1; y2; y3; y4] ++ s1 ++ [m1; m2] ++ s2 ++ [d1; d2]) ++ post)
  = Some (post, [(1%nat, [y1; y2; y3; y4] ++ s1 ++ [m1; m2] ++ s2 ++ [d1; d2])]).
Proof.
  intros H Hl1 Hl2 Hs1 Hs2.
  destruct (forallb_digits_8 _ _ _ _ _ _ _ _ H)
    as (Hy1 & Hy2 & Hy3 & Hy4 & Hm1 & Hm2 & Hd1 & Hd2).
  unfold re_match, date_pattern, Times, Opt.
  rewrite rmatch_Grp, rmatch_Alt.
  match goal with
  | |- match ?x with _ => _ end = Some ?y => assert (Hfirst : x = Some y)
  end; [|rewrite Hfirst; reflexivity].
  rewrite <- !app_assoc.
  rewrite rmatch_Seq, rmatch_rep_chr.
  apply (rep_chr_times is_digit [y1; y2; y3; y4]);
    [cbn; rewrite Hy1, Hy2, Hy3, Hy4; reflexivity|].
  rewrite rmatch_Seq, rmatch_rep_chr.
  cbn [app]. apply (rep_chr_opt_sep s1 m1 _ _ _ _ Hl1 Hs1 Hm1).
  rewrite rmatch_Seq, rmatch_rep_chr.
  apply (rep_chr_times is_digit [m1; m2] (s2 ++ d1 :: d2 :: post));
    [cbn; rewrite Hm1, Hm2; reflexivity|].
  rewrite rmatch_Seq, rmatch_rep_chr.
  apply (rep_chr_opt_sep s2 d1 _ _ _ _ Hl2 Hs2 Hd1).
  rewrite rmatch_rep_chr.
  apply (rep_chr_times is_digit [d1; d2] post);
    [cbn; rewrite Hd1, Hd2; reflexivity|].
  unfold accept_any.
  replace (y1 :: y2 :: y3 :: y4 :: s1 ++ m1 :: m2 :: s2 ++ d1 :: d2 :: post)
    with (([y1; y2; y3; y4] ++ s1 ++ [m1; m2] ++ s2 ++ [d1; d2]) ++ post)
    by (rewrite <- !app_assoc; reflexivity).
  rewrite consumed_app. reflexivity.
Qed.

(** X16. A date of eight digits written without separators, or with a
    single one, is not recognised: when nothing but text without digits
    precedes it, the file has no date. *)
Theorem unseparated_date_is_rejected
        pre y1 y2 y3 y4 (s1 s2 : str) m1 m2 d1 d2 post :
  forallb (fun c => negb (is_digit c)) pre = true ->
  forallb is_digit [y1; y2; y3; y4; m1; m2; d1; d2] = true ->
  forallb dot_or_minus (s1 ++ s2) = true ->
  (length (s1 ++ s2) <= 1)%nat ->
  extract_date_from_filename
    (pre ++ ([y1; y2; y3; y4] ++ s1 ++ [m1; m2] ++ s2 ++ [d1; d2]) ++ post)
  = None.
Proof.
  intros Hpre Hdig Hsep Hlen.
  rewrite length_app in Hlen.
  rewrite forallb_app in Hsep. apply andb_true_iff in Hsep as [Hs1 Hs2].
  unfold extract_date_from_filename.
  rewrite (search_after_text pre _ Hpre), re_search_eq.
  rewrite (match_date_digits _ _ _ _ s1 s2 _ _ _ _ post Hdig
             ltac:(lia) ltac:(lia) Hs1 Hs2).
  cbn [m_group m_caps group Nat.eqb not_none bind].
  rewrite parse_ymd_compact; [reflexivity | exact Hdig | | | lia | lia].
  - destruct s1 as [|a s1]; [left; reflexivity|]. right.
    destruct s2 as [|b s2]; [reflexivity|]. cbn [length] in Hlen. lia.
  - intros x Hx. apply in_app_or in Hx as [Hx|Hx];
      [apply (proj1 (forallb_forall _ _) Hs1 x Hx)
      | apply (proj1 (forallb_forall _ _) Hs2 x Hx)].
Qed.

Lemma two_digits_fail (R : regex) s c k :
  stops is_digit s ->
  rmatch (Times 2 (Chr is_digit) +> R) s c k = None.
Proof.
  intros H. unfold Times. rewrite rmatch_Seq, rmatch_rep_chr.
  destruct s as [|x s]; [reflexivity|]. cbn in H.
  apply rep_chr_needs_one; [exact H | lia].
Qed.

Lemma wol_fail (R : regex) x s c k :
  is_digit x = true -> rmatch (Lit ch_wol +> R) (x :: s) c k = None.
Proof.
  intros H. rewrite rmatch_Seq. unfold Lit. rewrite rmatch_Chr.
  rewrite (wol_not_digit_char x H). reflexivity.
Qed.

Lemma rep_chr_zero p s c k : rep_chr p 0 (Some 0%nat) s c k = k s c.
Proof. destruct s; reflexivity. Qed.

Lemma code_ends_inv post :
  code_ends post = true ->
  stops is_digit post /\
  match post with
  | x :: t => dot_or_minus x = true -> stops is_digit t
  | [] => True
  end.
Proof.
  destruct post as [|x t]; [split; exact I|]. cbn [code_ends stops].
  intros H. apply andb_true_iff in H as [Hx H].
  apply negb_true_iff in Hx, H. split; [exact Hx|].
  intros Hs. rewrite Hs in H. destruct t as [|y t]; [exact I|exact H].
Qed.

(** A four-digit code that is not continued into a longer date is matched
    as it stands. *)
Lemma match_code c1 c2 c3 c4 post :
  forallb is_digit [c1; c2; c3; c4] = true -> code_ends post = true ->
  re_match date_pattern ([c1; c2; c3; c4] ++ post)
  = Some (post, [(1%nat, [c1; c2; c3; c4])]).
Proof.
  intros H Hpost. pose proof H as H'. cbn [forallb] in H'.
  rewrite !andb_true_iff in H'. destruct H' as (H1 & H2 & H3 & H4 & _).
  destruct (code_ends_inv post Hpost) as [Hp1 Hp2].
  unfold re_match, date_pattern. rewrite rmatch_Grp, !rmatch_Alt.
  match goal with
  | |- match ?x with _ => _ end = _ => assert (A1 : x = None)
  end.
  { rewrite rmatch_Seq. unfold Times at 1. rewrite rmatch_rep_chr.
    rewrite (rep_chr_exact is_digit [c1; c2; c3; c4] post _ _ H).
    rewrite rmatch_Seq. unfold Opt at 1. rewrite rmatch_rep_chr.
    destruct post as [|x t]; [apply two_digits_fail; exact I|].
    cbn [rep_chr option_map Nat.pred].
    rewrite (two_digits_fail _ (x :: t) _ _ Hp1).
    destruct (dot_or_minus x) eqn:Ex; [|reflexivity].
    specialize (Hp2 eq_refl).
    rewrite rep_chr_zero, (two_digits_fail _ t _ _ Hp2). reflexivity. }
  rewrite A1.
  match goal with
  | |- match ?x with _ => _ end = _ => assert (A2 : x = None)
  end.
  { rewrite rmatch_Seq, rmatch_rep_chr. cbn [app rep_chr option_map Nat.pred].
    rewrite H1, H2, (wol_fail _ c3 _ _ _ H3), (wol_fail _ c2 _ _ _ H2).
    reflexivity. }
  rewrite A2. unfold Times. rewrite rmatch_rep_chr.
  rewrite (rep_chr_exact is_digit [c1; c2; c3; c4] post _ _ H).
  unfold accept_any. rewrite consumed_app. reflexivity.
Qed.

(** X17. A four-digit code MMDD of ASCII digits, after text without digits
    and not continued into a longer date, is a day of 2024 when that day
    exists, and gives no date otherwise. *)
Theorem four_digit_code_is_a_day_of_2024 pre c1 c2 c3 c4 post :
  forallb (fun c => negb (is_digit c)) pre = true ->
  forallb is_ascii_digit [c1; c2; c3; c4] = true ->
  code_ends post = true ->
  extract_date_from_filename (pre ++ [c1; c2; c3; c4] ++ post)
  = if valid_date 2024 (number [c1; c2]) (number [c3; c4])
    then Some (Date 2024 (number [c1; c2]) (number [c3; c4]))
    else None.
Proof.
  intros Hpre Ha Hpost.
  pose proof (ascii_digits_are_digits _ Ha) as Hdig.
  cbn [forallb] in Ha. unfold is_ascii_digit, in_range in Ha.
  rewrite !andb_true_iff, !N.leb_le in Ha.
  destruct Ha as ([? ?] & [? ?] & [? ?] & [? ?] & _).
  unfold extract_date_from_filename.
  rewrite (search_after_text pre _ Hpre), re_search_eq.
  rewrite (match_code c1 c2 c3 c4 post Hdig Hpost).
  cbn [m_group m_caps group Nat.eqb not_none bind].
  rewrite (parse_mmdd c1 c2 c3 c4 Hdig).
  rewrite month_full_ascii, day_full_ascii by lia.
  rewrite make_date_guard. unfold make_date.
  destruct (valid_date 2024 (number [c1; c2]) (number [c3; c4])); reflexivity.
Qed.

Lemma four_digits_fail M x rest c k :
  digits12 M = true -> is_digit x = false ->
  rep_chr is_digit 4 (Some 4%nat) (M ++ x :: rest) c k = None.
Proof.
  intros HM Hx.
  destruct (digits12_cases M HM) as [(a & -> & Ha)|(a & b & -> & Ha & Hb)];
    cbn [app rep_chr option_map Nat.pred]; rewrite ?Ha, ?Hb, Hx; reflexivity.
Qed.

(** An "M월 D일" phrase is matched whole where it starts. *)
Lemma match_month_day M ws D post :
  digits12 M = true -> forallb is_space ws = true -> digits12 D = true ->
  re_match date_pattern ((M ++ [ch_wol] ++ ws ++ D ++ [ch_il]) ++ post)
  = Some (post, [(1%nat, M ++ [ch_wol] ++ ws ++ D ++ [ch_il])]).
Proof.
  intros HM Hws HD.
  unfold re_match, date_pattern. rewrite rmatch_Grp, !rmatch_Alt.
  rewrite <- !app_assoc. cbn [app].
  match goal with
  | |- match ?x with _ => _ end = _ => assert (A1 : x = None)
  end.
  { rewrite rmatch_Seq. unfold Times at 1. rewrite rmatch_rep_chr.
    apply four_digits_fail; [exact HM | exact wol_not_digit]. }
  rewrite A1.
  match goal with
  | |- match ?x with _ => _ end = Some ?y => assert (A2 : x = Some y)
  end; [|rewrite A2; reflexivity].
  rewrite rmatch_Seq, rmatch_rep_chr.
  apply rep12_run; [exact HM | exact wol_not_digit |].
  rewrite rmatch_Seq, rmatch_Lit.
  unfold Star. rewrite rmatch_Seq, rmatch_rep_chr.
  apply rep_chr_star_run; [exact Hws | apply digits12_hd, HD |].
  rewrite rmatch_Seq, rmatch_rep_chr.
  apply rep12_run; [exact HD | exact il_not_digit |].
  rewrite rmatch_Lit. unfold accept_any.
  replace (M ++ ch_wol :: ws ++ D ++ ch_il :: post)
    with ((M ++ [ch_wol] ++ ws ++ D ++ [ch_il]) ++ post)
    by (rewrite <- !app_assoc; reflexivity).
  rewrite consumed_app. reflexivity.
Qed.

(** X18. A phrase "M월 D일", one or two digits each and any whitespace
    between, after text without digits, is a day of 2024 when that day
    exists, and gives no date otherwise. *)
Theorem month_day_phrase_is_a_day_of_2024 pre M ws D post :
  forallb (fun c => negb (is_digit c)) pre = true ->
  digits12 M = true -> forallb is_space ws = true -> digits12 D = true ->
  extract_date_from_filename
    (pre ++ (M ++ [ch_wol] ++ ws ++ D ++ [ch_il]) ++ post)
  = if valid_date 2024 (number M) (number D)
    then Some (Date 2024 (number M) (number D))
    else None.
Proof.
  intros Hpre HM Hws HD.
  unfold extract_date_from_filename.
  rewrite (search_after_text pre _ Hpre), re_search_eq.
  rewrite (match_month_day M ws D post HM Hws HD).
  cbn [m_group m_caps group Nat.eqb not_none bind].
  rewrite (parse_month_day M ws D HM Hws HD). unfold make_date.
  destruct (valid_date 2024 (number M) (number D)); reflexivity.
Qed.

(** ** The main block: exceptions *)

Lemma process_file_Raise st f e :
  process_file st f = Raise e -> e = UnicodeDecodeError /\ undecodable f.
Proof.
  unfold process_file, undecodable.
  destruct (extract_date_from_filename (file_name f)) as [d|]; [|discriminate].
  destruct (utf8_decode (file_bytes f)) as [content|]; cbn.
  - destruct (extract_names_from_text content). discriminate.
  - intros [= <-]. split; [reflexivity|]. split; [discriminate | reflexivity].
Qed.

Lemma process_file_bad st f :
  undecodable f -> process_file st f = Raise UnicodeDecodeError.
Proof.
  unfold process_file, undecodable. intros [Hd Hc].
  destruct (extract_date_from_filename (file_name f)) as [d|]; [|contradiction].
  rewrite Hc. reflexivity.
Qed.

Lemma process_files_Raise files : forall st e,
  process_files st files = Raise e ->
  e = UnicodeDecodeError /\ exists f, In f files /\ undecodable f.
Proof.
  induction files as [|f fs IH]; intros st e; cbn [process_files];
    [discriminate|].
  destruct (process_file st f) as [st1|e1] eqn:E; cbn [bind].
  - intros H. destruct (IH st1 e H) as (-> & f' & Hin & Hbad).
    split; [reflexivity|]. exists f'. split; [right; exact Hin | exact Hbad].
  - intros [= <-]. destruct (process_file_Raise st f e1 E) as [-> Hbad].
    split; [reflexivity|]. exists f. split; [left; reflexivity | exact Hbad].
Qed.

Lemma process_files_bad files : forall st f,
  In f files -> undecodable f ->
  process_files st files = Raise UnicodeDecodeError.
Proof.
  induction files as [|f0 fs IH]; intros st f Hin Hbad; [destruct Hin|].
  cbn [process_files].
  destruct (process_file st f0) as [st1|e1] eqn:E; cbn [bind].
  - destruct Hin as [->|Hin]; [|apply (IH st1 f Hin Hbad)].
    rewrite (process_file_bad st f Hbad) in E. discriminate.
  - destruct (process_file_Raise st f0 e1 E) as [-> _]. reflexivity.
Qed.

Lemma build_report_Ok st :
  well_formed st -> exists df, build_report st = Ok df.
Proof. intros H. rewrite (@build_report_spec st H). eauto. Qed.

(** X19. The only exception that ends the script is the decoding error of
    a file whose name gives a date: the script is aborted exactly when the
    batch holds such a file, and then with [UnicodeDecodeError]; the
    content of a file without a date is never decoded. *)
Theorem only_undecodable_files_abort files :
  (forall e, main files = Aborted e ->
             e = UnicodeDecodeError /\ exists f, In f files /\ undecodable f)
  /\
  (forall f, In f files -> undecodable f ->
             main files = Aborted UnicodeDecodeError).
Proof.
  split.
  - intros e. unfold main. destruct files as [|f0 fs]; [discriminate|].
    destruct (process_files init_state (f0 :: fs)) as [st|e1] eqn:E;
      cbn [bind].
    + pose proof (@process_files_wf _ _ _ init_well_formed E) as Hwf.
      destruct (build_report_Ok st Hwf) as [df ->]. cbn [bind]. discriminate.
    + intros [= <-]. apply (process_files_Raise _ _ _ E).
  - intros f Hin Hbad. unfold main.
    destruct files as [|f0 fs]; [destruct Hin|].
    rewrite (process_files_bad (f0 :: fs) init_state f Hin Hbad). reflexivity.
Qed.

(** ** The main block: a batch without dates *)

Lemma process_files_undated files : forall st,
  (forall f, In f files -> extract_date_from_filename (file_name f) = None) ->
  process_files st files
  = Ok (State (participation st) (all_dates st)
              (shown st ++ map date_error files)).
Proof.
  induction files as [|f fs IH]; intros st H; cbn [process_files map].
  - rewrite app_nil_r. destruct st; reflexivity.
  - rewrite (process_file_undated st f (H f (or_introl eq_refl))). cbn [bind].
    rewrite IH by (intros f' Hf'; apply H; right; exact Hf').
    cbn [participation all_dates shown]. rewrite <- app_assoc. reflexivity.
Qed.

(** X20. When no file name of a batch gives a date, the report is the
    empty table with the name column and the total column, and one error
    message per file, in the order of the upload. *)
Theorem undated_batch_gives_empty_table files :
  files <> [] ->
  (forall f, In f files -> extract_date_from_filename (file_name f) = None) ->
  main files
  = Report (DataFrame [col_name; col_total] []) (map date_error files).
Proof.
  intros Hne H. unfold main. destruct files as [|f0 fs]; [contradiction|].
  rewrite (process_files_undated (f0 :: fs) init_state H). cbn [bind].
  rewrite build_report_spec.
  - reflexivity.
  - unfold well_formed. cbn [participation all_dates dict_keys map].
    split; [constructor|]. split; [constructor|].
    split; [intros d [] | intros name inner []].
Qed.

(** ** The main block: the table *)

(** X21. The report is a rectangular table whose column labels are
    pairwise distinct: no two dates share a column, and every record has
    one cell per column. *)
Theorem report_is_a_table files df log :
  main files = Report df log ->
  NoDup (columns df) /\
  Forall (fun rec => length rec = length (columns df)) (records df).
Proof.
  intros Hmain. apply main_Report_inv in Hmain as (_ & st & Hrun & Hrep & _).
  pose proof (@process_files_wf _ _ _ init_well_formed Hrun) as Hwf.
  rewrite (@build_report_spec st Hwf) in Hrep. injection Hrep as <-.
  destruct (@sorted_dates_ok st Hwf) as [Hnd Hok].
  cbn [columns records]. split; [apply (@labels_NoDup _ Hnd Hok)|].
  apply Forall_forall. intros rec Hrec.
  apply in_map_iff in Hrec as (e & <- & _). apply report_record_length.
Qed.

(** ** The main block: what the marks mean *)

Section DictMore.
Variables K V : Type.
Variable eqb : K -> K -> bool.
Hypothesis eqb_eq : forall a b, eqb a b = true <-> a = b.

Lemma In_dict_get k (v : V) d :
  NoDup (dict_keys d) -> In (k, v) d -> dict_get eqb k d = Some v.
Proof using eqb_eq.
  induction d as [|[k' v'] d IH]; cbn; [intros _ []|].
  intros Hnd [H|H]; inversion Hnd as [|? ? Hnotin Hnd']; subst.
  - inversion H; subst. rewrite (proj2 (eqb_eq k k) eq_refl). reflexivity.
  - destruct (eqb k k') eqn:E; [|auto].
    apply eqb_eq in E. subst. exfalso. apply Hnotin.
    change k' with (fst (k', v)). apply in_map, H.
Qed.

Lemma dict_set_not_nil k (v : V) d : dict_set eqb k v d <> [].
Proof using Type.
  destruct d as [|[k' v'] d]; cbn; [discriminate|].
  destruct (eqb k k'); discriminate.
Qed.

End DictMore.

Lemma present_nil n d : present [] n d = false.
Proof. reflexivity. Qed.

Lemma present_mark p n d n' d' :
  present (mark p n d) n' d' = true <->
  present p n' d' = true \/ (n' = n /\ d' = d).
Proof.
  split.
  - destruct (list_eq_dec N.eq_dec n' n) as [->|Hn].
    + destruct (date_eqb d' d) eqn:Hd;
        [apply date_eqb_eq in Hd; auto|].
      assert (Hne : d <> d')
        by (intros ->; rewrite (proj2 (date_eqb_eq d' d') eq_refl) in Hd;
            discriminate).
      unfold present, mark.
      rewrite (@dict_get_set_same _ _ _ str_eqb_eq).
      rewrite (@dict_get_set_other _ _ _ date_eqb_eq _ _ _ _ Hne).
      destruct (dict_get str_eqb n p); [auto | discriminate].
    + unfold present, mark.
      rewrite (@dict_get_set_other _ _ _ str_eqb_eq n n'); [auto|].
      intros ->. apply Hn. reflexivity.
  - intros [H|[-> ->]]; [apply mark_keeps, H | apply mark_present].
Qed.

Lemma present_mark_all d names : forall p n' d',
  present (mark_all d names p) n' d' = true <->
  present p n' d' = true \/
  (d' = d /\ exists raw, In raw names /\ normalize_name_to_core raw = n').
Proof.
  induction names as [|x xs IH]; intros p n' d'.
  - cbn. split; [auto|]. intros [H|(_ & raw & [] & _)]. exact H.
  - change (mark_all d (x :: xs) p)
      with (mark_all d xs (mark p (normalize_name_to_core x) d)).
    rewrite IH, present_mark. split.
    + intros [[H|[-> ->]]|(-> & raw & Hin & E)].
      * left. exact H.
      * right. split; [reflexivity|]. exists x. split; [left|]; reflexivity.
      * right. split; [reflexivity|]. exists raw. split; [right|]; assumption.
    + intros [H|(-> & raw & [->|Hin] & E)].
      * left. left. exact H.
      * left. right. split; [symmetry; exact E | reflexivity].
      * right. split; [reflexivity|]. exists raw. auto.
Qed.

Lemma attended_cons f fs n d :
  attended (f :: fs) n d <-> attended [f] n d \/ attended fs n d.
Proof.
  unfold attended. split.
  - intros (f' & c & raw & [<-|Hin] & H).
    + left. exists f, c, raw. split; [left; reflexivity | exact H].
    + right. exists f', c, raw. split; [exact Hin | exact H].
  - intros [(f' & c & raw & [<-|[]] & H)|(f' & c & raw & Hin & H)].
    + exists f, c, raw. split; [left; reflexivity | exact H].
    + exists f', c, raw. split; [right; exact Hin | exact H].
Qed.

Lemma present_process_file st f st' n d :
  process_file st f = Ok st' ->
  (present (participation st') n d = true <->
   present (participation st) n d = true \/ attended [f] n d).
Proof.
  intros H.
  apply process_file_inv in H as [(Hd & -> & _)|(d0 & c & Hd & Hc & -> & _)].
  - split; [auto|]. intros [H|(f' & c & raw & [<-|[]] & Hd' & _)]; [exact H|].
    congruence.
  - rewrite present_mark_all. split.
    + intros [H|(-> & raw & Hin & E)]; [left; exact H|].
      right. exists f, c, raw. split; [left; reflexivity | auto].
    + intros [H|(f' & c' & raw & [<-|[]] & Hd' & Hc' & Hin & E)];
        [left; exact H|].
      right. rewrite Hd in Hd'. injection Hd' as ->.
      rewrite Hc in Hc'. injection Hc' as ->.
      split; [reflexivity|]. exists raw. auto.
Qed.

Lemma present_process_files files : forall st st' n d,
  process_files st files = Ok st' ->
  (present (participation st') n d = true <->
   present (participation st) n d = true \/ attended files n d).
Proof.
  induction files as [|f fs IH]; intros st st' n d; cbn [process_files].
  - intros [= <-]. split; [auto|].
    intros [H|(f & c & raw & [] & _)]. exact H.
  - intros H. apply bind_Ok in H as (st1 & H1 & H2).
    rewrite (IH st1 st' n d H2), (present_process_file st f st1 n d H1).
    rewrite (attended_cons f fs n d). tauto.
Qed.

Lemma marker_present p name inner d :
  NoDup (dict_keys p) -> In (name, inner) p ->
  (marker inner d = u"O" <-> present p name d = true).
Proof.
  intros Hnd Hin. unfold present, marker.
  rewrite (In_dict_get _ _ str_eqb str_eqb_eq name inner p Hnd Hin).
  destruct (dict_get date_eqb d inner) as [v|].
  - symmetry. apply str_eqb_eq.
  - split; discriminate.
Qed.

Lemma marker_attended files st :
  process_files init_state files = Ok st ->
  forall name inner d,
    In (name, inner) (participation st) ->
    (marker inner d = u"O" <-> attended files name d).
Proof.
  intros Hrun name inner d Hin.
  pose proof (@process_files_wf _ _ _ init_well_formed Hrun) as Hwf.
  rewrite (marker_present (participation st) name inner d (proj1 Hwf) Hin).
  rewrite (present_process_files files init_state st name d Hrun).
  cbn [participation init_state]. rewrite present_nil.
  split; [intros [H|H]; [discriminate | exact H] | auto].
Qed.

Lemma marker_cases dates inner d :
  marks_ok dates inner -> marker inner d = u"O" \/ marker inner d = u"X".
Proof.
  intros [_ Hv]. unfold marker.
  destruct (dict_get date_eqb d inner) as [v|] eqn:E; [|right; reflexivity].
  apply (@dict_get_In _ _ _ date_eqb_eq) in E. left. apply (Hv d v E).
Qed.

Lemma combine_fst_snd (A B : Type) (l : list (A * B)) :
  combine (map fst l) (map snd l) = l.
Proof.
  induction l as [|[a b] l IH]; [reflexivity|]. cbn. rewrite IH. reflexivity.
Qed.

(** A record of the report, read with the column labels, is the row of its
    participant. *)
Lemma record_as_row sd entry :
  combine (report_labels sd) (report_record sd entry) = row_of sd entry.
Proof.
  rewrite <- (@row_of_keys sd entry), <- (@row_of_values sd entry).
  apply combine_fst_snd.
Qed.

Lemma row_of_cell sd entry c v :
  NoDup (report_labels sd) -> In (c, v) (row_of sd entry) ->
  cell_at (row_of sd entry) c = v.
Proof.
  intros Hnd Hin. unfold cell_at.
  rewrite (In_dict_get _ _ str_eqb str_eqb_eq c v (row_of sd entry));
    [reflexivity | | exact Hin].
  rewrite (@row_of_keys sd entry). exact Hnd.
Qed.

(** X22. The marks of the report are exactly the attendance: in every
    record, read with the column labels of the report, the cell under the
    name column is the name of a participant, and the cell under the
    column of the date of a file is 'O' if and only if some file dated
    that day lists a raw name whose canonical name is the participant's;
    it is 'X' otherwise. *)
Theorem report_marks_exactly_attendance files df log :
  main files = Report df log ->
  forall rec, In rec (records df) ->
    exists name,
      cell_at (combine (columns df) rec) col_name = CStr name /\
      forall d, dated files d ->
        In (date_str d) (columns df) /\
        (cell_at (combine (columns df) rec) (date_str d) = CStr (u"O")
         <-> attended files name d) /\
        (cell_at (combine (columns df) rec) (date_str d) = CStr (u"O") \/
         cell_at (combine (columns df) rec) (date_str d) = CStr (u"X")).
Proof.
  intros Hmain rec Hrec.
  apply main_Report_inv in Hmain as (_ & st & Hrun & Hrep & _).
  pose proof (@process_files_wf _ _ _ init_well_formed Hrun) as Hwf.
  rewrite (@build_report_spec st Hwf) in Hrep. injection Hrep as <-.
  cbn [columns records] in *.
  destruct (@sorted_dates_ok st Hwf) as [Hnd Hok].
  pose proof (@labels_NoDup _ Hnd Hok) as HL.
  set (sd := py_sorted date_leb (all_dates st)) in *.
  apply in_map_iff in Hrec as ([name inner] & <- & Hin).
  exists name. rewrite record_as_row. split.
  - apply (row_of_cell sd (name, inner) col_name (CStr name) HL).
    left. reflexivity.
  - intros d Hd.
    assert (Hsd : In d sd).
    { apply sorted_incl.
      apply (@process_files_dates files init_state st Hrun d). auto. }
    assert (Hcell : cell_at (row_of sd (name, inner)) (date_str d)
                    = CStr (marker inner d)).
    { apply (row_of_cell sd (name, inner) _ _ HL). unfold row_of.
      apply in_or_app. right. apply in_or_app. left. cbn [snd].
      apply (in_map (fun d0 => (date_str d0, CStr (marker inner d0))) sd d Hsd). }
    rewrite Hcell. split; [|split].
    + unfold report_labels. apply in_or_app. right. apply in_or_app. left.
      apply in_map, Hsd.
    + rewrite <- (marker_attended files st Hrun name inner d Hin).
      split; [intros [= E]; exact E | intros ->; reflexivity].
    + destruct Hwf as (_ & _ & _ & Hm).
      destruct (marker_cases _ inner d (Hm name inner Hin)) as [-> | ->];
        auto.
Qed.

(** ** The main block: the rows *)

Lemma mark_rows p n d :
  (forall n' i, In (n', i) p -> i <> []) ->
  forall n' i, In (n', i) (mark p n d) -> i <> [].
Proof.
  intros H n' i Hin. unfold mark in Hin.
  apply (@dict_set_In _ _ str_eqb str_eqb_eq) in Hin as [[_ ->]|Hin];
    [apply dict_set_not_nil | apply (H n' i Hin)].
Qed.

Lemma mark_all_rows d names : forall p,
  (forall n' i, In (n', i) p -> i <> []) ->
  forall n' i, In (n', i) (mark_all d names p) -> i <> [].
Proof.
  induction names as [|x xs IH]; intros p H; [exact H|].
  change (mark_all d (x :: xs) p)
    with (mark_all d xs (mark p (normalize_name_to_core x) d)).
  apply IH, mark_rows, H.
Qed.

Lemma process_files_rows files st :
  process_files init_state files = Ok st ->
  forall n i, In (n, i) (participation st) -> i <> [].
Proof.
  apply (process_files_ind
           (fun s => forall n i, In (n, i) (participation s) -> i <> [])).
  - intros s f s' Hs Hf.
    apply process_file_inv in Hf as [(_ & -> & _)|(d & c & _ & _ & -> & _)];
      [exact Hs | apply mark_all_rows, Hs].
  - intros n i [].
Qed.

Lemma key_attended files st :
  process_files init_state files = Ok st ->
  forall name,
    In name (dict_keys (participation st)) <-> exists d, attended files name d.
Proof.
  intros Hrun name.
  pose proof (@process_files_wf _ _ _ init_well_formed Hrun) as Hwf.
  split.
  - intros Hin. apply in_map_iff in Hin as ([n inner] & <- & Hin).
    cbn [fst].
    pose proof (process_files_rows files st Hrun n inner Hin) as Hne.
    destruct Hwf as (_ & _ & _ & Hm). destruct (Hm n inner Hin) as [Hk Hv].
    destruct inner as [|[d v] inner]; [contradiction|]. exists d.
    apply (marker_attended files st Hrun n _ d Hin).
    destruct (Hv d v (or_introl eq_refl)) as [-> _].
    unfold marker. cbn [dict_get].
    rewrite (proj2 (date_eqb_eq d d) eq_refl). reflexivity.
  - intros (d & Hatt).
    assert (Hp : present (participation st) name d = true).
    { apply (present_process_files files init_state st name d Hrun). auto. }
    apply present_entry in Hp as (inner & Hin & _).
    apply in_map_iff. exists (name, inner). auto.
Qed.

(** X23. The rows of the report are the participants: the names are
    pairwise distinct, a name has a row exactly when some dated file lists
    it, and every row counts at least one attendance. *)
Theorem report_rows_are_the_participants files df log :
  main files = Report df log ->
  exists sorted_dates entries,
    records df = map (report_record sorted_dates) entries /\
    NoDup (map fst entries) /\
    (forall name,
        In name (map fst entries) <-> exists d, attended files name d) /\
    (forall name inner, In (name, inner) entries -> (1 <= total_of inner)%nat).
Proof.
  intros Hmain. apply main_Report_inv in Hmain as (_ & st & Hrun & Hrep & _).
  pose proof (@process_files_wf _ _ _ init_well_formed Hrun) as Hwf.
  rewrite (@build_report_spec st Hwf) in Hrep. injection Hrep as <-.
  exists (py_sorted date_leb (all_dates st)), (participation st).
  split; [reflexivity|]. split; [exact (proj1 Hwf)|].
  split; [exact (key_attended files st Hrun)|].
  intros name inner Hin.
  destruct Hwf as (_ & _ & _ & Hm).
  rewrite (@total_of_length _ _ (Hm name inner Hin)).
  pose proof (process_files_rows files st Hrun name inner Hin) as Hne.
  destruct inner; [contradiction | cbn; lia].
Qed.

(** ** The main block: the same files again, and in another order *)

Lemma main_of_run files st df :
  files <> [] -> process_files init_state files = Ok st ->
  build_report st = Ok df -> main files = Report df (shown st).
Proof.
  intros Hne Hrun Hrep. unfold main. destruct files as [|f fs]; [contradiction|].
  rewrite Hrun. cbn [bind]. rewrite Hrep. reflexivity.
Qed.

Lemma mark_all_same d names : forall p,
  (forall raw, In raw names ->
               present p (normalize_name_to_core raw) d = true) ->
  mark_all d names p = p.
Proof.
  induction names as [|x xs IH]; intros p H; [reflexivity|].
  change (mark_all d (x :: xs) p)
    with (mark_all d xs (mark p (normalize_name_to_core x) d)).
  rewrite (@mark_same p _ d (H x (or_introl eq_refl))).
  apply IH. intros raw Hin. apply H. right. exact Hin.
Qed.

Lemma set_add_date_present d dates :
  In d dates -> set_add date_eqb d dates = dates.
Proof.
  intros H. unfold set_add.
  apply (existsb_eqb_In _ date_eqb_eq) in H. rewrite H. reflexivity.
Qed.

Lemma decodable_of_run files : forall st st' f,
  process_files st files = Ok st' -> In f files ->
  extract_date_from_filename (file_name f) <> None ->
  utf8_decode (file_bytes f) <> None.
Proof.
  intros st st' f Hrun Hin Hd Hc.
  rewrite (process_files_bad files st f Hin (conj Hd Hc)) in Hrun.
  discriminate.
Qed.

(** A file of a batch that has been processed, when processed again, leaves
    the aggregate as it is. *)
Lemma process_file_again files st f :
  process_files init_state files = Ok st -> In f files ->
  exists st', process_file st f = Ok st' /\ same_aggregate st' st.
Proof.
  intros Hrun Hin. unfold process_file.
  destruct (extract_date_from_filename (file_name f)) as [d|] eqn:Hd.
  - destruct (utf8_decode (file_bytes f)) as [content|] eqn:Hc.
    + cbn [not_none bind].
      destruct (extract_names_from_text content) as [raw warns] eqn:E.
      eexists. split; [reflexivity|]. split; cbn [participation all_dates].
      * apply (mark_all_same d raw). intros r Hr.
        apply (@process_files_names files init_state st Hrun f d content r Hin Hd Hc).
        rewrite E. exact Hr.
      * apply set_add_date_present.
        apply (@process_files_dates files init_state st Hrun d). right.
        exists f. auto.
    + exfalso.
      apply (decodable_of_run files init_state st f Hrun Hin);
        [rewrite Hd; discriminate | exact Hc].
  - eexists. split; [reflexivity|]. split; reflexivity.
Qed.

(** X24. Uploading a file of the batch a second time changes nothing in
    the report. *)
Theorem uploading_a_file_again_changes_nothing files f df log :
  In f files -> main files = Report df log ->
  exists log', main (files ++ [f]) = Report df log'.
Proof.
  intros Hin Hmain.
  apply main_Report_inv in Hmain as (_ & st & Hrun & Hrep & _).
  destruct (process_file_again files st f Hrun Hin) as (st' & Hf & Hsame).
  exists (shown st'). apply main_of_run.
  - intros E. apply app_eq_nil in E as [_ E]. discriminate.
  - apply process_files_app. exists st. split; [exact Hrun|].
    cbn [process_files]. rewrite Hf. reflexivity.
  - rewrite (build_report_same st' st Hsame). exact Hrep.
Qed.

Lemma date_leb_trans a b c :
  date_leb a b = true -> date_leb b c = true -> date_leb a c = true.
Proof.
  unfold date_leb. destruct a as [ya ma da], b as [yb mb db], c as [yc mc dc].
  cbn [year month day].
  repeat match goal with
         | |- context [?x <? ?y] => destruct (N.ltb_spec x y)
         end; try discriminate; try reflexivity; try lia;
    rewrite !N.leb_le; lia.
Qed.

Lemma date_leb_antisym a b :
  date_leb a b = true -> date_leb b a = true -> a = b.
Proof.
  unfold date_leb. destruct a as [ya ma da], b as [yb mb db].
  cbn [year month day].
  repeat match goal with
         | |- context [?x <? ?y] => destruct (N.ltb_spec x y)
         end; try discriminate; try lia.
  rewrite !N.leb_le. intros Hab Hba. f_equal; lia.
Qed.

Lemma attended_perm files files' n d :
  Permutation files files' -> attended files n d -> attended files' n d.
Proof.
  intros HP (f & c & raw & Hin & H). exists f, c, raw.
  split; [apply (Permutation_in _ HP Hin) | exact H].
Qed.

Lemma dated_perm files files' d :
  Permutation files files' -> dated files d -> dated files' d.
Proof.
  intros HP (f & Hin & H). exists f.
  split; [apply (Permutation_in _ HP Hin) | exact H].
Qed.

Lemma marker_eq dates dates' inner inner' d :
  marks_ok dates inner -> marks_ok dates' inner' ->
  (marker inner d = u"O" <-> marker inner' d = u"O") ->
  marker inner d = marker inner' d.
Proof.
  intros H H' E.
  destruct (marker_cases dates inner d H) as [A|A],
           (marker_cases dates' inner' d H') as [B|B]; try congruence.
  - apply E in A. rewrite A in B. discriminate.
  - apply E in B. rewrite B in A. discriminate.
Qed.

(** The record of a participant is determined by the marks. *)
Lemma report_record_eq sd dates dates' name inner inner' :
  NoDup sd -> incl dates sd -> incl dates' sd ->
  marks_ok dates inner -> marks_ok dates' inner' ->
  (forall d, marker inner d = u"O" <-> marker inner' d = u"O") ->
  report_record sd (name, inner) = report_record sd (name, inner').
Proof.
  intros Hnd Hi Hi' H H' E. unfold report_record. cbn [fst snd].
  assert (Hmap : map (fun d => CStr (marker inner d)) sd
                 = map (fun d => CStr (marker inner' d)) sd).
  { apply map_ext. intros d. f_equal.
    apply (marker_eq dates dates' inner inner' d H H' (E d)). }
  rewrite <- (@count_O_markers dates sd inner H Hnd Hi).
  rewrite <- (@count_O_markers dates' sd inner' H' Hnd Hi').
  rewrite Hmap. reflexivity.
Qed.

Lemma map_entries (B : Type) (F : str * list (date * str) -> B) p :
  NoDup (dict_keys p) ->
  map F p
  = map (fun name => F (name, match dict_get str_eqb name p with
                               | Some i => i
                               | None => []
                               end)) (dict_keys p).
Proof.
  intros Hnd. unfold dict_keys. rewrite map_map. apply map_ext_in.
  intros [name inner] Hin. cbn [fst].
  rewrite (In_dict_get _ _ str_eqb str_eqb_eq name inner p Hnd Hin).
  reflexivity.
Qed.

Lemma dict_get_entry name (p : list (str * list (date * str))) :
  In name (dict_keys p) ->
  exists inner, dict_get str_eqb name p = Some inner /\ In (name, inner) p.
Proof.
  intros Hin. destruct (dict_get str_eqb name p) as [inner|] eqn:E.
  - exists inner. split; [reflexivity|].
    apply (@dict_get_In _ _ _ str_eqb_eq), E.
  - apply (@dict_get_None _ _ _ str_eqb_eq) in E. contradiction.
Qed.

(** X25. The order of the upload does not matter: two batches with the
    same files in different orders give reports with the same columns and
    the same records, up to the order of the rows. *)
Theorem upload_order_is_irrelevant files files' df log :
  Permutation files files' -> main files = Report df log ->
  exists df' log',
    main files' = Report df' log' /\
    columns df' = columns df /\
    Permutation (records df) (records df').
Proof.
  intros HP Hmain.
  apply main_Report_inv in Hmain as (Hne & st & Hrun & Hrep & _).
  pose proof (@process_files_wf _ _ _ init_well_formed Hrun) as Hwf.
  rewrite (@build_report_spec st Hwf) in Hrep. injection Hrep as <-.
  destruct (@process_files_total files' init_state) as [st' Hrun'].
  { intros f Hin Hd.
    apply (decodable_of_run files init_state st f Hrun); [|exact Hd].
    apply (Permutation_in _ (Permutation_sym HP) Hin). }
  pose proof (@process_files_wf _ _ _ init_well_formed Hrun') as Hwf'.
  assert (Hne' : files' <> []).
  { intros ->. apply Permutation_sym, Permutation_nil in HP. contradiction. }
  assert (Hdates : Permutation (all_dates st) (all_dates st')).
  { apply NoDup_Permutation; [apply Hwf | apply Hwf'|].
    intros d.
    rewrite (@process_files_dates files init_state st Hrun d).
    rewrite (@process_files_dates files' init_state st' Hrun' d).
    cbn [all_dates init_state In]. split.
    - intros [[]|H]. right. apply (dated_perm files files' d HP H).
    - intros [[]|H]. right.
      apply (dated_perm files' files d (Permutation_sym HP) H). }
  pose proof (py_sorted_perm_eq _ date_leb date_leb_total date_leb_trans
                                date_leb_antisym _ _ Hdates) as Hsd.
  exists (DataFrame (report_labels (py_sorted date_leb (all_dates st')))
                    (map (report_record (py_sorted date_leb (all_dates st')))
                         (participation st'))), (shown st').
  split; [apply (main_of_run files' st' _ Hne' Hrun'),
                 (@build_report_spec st' Hwf')|].
  cbn [columns records]. rewrite <- Hsd. split; [reflexivity|].
  set (sd := py_sorted date_leb (all_dates st)) in *.
  destruct (@sorted_dates_ok st Hwf) as [Hnd _]. fold sd in Hnd.
  assert (Hincl : incl (all_dates st) sd) by (apply sorted_incl).
  assert (Hincl' : incl (all_dates st') sd).
  { intros d Hd. apply Hincl.
    apply (Permutation_in _ (Permutation_sym Hdates) Hd). }
  rewrite (map_entries _ (report_record sd) (participation st) (proj1 Hwf)).
  rewrite (map_entries _ (report_record sd) (participation st') (proj1 Hwf')).
  assert (Hkeys : Permutation (dict_keys (participation st))
                              (dict_keys (participation st'))).
  { apply NoDup_Permutation; [apply Hwf | apply Hwf'|].
    intros name. rewrite (key_attended files st Hrun name).
    rewrite (key_attended files' st' Hrun' name).
    split; intros (d & H); exists d;
      [apply (attended_perm files files' name d HP H)
      | apply (attended_perm files' files name d (Permutation_sym HP) H)]. }
  eapply Permutation_trans; [apply (Permutation_map _ Hkeys)|].
  apply Permutation_refl'. apply map_ext_in. intros name Hin'.
  assert (Hin : In name (dict_keys (participation st)))
    by (apply (Permutation_in _ (Permutation_sym Hkeys) Hin')).
  destruct (dict_get_entry name _ Hin) as (inner & -> & He).
  destruct (dict_get_entry name _ Hin') as (inner' & -> & He').
  destruct Hwf as (_ & _ & _ & Hm). destruct Hwf' as (_ & _ & _ & Hm').
  apply (report_record_eq sd (all_dates st) (all_dates st') name inner inner'
                          Hnd Hincl Hincl' (Hm name inner He)
                          (Hm' name inner' He')).
  intros d. rewrite (marker_attended files st Hrun name inner d He).
  rewrite (marker_attended files' st' Hrun' name inner' d He').
  split; [apply (attended_perm files files' name d HP)
         | apply (attended_perm files' files name d (Permutation_sym HP))].
Qed.

(** ** A line that holds only a word of the blacklist *)

Lemma blacklist_words w :
  In w blacklist ->
  w <> [] /\
  forallb name_char w = true /\ ~ In ch_jo w /\
  normalize_name_to_core w = [].
Proof.
  intros H. cbn in H.
  repeat (destruct H as [<-|H];
          [split; [discriminate|]; split; [reflexivity|];
           split; [|vm_compute; reflexivity];
           vm_compute; intros Hin;
           repeat (destruct Hin as [Hin|Hin]; [discriminate|]); exact Hin|]).
  destruct H.
Qed.

(** X26. A numbered line that holds only a word of the blacklist gives
    that word as a raw name, and its canonical name is the empty string:
    such a line stands for a participant without a name. *)
Theorem brand_only_line_gives_the_empty_name ds ws w :
  ds <> [] -> forallb is_digit ds = true ->
  forallb (fun c => is_space c && negb (c =? ch_newline)) ws = true ->
  In w blacklist ->
  extract_names_from_text (ds ++ [ch_rparen] ++ ws ++ w) = ([w], []) /\
  normalize_name_to_core w = [].
Proof.
  intros Hne Hds Hws Hw.
  destruct (blacklist_words w Hw) as (Hwne & Hnc & Hjo & Hnorm).
  split; [|exact Hnorm]. cbn [app].
  apply forallb_and in Hws as [Hsp Hnl]. apply forallb_not in Hnl.
  pose proof (name_chars_no_space w Hnc) as Hns.
  apply (numbered_line_result ds (ws ++ w) w [] Hne Hds).
  - intros Hin. apply in_app_or in Hin as [Hin|Hin];
      [apply (Hnl Hin) | apply (no_space_no_newline w Hns Hin)].
  - apply rstrip_word; assumption.
  - apply pattern_match_plain; try assumption.
    intros Hin. apply Hjo. destruct w; [destruct Hin | right; exact Hin].
  - exact Hns.
Qed.

(** ** A line with a one-word name *)

Lemma group_label_jo p : is_group_label p = true -> In ch_jo (tl p).
Proof.
  assert (H : forall s, digits_then_jo s = true -> In ch_jo s).
  { induction s as [|x s IH]; [discriminate|].
    cbn [digits_then_jo]. destruct s as [|y s].
    - intros Hx. left. apply N.eqb_eq, Hx.
    - intros Hx. apply andb_true_iff in Hx as [_ Hs]. right. apply (IH Hs). }
  destruct p as [|x [|y s]]; try discriminate. cbn [is_group_label tl].
  intros Hx. apply andb_true_iff in Hx as [_ Hs]. apply (H _ Hs).
Qed.

Lemma select_core_one w : select_core [w] = w.
Proof.
  unfold select_core. cbn [filter].
  destruct (korean_token w); [reflexivity|].
  destruct (id_token w); reflexivity.
Qed.

(** A single token that passes the second filter is its own canonical
    name. *)
Lemma normalize_one_token w :
  is_token w = true -> survives w = true -> normalize_name_to_core w = w.
Proof.
  intros Ht Hs. rewrite normalize_select, (surviving_single w Ht Hs).
  apply select_core_one.
Qed.

(** X27. A one-word name is kept as it is: a numbered line whose numbering
    is followed by one word of name characters, without slash, with no 조
    after its first character and not on the blacklist, gives that word as
    its raw name, and the word is its own canonical name. *)
Theorem one_word_name_is_kept ds ws w :
  ds <> [] -> forallb is_digit ds = true ->
  forallb (fun c => is_space c && negb (c =? ch_newline)) ws = true ->
  w <> [] ->
  forallb (fun c => name_char c && negb (c =? ch_slash)) w = true ->
  forallb (fun c => negb (c =? ch_jo)) (tl w) = true ->
  ~ In w blacklist ->
  extract_names_from_text (ds ++ [ch_rparen] ++ ws ++ w) = ([w], []) /\
  normalize_name_to_core w = w.
Proof.
  intros Hne Hds Hws Hw Hname Hjo Hbl.
  apply forallb_and in Hws as [Hsp Hnl]. apply forallb_not in Hnl.
  apply forallb_and in Hname as [Hnc Hsl]. apply forallb_not in Hsl.
  apply forallb_not in Hjo.
  pose proof (name_chars_no_space w Hnc) as Hns. split.
  - cbn [app]. apply (numbered_line_result ds (ws ++ w) w [] Hne Hds).
    + intros Hin. apply in_app_or in Hin as [Hin|Hin];
        [apply (Hnl Hin) | apply (no_space_no_newline w Hns Hin)].
    + apply rstrip_word; assumption.
    + apply pattern_match_plain; assumption.
    + exact Hns.
  - apply normalize_one_token.
    + unfold is_token. destruct w as [|x w]; [contradiction|].
      cbn [is_empty negb andb]. apply forallb_forall. intros c Hc.
      pose proof (proj1 (forallb_forall _ _) Hns c Hc) as Hc1.
      apply negb_true_iff in Hc1. unfold sep_char. rewrite Hc1. cbn [orb].
      apply negb_true_iff, N.eqb_neq. intros ->. apply (Hsl Hc).
    + unfold survives. apply andb_true_iff. split; apply negb_true_iff.
      * destruct (is_group_label w) eqn:E; [|reflexivity].
        exfalso. apply Hjo, group_label_jo, E.
      * destruct (in_blacklist w) eqn:E; [|reflexivity].
        exfalso. apply Hbl, in_blacklist_In, E.
Qed.

End Script.

(** * The script on concrete inputs

    The inputs below consist of ASCII characters, Hangul syllables and
    whitespace only, whose classification does not depend on the rest of
    the character database. *)

Lemma normalize_korean_first_longest_witness :
  existsb korean_token (surviving_tokens no_decimal (u"하고랩스 김민수/홍길동 kim_minsu")) = true /\
  exists l1 r l2,
    filter korean_token (surviving_tokens no_decimal (u"하고랩스 김민수/홍길동 kim_minsu"))
    = l1 ++ r :: l2 /\
    (forall y, In y l1 -> (length y < length r)%nat) /\
    (forall y, In y l2 -> (length y <= length r)%nat) /\
    normalize_name_to_core no_decimal (u"하고랩스 김민수/홍길동 kim_minsu") = r /\
    korean_token r = true /\ id_token r = false.
Proof.
  split; [reflexivity|].
  apply (@normalize_korean_first_longest no_decimal). reflexivity.
Defined.

(** The branch of the ID-style candidates, and the fallback. *)
Lemma normalize_without_korean_witness :
  (existsb korean_token (surviving_tokens no_decimal (u"b a/ab_cd xyz1")) = false /\
   existsb id_token (surviving_tokens no_decimal (u"b a/ab_cd xyz1")) = true /\
   exists (l1 : list str) (r : str) (l2 : list str),
    surviving_tokens no_decimal (u"b a/ab_cd xyz1") = l1 ++ r :: l2 /\
    id_token r = true /\ existsb id_token l2 = false /\
    normalize_name_to_core no_decimal (u"b a/ab_cd xyz1") = r) /\
  (existsb korean_token (surviving_tokens no_decimal (u"b A a 가 BGO")) = false /\
   existsb id_token (surviving_tokens no_decimal (u"b A a 가 BGO")) = false /\
   normalize_name_to_core no_decimal (u"b A a 가 BGO") = u"A a b 가").
Proof.
  split.
  - split; [reflexivity|]. split; [reflexivity|].
    apply (proj1 (@normalize_without_korean no_decimal (u"b a/ab_cd xyz1")
                    eq_refl)).
    reflexivity.
  - split; [reflexivity|]. split; [reflexivity|].
    exact (eq_trans
             (proj1 (proj1 (proj2 (@normalize_without_korean
                                     no_decimal (u"b A a 가 BGO") eq_refl))
                           eq_refl))
             eq_refl).
Defined.

Lemma marking_idempotent_and_permanent_witness :
  present (mark [] (u"홍길동") (Date 2024 5 9)) (u"홍길동") (Date 2024 5 9) = true /\
  mark (mark [] (u"홍길동") (Date 2024 5 9)) (u"홍길동") (Date 2024 5 9)
  = mark [] (u"홍길동") (Date 2024 5 9) /\
  present (mark (mark [] (u"홍길동") (Date 2024 5 9)) (u"김민수") (Date 2024 5 10))
          (u"홍길동") (Date 2024 5 9) = true.
Proof.
  pose proof (marking_idempotent_and_permanent no_decimal no_alnum)
    as (H1 & H2 & H3 & H4 & H5).
  split; [apply H1|]. split; [apply H3|]. apply H4, H1.
Defined.

Lemma report_total_counts_O_witness :
  exists df log,
    main no_decimal no_alnum example_files = Report df log /\
    exists sorted_dates,
      columns df = [col_name] ++ map date_str sorted_dates ++ [col_total] /\
      Forall (fun rec =>
                exists name cells total,
                  rec = [CStr name] ++ cells ++ [CInt total] /\
                  length cells = length sorted_dates /\
                  total = count_O cells)
             (records df).
Proof.
  eexists. eexists. split; [vm_compute; reflexivity|].
  eapply (@report_total_counts_O no_decimal no_alnum example_files).
  vm_compute. reflexivity.
Defined.

Lemma report_columns_and_rows_witness :
  exists df log,
    main no_decimal no_alnum example_files = Report df log /\
    columns df = [col_name; u"2024-05-09"; u"2024-05-10"; col_total] /\
    exists sorted_dates,
      columns df = [col_name] ++ map date_str sorted_dates ++ [col_total] /\
      NoDup sorted_dates /\
      forall d, In d sorted_dates <-> dated no_decimal example_files d.
Proof.
  eexists. eexists. split; [vm_compute; reflexivity|].
  split; [vm_compute; reflexivity|].
  destruct (@report_columns_and_rows no_decimal no_alnum example_files _ _
              ltac:(vm_compute; reflexivity))
    as (sorted_dates & Hc & _ & Hnd & Hmem & _).
  exists sorted_dates. split; [exact Hc|]. split; [exact Hnd | exact Hmem].
Defined.

Lemma aggregation_invariant_witness :
  exists st,
    process_files no_decimal no_alnum init_state example_files = Ok st /\
    forall name inner d v,
      In (name, inner) (participation st) -> In (d, v) inner ->
      v = u"O" /\ In d (all_dates st).
Proof.
  eexists. split; [vm_compute; reflexivity|].
  apply (@aggregation_invariant no_decimal no_alnum example_files).
  vm_compute. reflexivity.
Defined.

Lemma separated_date_is_literal_witness :
  extract_date_from_filename no_decimal (u"모임_2023.05-09.txt")
  = Some (Date 2023 5 9).
Proof.
  refine (separated_date_is_literal no_decimal (u"모임_2023.05-09.txt") _
            50 48 50 51 ch_dot 48 53 ch_minus 48 57 _ _ _ _ _ _ _);
    reflexivity.
Defined.

Lemma month_day_dates_are_in_2024_witness :
  extract_date_from_filename no_decimal (u"12월  25일 송년회.txt")
  = Some (Date 2024 12 25) /\
  extract_date_from_filename no_decimal (u"출석0229.txt") = Some (Date 2024 2 29).
Proof.
  split.
  - refine (proj1 (month_day_dates_are_in_2024 no_decimal)
                  (u"12월  25일 송년회.txt") _ [49; 50] [32; 32] [50; 53]
                  _ _ _ _ _ _); reflexivity.
  - refine (proj1 (proj2 (month_day_dates_are_in_2024 no_decimal))
                  (u"출석0229.txt") _ 48 50 50 57 _ _ _ _); reflexivity.
Defined.

Lemma unparseable_file_is_skipped_witness :
  extract_date_from_filename no_decimal (u"notes.txt") = None /\
  extract_date_from_filename no_decimal (u"1301.txt") = None /\
  extract_date_from_filename no_decimal (u"2023-02-29.txt") = None /\
  extract_date_from_filename no_decimal (u"2월 30일.txt") = None /\
  exists st,
    process_files no_decimal no_alnum init_state example_files = Ok st /\
    In (date_error (UploadedFile (u"notes.txt") (bytes_of_string "1) 홍길동")))
       (shown st).
Proof.
  pose proof (unparseable_file_is_skipped no_decimal no_alnum)
    as (H1 & H2 & _ & H3 & H4).
  split; [apply H1; reflexivity|].
  split.
  { refine (H2 (u"1301.txt") _ _ _ _ _ eq_refl eq_refl
               (denotes_mmdd no_decimal 49 51 48 49 eq_refl) eq_refl). }
  split.
  { refine (H2 (u"2023-02-29.txt") _ _ _ _ _ eq_refl eq_refl
               (denotes_ymd no_decimal 50 48 50 51 [ch_minus] [ch_minus]
                            48 50 50 57 eq_refl _ _ eq_refl) eq_refl);
      cbn; lia. }
  split.
  { refine (H2 (u"2월 30일.txt") _ _ _ _ _ eq_refl eq_refl
               (denotes_month_day no_decimal [50] [32] [51; 48]
                                  eq_refl eq_refl eq_refl) eq_refl). }
  eexists. split; [vm_compute; reflexivity|].
  apply (H4 [UploadedFile (u"0510.txt") (bytes_of_string "no entries here");
             UploadedFile (u"0509출석.txt") (bytes_of_string "출석
1) 홍길동
2) 하고랩스 김민수
3) 1조 홍길동")]
            (UploadedFile (u"notes.txt") (bytes_of_string "1) 홍길동")) []);
    vm_compute; reflexivity.
Defined.

(** The file names that refute C2 as stated: a date that is not the first
    match of the pattern, and a date without separators. *)
Lemma unseparated_or_later_date_is_not_returned :
  extract_date_from_filename no_decimal (u"1234_2024-05-09.txt") = None /\
  extract_date_from_filename no_decimal (u"12024-05-09.txt")
  = Some (Date 2024 12 2) /\
  extract_date_from_filename no_decimal (u"20240509.txt") = None.
Proof. repeat split; reflexivity. Qed.

(** The raw name extracted from the example line is not "1조 홍길동". *)
Lemma example_line_raw_name_has_no_label :
  fst (extract_names_from_text no_decimal no_alnum (u"3) 1조 홍길동"))
  <> [u"1조 홍길동"].
Proof. vm_compute. discriminate. Qed.

(** The four-digit code of "０５０９.txt" is written with fullwidth digits:
    it is the first match of the date pattern and denotes the 9th of May,
    but the result is None. *)
Lemma fullwidth_code_is_not_parsed :
  exists m,
    re_search (date_pattern fullwidth_decimal) (u"０５０９.txt") = Some m /\
    m_group 1 m = Some (u"０５０９") /\
    denotes fullwidth_decimal (u"０５０９") 2024 5 9 /\
    valid_date 2024 5 9 = true /\
    extract_date_from_filename fullwidth_decimal (u"０５０９.txt") = None.
Proof.
  eexists. split; [vm_compute; reflexivity|].
  split; [vm_compute; reflexivity|].
  split; [|split; vm_compute; reflexivity].
  exact (denotes_mmdd fullwidth_decimal 65296 65301 65296 65305 eq_refl).
Qed.

(** Two spellings of the same short tokens. *)
Lemma normalize_fallback_order_free_witness :
  Permutation (name_parts no_decimal (u"b1 a"))
              (name_parts no_decimal (u"a/b1")) /\
  normalize_name_to_core no_decimal (u"b1 a")
  = normalize_name_to_core no_decimal (u"a/b1").
Proof.
  assert (HP : Permutation (name_parts no_decimal (u"b1 a"))
                           (name_parts no_decimal (u"a/b1")))
    by (vm_compute; apply perm_swap).
  split; [exact HP|].
  apply (normalize_fallback_order_free no_decimal (u"b1 a") (u"a/b1") HP);
    reflexivity.
Defined.

(** A slash, or a space, a tab and a space, between the same two parts. *)
Lemma normalize_separators_interchangeable_witness :
  normalize_name_to_core no_decimal (u"1조" ++ u"/" ++ u"홍길동")
  = normalize_name_to_core no_decimal (u"1조" ++ [32; 9; 32] ++ u"홍길동") /\
  normalize_name_to_core no_decimal (u" /" ++ u"홍길동" ++ u"/ ")
  = normalize_name_to_core no_decimal (u"홍길동").
Proof.
  split.
  - apply (proj1 (normalize_separators_interchangeable no_decimal));
      [discriminate | discriminate | reflexivity | reflexivity].
  - apply (proj2 (normalize_separators_interchangeable no_decimal));
      reflexivity.
Defined.

(** A text without a closing parenthesis. *)
Lemma text_without_numbering_gives_nothing_witness :
  extract_names_from_text no_decimal no_alnum (u"출석 명단 (1조
홍길동") = ([], []).
Proof.
  apply (text_without_numbering_gives_nothing no_decimal no_alnum).
  left. intros c Hc. vm_compute in Hc. unfold ch_rparen.
  repeat (destruct Hc as [<-|Hc]; [discriminate|]). destruct Hc.
Defined.

(** A tab between two words becomes a space. *)
Lemma raw_names_are_clean_witness :
  In (u"홍길동 김민수")
     (fst (extract_names_from_text no_decimal no_alnum
             (u"1) 홍길동" ++ [9] ++ u"김민수"))) /\
  strip (u"홍길동 김민수") = u"홍길동 김민수".
Proof.
  assert (H : In (u"홍길동 김민수")
                 (fst (extract_names_from_text no_decimal no_alnum
                         (u"1) 홍길동" ++ [9] ++ u"김민수"))))
    by (vm_compute; left; reflexivity).
  split; [exact H|].
  apply (proj1 (proj2 (raw_names_are_clean no_decimal no_alnum _ _ H))).
Defined.

(** "3) ???": a numbering and no name. *)
Lemma numbered_line_without_name_warns_witness :
  extract_names_from_text no_decimal no_alnum (u"3" ++ [ch_rparen] ++ u" ???  ")
  = ([], [Warning (u"❌ 이름 추출 실패: '"
                    ++ strip (u"3" ++ [ch_rparen] ++ u" ???  ") ++ u"'")]) /\
  strip (u"3" ++ [ch_rparen] ++ u" ???  ") = u"3) ???".
Proof.
  split; [|reflexivity].
  apply (numbered_line_without_name_warns no_decimal no_alnum (u"3") (u" ???  "));
    [discriminate | reflexivity | reflexivity].
Defined.

(** "12)  조은희/A" *)
Lemma numbered_line_gives_its_name_witness :
  extract_names_from_text no_decimal no_alnum
    (u"12" ++ [ch_rparen] ++ u"  " ++ u"조은희/A")
  = ([u"조은희/A"], []).
Proof.
  apply (numbered_line_gives_its_name no_decimal no_alnum
           (u"12") (u"  ") (u"조은희/A"));
    [discriminate | reflexivity | reflexivity | discriminate
     | reflexivity | reflexivity].
Defined.

(** "3) 1조홍길동" and "1) 김조은" *)
Lemma group_label_is_dropped_witness :
  extract_names_from_text no_decimal no_alnum
    (u"3" ++ [ch_rparen] ++ u" " ++ u"1" ++ [ch_jo] ++ [] ++ u"홍길동")
  = ([u"홍길동"], []) /\
  extract_names_from_text no_decimal no_alnum
    (u"1" ++ [ch_rparen] ++ u" " ++ u"김" ++ [ch_jo] ++ [] ++ u"은")
  = ([u"은"], []).
Proof.
  split.
  - apply (group_label_is_dropped no_decimal no_alnum
             (u"3") (u" ") (u"1") [] (u"홍길동"));
      [discriminate | reflexivity | reflexivity | discriminate
       | left; reflexivity | reflexivity | discriminate | reflexivity].
  - apply (group_label_is_dropped no_decimal no_alnum
             (u"1") (u" ") (u"김") [] (u"은"));
      [discriminate | reflexivity | reflexivity | discriminate
       | right; reflexivity | reflexivity | discriminate | reflexivity].
Defined.

(** "출석부_0509.txt" and "notes.txt" *)
Lemma text_before_first_digit_is_ignored_witness :
  extract_date_from_filename no_decimal (u"출석부_" ++ u"0509.txt")
  = extract_date_from_filename no_decimal (u"0509.txt") /\
  extract_date_from_filename no_decimal (u"notes.txt") = None.
Proof.
  split.
  - apply (proj1 (text_before_first_digit_is_ignored no_decimal)). reflexivity.
  - apply (proj2 (text_before_first_digit_is_ignored no_decimal)). reflexivity.
Defined.

(** "출석_2024-05-09.txt" *)
Lemma date_label_round_trip_witness :
  date_str (Date 2024 5 9) = u"2024-05-09" /\
  extract_date_from_filename no_decimal
    (u"출석_" ++ date_str (Date 2024 5 9) ++ u".txt")
  = Some (Date 2024 5 9).
Proof.
  split; [reflexivity|].
  apply (date_label_round_trip no_decimal (Date 2024 5 9)); reflexivity.
Defined.

(** "20240509.txt" and "출석 2024-0509.txt" *)
Lemma unseparated_date_is_rejected_witness :
  extract_date_from_filename no_decimal (u"20240509.txt") = None /\
  extract_date_from_filename no_decimal (u"출석 2024-0509.txt") = None.
Proof.
  split.
  - apply (unseparated_date_is_rejected no_decimal
             [] 50 48 50 52 [] [] 48 53 48 57 (u".txt"));
      [reflexivity | reflexivity | reflexivity | cbn; lia].
  - apply (unseparated_date_is_rejected no_decimal
             (u"출석 ") 50 48 50 52 [ch_minus] [] 48 53 48 57 (u".txt"));
      [reflexivity | reflexivity | reflexivity | cbn; lia].
Defined.

(** "출석0229.txt" (2024 is a leap year) and "1340.txt" *)
Lemma four_digit_code_is_a_day_of_2024_witness :
  extract_date_from_filename no_decimal (u"출석" ++ u"0229" ++ u".txt")
  = Some (Date 2024 2 29) /\
  extract_date_from_filename no_decimal ([] ++ u"1340" ++ u".txt") = None.
Proof.
  split.
  - apply (four_digit_code_is_a_day_of_2024 no_decimal
             (u"출석") 48 50 50 57 (u".txt")); reflexivity.
  - apply (four_digit_code_is_a_day_of_2024 no_decimal
             [] 49 51 52 48 (u".txt")); reflexivity.
Defined.

(** "모임 12월  25일.txt" and "2월 30일.txt" *)
Lemma month_day_phrase_is_a_day_of_2024_witness :
  extract_date_from_filename no_decimal
    (u"모임 " ++ (u"12" ++ [ch_wol] ++ u"  " ++ u"25" ++ [ch_il]) ++ u".txt")
  = Some (Date 2024 12 25) /\
  extract_date_from_filename no_decimal
    ([] ++ (u"2" ++ [ch_wol] ++ u" " ++ u"30" ++ [ch_il]) ++ u".txt")
  = None.
Proof.
  split.
  - apply (month_day_phrase_is_a_day_of_2024 no_decimal
             (u"모임 ") (u"12") (u"  ") (u"25") (u".txt")); reflexivity.
  - apply (month_day_phrase_is_a_day_of_2024 no_decimal
             [] (u"2") (u" ") (u"30") (u".txt")); reflexivity.
Defined.

(** A dated file that is not UTF-8 ends the script; the undated one before
    it is not decoded. *)
Lemma only_undecodable_files_abort_witness :
  main no_decimal no_alnum broken_files = Aborted UnicodeDecodeError.
Proof.
  apply (proj2 (only_undecodable_files_abort no_decimal no_alnum broken_files)
               (UploadedFile (u"0509.txt") [255; 216; 255])).
  - right. left. reflexivity.
  - split; [vm_compute; discriminate | reflexivity].
Defined.

Lemma undated_batch_gives_empty_table_witness :
  main no_decimal no_alnum undated_files
  = Report (DataFrame [col_name; col_total] [])
           (map date_error undated_files).
Proof.
  apply (undated_batch_gives_empty_table no_decimal no_alnum undated_files).
  - discriminate.
  - intros f [<-|[<-|[]]]; reflexivity.
Defined.

Lemma report_is_a_table_witness :
  exists df log,
    main no_decimal no_alnum example_files = Report df log /\
    NoDup (columns df) /\
    Forall (fun rec => length rec = length (columns df)) (records df).
Proof.
  eexists. eexists. split; [vm_compute; reflexivity|].
  eapply (report_is_a_table no_decimal no_alnum example_files).
  vm_compute. reflexivity.
Defined.

Lemma report_marks_exactly_attendance_witness :
  exists df log,
    main no_decimal no_alnum example_files = Report df log /\
    forall rec, In rec (records df) ->
      exists name,
        cell_at (combine (columns df) rec) col_name = CStr name /\
        forall d, dated no_decimal example_files d ->
          In (date_str d) (columns df) /\
          (cell_at (combine (columns df) rec) (date_str d) = CStr (u"O")
           <-> attended no_decimal no_alnum example_files name d) /\
          (cell_at (combine (columns df) rec) (date_str d) = CStr (u"O") \/
           cell_at (combine (columns df) rec) (date_str d) = CStr (u"X")).
Proof.
  eexists. eexists. split; [vm_compute; reflexivity|].
  eapply (report_marks_exactly_attendance no_decimal no_alnum example_files).
  vm_compute. reflexivity.
Defined.

Lemma report_rows_are_the_participants_witness :
  exists df log,
    main no_decimal no_alnum example_files = Report df log /\
    exists sorted_dates entries,
      records df = map (report_record sorted_dates) entries /\
      NoDup (map fst entries) /\
      (forall name,
          In name (map fst entries)
          <-> exists d, attended no_decimal no_alnum example_files name d) /\
      (forall name inner,
          In (name, inner) entries -> (1 <= total_of inner)%nat).
Proof.
  eexists. eexists. split; [vm_compute; reflexivity|].
  eapply (report_rows_are_the_participants no_decimal no_alnum example_files).
  vm_compute. reflexivity.
Defined.

(** The second file of the batch, uploaded once more. *)
Lemma uploading_a_file_again_changes_nothing_witness :
  exists df log log',
    main no_decimal no_alnum example_files = Report df log /\
    main no_decimal no_alnum
         (example_files ++ [nth 1 example_files (UploadedFile [] [])])
    = Report df log'.
Proof.
  eexists. eexists.
  destruct (uploading_a_file_again_changes_nothing
              no_decimal no_alnum example_files
              (nth 1 example_files (UploadedFile [] [])) _ _
              ltac:(right; left; reflexivity)
              ltac:(vm_compute; reflexivity)) as [log' H].
  exists log'. split; [vm_compute; reflexivity | exact H].
Defined.

(** The batch in reverse order. *)
Lemma upload_order_is_irrelevant_witness :
  exists df log df' log',
    main no_decimal no_alnum example_files = Report df log /\
    main no_decimal no_alnum (rev example_files) = Report df' log' /\
    columns df' = columns df /\
    Permutation (records df) (records df').
Proof.
  eexists. eexists.
  destruct (upload_order_is_irrelevant
              no_decimal no_alnum example_files (rev example_files) _ _
              (Permutation_rev example_files)
              ltac:(vm_compute; reflexivity)) as (df' & log' & H).
  exists df', log'. split; [vm_compute; reflexivity | exact H].
Defined.

(** "2) 하고랩스" *)
Lemma brand_only_line_gives_the_empty_name_witness :
  extract_names_from_text no_decimal no_alnum
    (u"2" ++ [ch_rparen] ++ u" " ++ u"하고랩스")
  = ([u"하고랩스"], []) /\
  normalize_name_to_core no_decimal (u"하고랩스") = [].
Proof.
  apply (brand_only_line_gives_the_empty_name no_decimal no_alnum
           (u"2") (u" ") (u"하고랩스"));
    [discriminate | reflexivity | reflexivity | left; reflexivity].
Defined.

(** "7) kim_minsu" and "8) 조은희" *)
Lemma one_word_name_is_kept_witness :
  (extract_names_from_text no_decimal no_alnum
     (u"7" ++ [ch_rparen] ++ u" " ++ u"kim_minsu")
   = ([u"kim_minsu"], []) /\
   normalize_name_to_core no_decimal (u"kim_minsu") = u"kim_minsu") /\
  (extract_names_from_text no_decimal no_alnum
     (u"8" ++ [ch_rparen] ++ u" " ++ u"조은희")
   = ([u"조은희"], []) /\
   normalize_name_to_core no_decimal (u"조은희") = u"조은희").
Proof.
  split.
  - apply (one_word_name_is_kept no_decimal no_alnum
             (u"7") (u" ") (u"kim_minsu"));
      [discriminate | reflexivity | reflexivity | discriminate
       | reflexivity | reflexivity|].
    vm_compute. intros H.
    repeat (destruct H as [H|H]; [discriminate|]). exact H.
  - apply (one_word_name_is_kept no_decimal no_alnum
             (u"8") (u" ") (u"조은희"));
      [discriminate | reflexivity | reflexivity | discriminate
       | reflexivity | reflexivity|].
    vm_compute. intros H.
    repeat (destruct H as [H|H]; [discriminate|]). exact H.
Defined.
